(** * IMR monthly report: extraction pipeline and forecast arithmetic

    A shallow embedding of the currency parser, the fiscal calendar, the
    forecast engine, the session store, the extraction driver and the batch
    orchestrator of the repository, followed by the properties the
    specification states about them.

    JavaScript numbers are IEEE-754 binary64 values: they are modelled by
    Rocq's primitive [float], whose operations are the same round-to-nearest
    binary64 operations.  Month numbers, element counts and millisecond
    timestamps are integers far below 2^53 and are kept in [Z]; they are
    converted with [Z2float] where the source mixes them into double
    arithmetic.  Strings are byte strings; only ASCII text is modelled.

    The browser, the dashboard, the clock and the file system are an
    explicit environment: every call that leaves the process asks it, may
    be refused by it, and is recorded in the world that the computations
    thread through. *)

From Stdlib Require Import ZArith List String Ascii Bool Lia Floats QArith.
From Stdlib Require DecimalString DecimalZ.
From Stdlib Require Import Sorting.Sorted Sorting.Permutation Structures.OrderedTypeEx.
Import ListNotations.

Set Warnings "-inexact-float,-register-all".

Local Open Scope string_scope.
Local Open Scope Z_scope.

(** ** JavaScript primitives used by the source *)

Module JS.

(** [Number(z)] for an integer [z]: the nearest double. *)
Definition Z2float (z : Z) : float :=
  SF2Prim (binary_normalize prec emax z 0 false).

(** ToBoolean on a number: [NaN], [+0] and [-0] are falsy. *)
Definition truthy (x : float) : bool :=
  negb (PrimFloat.is_nan x || PrimFloat.is_zero x).

(** [x || 0] on numbers. *)
Definition orZero (x : float) : float :=
  if truthy x then x else 0%float.

(** [x === y], [x > y] on numbers. *)
Definition strictEq (x y : float) : bool := PrimFloat.eqb x y.
Definition gt (x y : float) : bool := PrimFloat.ltb y x.

(** *** Strings *)

(** A string holds one [ascii] per UTF-16 code unit: the strings of the
    model are the JavaScript strings whose code units are all below 256. *)
Definition codeOf (c : ascii) : Z := Z.of_nat (nat_of_ascii c).

(** The regular-expression class [\s], which is also the white space
    [trim], [parseFloat] and [parseInt] skip, on these code units: TAB, LF,
    VT, FF, CR, SP and the no-break space U+00A0. *)
Definition isWhiteSpace (c : ascii) : bool :=
  let n := codeOf c in ((9 <=? n) && (n <=? 13)) || (n =? 32) || (n =? 160).

(** The no-break space, as a string. *)
Definition nbsp : string := String (ascii_of_nat 160) EmptyString.

(** Plain text: ASCII characters and no-break spaces. *)
Definition isPlainChar (c : ascii) : bool :=
  let n := codeOf c in (n <? 128) || (n =? 160).

Fixpoint plainText (s : string) : bool :=
  match s with
  | EmptyString => true
  | String c r => isPlainChar c && plainText r
  end.

Definition isDigit (c : ascii) : bool :=
  let n := codeOf c in (48 <=? n) && (n <=? 57).

Definition digitVal (c : ascii) : Z := codeOf c - 48.

(** [toUpperCase] on plain text: the letters [a] to [z] have an upper
    case, the other ASCII characters and the no-break space have none. *)
Definition upperChar (c : ascii) : ascii :=
  let n := codeOf c in
  if (97 <=? n) && (n <=? 122) then ascii_of_nat (nat_of_ascii c - 32) else c.

Fixpoint toUpperCase (s : string) : string :=
  match s with
  | EmptyString => EmptyString
  | String c r => String (upperChar c) (toUpperCase r)
  end.

Fixpoint filterChars (keep : ascii -> bool) (s : string) : string :=
  match s with
  | EmptyString => EmptyString
  | String c r => if keep c then String c (filterChars keep r) else filterChars keep r
  end.

Fixpoint trimStart (s : string) : string :=
  match s with
  | String c r => if isWhiteSpace c then trimStart r else s
  | EmptyString => EmptyString
  end.

Fixpoint rev_string (acc s : string) : string :=
  match s with
  | EmptyString => acc
  | String c r => rev_string (String c acc) r
  end.

Definition trimEnd (s : string) : string :=
  rev_string "" (trimStart (rev_string "" s)).

Definition trim (s : string) : string := trimEnd (trimStart s).

(** [s.slice(0, -n)] for [n > 0]. *)
Definition sliceDropLast (n : nat) (s : string) : string :=
  String.substring 0 (String.length s - n) s.

(** [s.slice(-1)]: the last character as a string, or the empty string. *)
Definition sliceLast (s : string) : string :=
  String.substring (String.length s - 1) 1 s.

Definition startsWith (p s : string) : bool := String.prefix p s.

Definition endsWith (suffix s : string) : bool :=
  String.prefix (rev_string "" suffix) (rev_string "" s).

(** *** [parseFloat] *)

(** Longest run of decimal digits at the front of [s], most significant
    first, and the rest of the string. *)
Fixpoint spanDigits (s : string) : list Z * string :=
  match s with
  | String c r =>
      if isDigit c
      then let '(ds, rest) := spanDigits r in (digitVal c :: ds, rest)
      else ([], s)
  | EmptyString => ([], EmptyString)
  end.

Definition digitsValue (ds : list Z) : Z :=
  fold_left (fun acc d => 10 * acc + d) ds 0.

(** An optional sign: [(negative, rest)]. *)
Definition spanSign (s : string) : bool * string :=
  match s with
  | String "-" r => (true, r)
  | String "+" r => (false, r)
  | _ => (false, s)
  end.

(** The ExponentPart of a StrDecimalLiteral, when one is complete. *)
Definition spanExponent (s : string) : Z :=
  match s with
  | String c r =>
      if (codeOf c =? 101) || (codeOf c =? 69) then
        let '(neg, r') := spanSign r in
        match spanDigits r' with
        | ([], _) => 0
        | (ds, _) => if neg then - digitsValue ds else digitsValue ds
        end
      else 0
  | EmptyString => 0
  end.

(** The double nearest to [m * 10^e] (ties to even), with sign [neg]. *)
Definition decimalToFloat (neg : bool) (m e : Z) : float :=
  match m with
  | Zpos p =>
      let num := Z.to_pos (Zpos p * 10 ^ Z.max e 0) in
      let den := Z.to_pos (10 ^ Z.max (- e) 0) in
      SF2Prim (SFdiv prec emax (S754_finite neg num 0) (S754_finite false den 0))
  | _ => if neg then (-0)%float else 0%float
  end.

(** [parseFloat(s)]: skip leading white space, read the longest prefix that
    is a StrDecimalLiteral, [NaN] when there is none. *)
Definition parseFloat (s : string) : float :=
  let '(neg, body) := spanSign (trimStart s) in
  if startsWith "Infinity" body then
    (if neg then neg_infinity else infinity)
  else
    let '(ip, r1) := spanDigits body in
    let '(fp, r2) :=
      match r1 with
      | String "." r => spanDigits r
      | _ => ([], r1)
      end in
    match ip, fp with
    | [], [] => nan
    | _, _ =>
        decimalToFloat neg (digitsValue (ip ++ fp))
                       (spanExponent r2 - Z.of_nat (List.length fp))
    end.

(** *** Integers as text *)

(** The double-quote character, as a string. *)
Definition dq : string := String (ascii_of_nat 34) EmptyString.

(** [n.toString()] for an integer [n]. *)
Definition Z_toString (z : Z) : string :=
  DecimalString.NilZero.string_of_int (Z.to_int z).

(** Value of a character as a digit of the given radix. *)
Definition radixDigit (radix : Z) (c : ascii) : option Z :=
  let n := codeOf c in
  let v := if isDigit c then n - 48
           else if (97 <=? n) && (n <=? 122) then n - 87
           else if (65 <=? n) && (n <=? 90) then n - 55
           else 99 in
  if v <? radix then Some v else None.

(** Longest prefix of digits: the value read so far, [None] before the
    first digit. *)
Fixpoint parseDigits (radix : Z) (acc : option Z) (s : string) : option Z :=
  match s with
  | String c r =>
      match radixDigit radix c with
      | Some v =>
          parseDigits radix (Some (radix * match acc with Some a => a | None => 0 end + v)) r
      | None => acc
      end
  | EmptyString => acc
  end.

(** [parseInt(s)] without a radix argument; [None] is [NaN]. *)
Definition parseInt (s : string) : option Z :=
  let '(neg, body) := spanSign (trimStart s) in
  let '(radix, digits) :=
    if startsWith "0x" body || startsWith "0X" body
    then (16, String.substring 2 (String.length body - 2) body)
    else (10, body) in
  match parseDigits radix None digits with
  | Some v => Some (if neg then - v else v)
  | None => None
  end.

End JS.

(** ** Currency parser *)

Module Currency.
Import JS.

(** [value.replace(/[$,\s]/g, '')] *)
Definition stripSymbols (value : string) : string :=
  filterChars (fun c => negb ((codeOf c =? 36) || (codeOf c =? 44) || isWhiteSpace c)) value.

(** The object literal [{ K: 1000, M: 1000000, B: 1000000000 }] read at a
    one-character key. *)
Definition multipliers (key : string) : option float :=
  if String.eqb key "K" then Some 1000%float
  else if String.eqb key "M" then Some 1000000%float
  else if String.eqb key "B" then Some 1000000000%float
  else None.

(** [parseCurrencyAmount] of the scraper service. *)
Definition parseCurrencyAmount (value : string) : float :=
  if String.eqb value "" then 0%float
  else
    let cleaned := stripSymbols value in
    if endsWith "MM" (toUpperCase cleaned) then
      (parseFloat (sliceDropLast 2 cleaned) * 1000000)%float
    else
      let lastChar := toUpperCase (sliceLast cleaned) in
      match multipliers lastChar with
      | Some mult =>
          if truthy mult
          then (parseFloat (sliceDropLast 1 cleaned) * mult)%float
          else orZero (parseFloat cleaned)
      | None => orZero (parseFloat cleaned)
      end.

(** [parseCurrency] of the selector test script: the same text. *)
Definition parseCurrency (value : string) : float :=
  if String.eqb value "" then 0%float
  else
    let cleaned := stripSymbols value in
    if endsWith "MM" (toUpperCase cleaned) then
      (parseFloat (sliceDropLast 2 cleaned) * 1000000)%float
    else
      let lastChar := toUpperCase (sliceLast cleaned) in
      match multipliers lastChar with
      | Some mult =>
          if truthy mult
          then (parseFloat (sliceDropLast 1 cleaned) * mult)%float
          else orZero (parseFloat cleaned)
      | None => orZero (parseFloat cleaned)
      end.

End Currency.

(** ** Dates and the fiscal calendar *)

Module DateUtils.
Import JS.

(** A JavaScript [Date] seen through its local-time accessors.
    [getMonth] is 0-based (January = 0); [msOfDay] is the time elapsed since
    local midnight. *)
Record Date := mkDate {
  getFullYear : Z;
  getMonth : Z;
  getDate : Z;
  msOfDay : Z
}.

Definition wellFormed (d : Date) : bool :=
  (0 <=? getMonth d) && (getMonth d <=? 11) &&
  (1 <=? getDate d) && (getDate d <=? 31) &&
  (0 <=? msOfDay d) && (msOfDay d <? 86400000).

(** Day number of a civil date (proleptic Gregorian calendar, day 0 is
    1970-01-01); [m] is 1-based. *)
Definition daysFromCivil (y m d : Z) : Z :=
  let y' := if m <=? 2 then y - 1 else y in
  let era := y' / 400 in
  let yoe := y' - era * 400 in
  let doy := (153 * (if 2 <? m then m - 3 else m + 9) + 2) / 5 + d - 1 in
  let doe := yoe * 365 + yoe / 4 - yoe / 100 + doy in
  era * 146097 + doe - 719468.

(** [date.getTime()], on the local time line. *)
Definition getTime (d : Date) : Z :=
  daysFromCivil (getFullYear d) (getMonth d + 1) (getDate d) * 86400000 + msOfDay d.

(** [new Date(year, monthIndex, day)]: years 0..99 mean 1900..1999. *)
Definition newDateYMD (year monthIndex day : Z) : Date :=
  let y := if (0 <=? year) && (year <=? 99) then 1900 + year else year in
  mkDate y monthIndex day 0.

(** The functions of the date library the source imports, on local civil
    time without daylight-saving shifts. *)
Definition startOfYear (d : Date) : Date := mkDate (getFullYear d) 0 1 0.
Definition endOfYear (d : Date) : Date := mkDate (getFullYear d) 11 31 86399999.
Definition isBefore (a b : Date) : bool := getTime a <? getTime b.
(** Full days between two instants, truncated toward zero. *)
Definition differenceInDays (l r : Date) : Z :=
  Z.quot (getTime l - getTime r) 86400000.

Section Clock.
(** The reading of [new Date()] taken where an argument is left out. *)
Variable today : Date.

Definition getFiscalYear (date : Date) : Z := getFullYear date.

(** [fiscalYear || getFiscalYear()]: a missing or zero year falls back
    to the clock. *)
Definition yearOrCurrent (fiscalYear : option Z) : Z :=
  match fiscalYear with
  | Some y => if y =? 0 then getFiscalYear today else y
  | None => getFiscalYear today
  end.

Definition getFiscalYearStart (fiscalYear : option Z) : Date :=
  let year := yearOrCurrent fiscalYear in
  startOfYear (newDateYMD year 0 1).

Definition getFiscalYearEnd (fiscalYear : option Z) : Date :=
  let year := yearOrCurrent fiscalYear in
  endOfYear (newDateYMD year 11 31).

Definition getDaysInFiscalYear (fiscalYear : option Z) : Z :=
  let start := getFiscalYearStart fiscalYear in
  let end_ := getFiscalYearEnd fiscalYear in
  differenceInDays end_ start + 1.

Definition getDaysElapsed (date : Date) (fiscalYear : option Z) : Z :=
  let start := getFiscalYearStart fiscalYear in
  let currentDate := date in
  if isBefore currentDate start then 0
  else differenceInDays currentDate start + 1.
End Clock.

End DateUtils.

(** ** Forecast engine *)

Module Forecast.
Import JS DateUtils.

Record MonthlyBurnRate := mkMBR {
  month : string;
  monthName : string;
  totalSpend : float;
  daysInMonth : Z;
  dailyBurnRate : float
}.

(** [ForecastResult]; [subFleets] is optional and holds results again. *)
Inductive ForecastResult := mkForecast {
  fleetId : string;
  fleetName : string;
  budget : float;
  ytdSpend : float;
  avgDailyBurnRate : float;
  monthlyBurnRates : list MonthlyBurnRate;
  forecastedEOYSpend : float;
  variance : float;
  variancePercentage : float;
  isOverBudget : bool;
  fiscalYearStart : Date;
  fiscalYearEnd : Date;
  daysInFiscalYear : Z;
  daysElapsed : Z;
  subFleets : option (list ForecastResult)
}.

Record BudgetVariance := mkVariance {
  bv_variance : float;
  bv_variancePercentage : float;
  bv_isOverBudget : bool
}.

Section Clock.
Variable today : Date.

Definition calculateAverageDailyBurnRate (ytdSpend : float) (currentDate : Date) : float :=
  let fiscalYear := getFiscalYear currentDate in
  let daysElapsed := getDaysElapsed today currentDate (Some fiscalYear) in
  if daysElapsed =? 0 then 0%float
  else (ytdSpend / Z2float daysElapsed)%float.

Definition forecastEOYSpend (ytdSpend burnRate : float) (currentDate : Date) : float :=
  if strictEq burnRate 0 then ytdSpend
  else
    let fiscalYear := getFiscalYear currentDate in
    let totalDaysInYear := getDaysInFiscalYear today (Some fiscalYear) in
    (burnRate * Z2float totalDaysInYear)%float.
End Clock.

Definition calculateBudgetVariance (budget forecastedEOYSpend : float) : BudgetVariance :=
  let variance := (forecastedEOYSpend - budget)%float in
  let variancePercentage :=
    if gt budget 0 then ((variance / budget) * 100)%float else 0%float in
  let isOverBudget := gt variance 0 in
  mkVariance variance variancePercentage isOverBudget.

(** [list.reduce((sum, sf) => sum + f(sf), 0)] *)
Definition reduceSum {A} (f : A -> float) (l : list A) : float :=
  fold_left (fun sum sf => (sum + f sf)%float) l 0%float.

(** The [Map] keyed by month of [aggregateFleetData], in insertion order:
    an existing key keeps its place and gets the merged value. *)
Fixpoint mergeMonth (mbr : MonthlyBurnRate) (m : list (string * MonthlyBurnRate))
  : list (string * MonthlyBurnRate) :=
  match m with
  | [] => [(month mbr, mbr)]
  | (k, existing) :: rest =>
      if String.eqb k (month mbr) then
        (k, mkMBR (month existing) (monthName existing)
                  (totalSpend existing + totalSpend mbr)%float
                  (daysInMonth existing)
                  (dailyBurnRate existing + dailyBurnRate mbr)%float) :: rest
      else (k, existing) :: mergeMonth mbr rest
  end.

(** [a.month.localeCompare(b.month)] on ASCII month keys. *)
Definition monthLe (a b : MonthlyBurnRate) : bool :=
  match String.compare (month a) (month b) with
  | Gt => false
  | _ => true
  end.

Fixpoint insertSorted (x : MonthlyBurnRate) (l : list MonthlyBurnRate) : list MonthlyBurnRate :=
  match l with
  | [] => [x]
  | y :: r => if monthLe y x then y :: insertSorted x r else x :: l
  end.

(** [Array.prototype.sort], which is stable. *)
Definition sortByMonth (l : list MonthlyBurnRate) : list MonthlyBurnRate :=
  fold_left (fun acc x => insertSorted x acc) l [].

(** [aggregateFleetData]; [now1] and [now2] are its two readings of
    [new Date()], [today] the reading behind omitted arguments. *)
Definition aggregateFleetData (today now1 now2 : Date)
    (mainFleet : ForecastResult) (subFleets_ : list ForecastResult) : ForecastResult :=
  match subFleets_ with
  | [] =>
      mkForecast (fleetId mainFleet) (fleetName mainFleet) (budget mainFleet)
        (ytdSpend mainFleet) (avgDailyBurnRate mainFleet) (monthlyBurnRates mainFleet)
        (forecastedEOYSpend mainFleet) (variance mainFleet) (variancePercentage mainFleet)
        (isOverBudget mainFleet) (fiscalYearStart mainFleet) (fiscalYearEnd mainFleet)
        (daysInFiscalYear mainFleet) (daysElapsed mainFleet) (Some [])
  | _ :: _ =>
      let totalBudget := (budget mainFleet + reduceSum budget subFleets_)%float in
      let totalYTDSpend := (ytdSpend mainFleet + reduceSum ytdSpend subFleets_)%float in
      let avgDailyBurnRate_ := calculateAverageDailyBurnRate today totalYTDSpend now1 in
      let forecastedEOYSpend_ := forecastEOYSpend today totalYTDSpend avgDailyBurnRate_ now2 in
      let bv := calculateBudgetVariance totalBudget forecastedEOYSpend_ in
      let monthlyBurnRatesMap :=
        fold_left
          (fun m fleet => fold_left (fun m' mbr => mergeMonth mbr m') (monthlyBurnRates fleet) m)
          (mainFleet :: subFleets_) [] in
      let monthlyBurnRates_ := sortByMonth (map snd monthlyBurnRatesMap) in
      mkForecast (fleetId mainFleet) (fleetName mainFleet) totalBudget totalYTDSpend
        avgDailyBurnRate_ monthlyBurnRates_ forecastedEOYSpend_
        (bv_variance bv) (bv_variancePercentage bv) (bv_isOverBudget bv)
        (fiscalYearStart mainFleet) (fiscalYearEnd mainFleet)
        (daysInFiscalYear mainFleet) (daysElapsed mainFleet) (Some subFleets_)
  end.

End Forecast.

(** ** The scraper service: session store and extraction driver *)

Module Scraper.
Import JS Currency DateUtils.

(** *** The outside world *)

(** What the process can observe of its surroundings, indexed by the
    number of interactions made so far, so that every answer may change
    over time: the clock, whether a navigation, a click, a file-system
    write, a browser launch succeeds, and what the dashboard shows at a
    location, in a view, under a selector ([None]: the query throws).
    A view is named by the period button clicked last. *)
Record Env := mkEnv {
  env_clock : nat -> Date;
  env_navigate : nat -> string -> bool;
  env_click : nat -> bool;
  env_fsWrite : nat -> bool;
  env_launch : nat -> bool;
  env_browserAlive : nat -> bool;
  env_site : nat -> string -> option string -> string -> option (list string)
}.

(** Observable actions, recorded as they happen.  [EvLoginCheck] marks
    a call of [isLoggedIn], the external login check; [console.log] and
    [console.error] lines are left out. *)
Inductive Event :=
| EvLoginCheck (url : string)
| EvGoto (url : string)
| EvClick (text : string)
| EvWait (ms : Z)
| EvPrompt (url : string)
| EvWriteStamp (content : string)
| EvWarn (msg : string)
| EvLaunch
| EvNewPage
| EvPageClose.

Record World := mkWorld {
  w_step : nat;                 (* interactions made so far *)
  w_browser : option Z;         (* [browser], with [sessionStartTime] *)
  w_sessionDir : bool;          (* .browser-session exists *)
  w_stampFile : option string;  (* contents of .last-validated *)
  w_url : string;               (* location of the open page *)
  w_view : option string;       (* period button clicked last *)
  w_trace : list Event          (* newest first *)
}.

Definition Error := string.

Inductive Outcome (A : Type) :=
| Ok (a : A)
| Throw (e : Error).
Arguments Ok {A} a.
Arguments Throw {A} e.

(** Computations: the world is threaded through, also past a throw. *)
Definition M (A : Type) := World -> Outcome A * World.

Definition ret {A} (a : A) : M A := fun w => (Ok a, w).
Definition throw {A} (e : Error) : M A := fun w => (Throw e, w).
Definition bind {A B} (m : M A) (k : A -> M B) : M B :=
  fun w => match m w with
           | (Ok a, w') => k a w'
           | (Throw e, w') => (Throw e, w')
           end.
Definition tryCatch {A} (m : M A) (h : Error -> M A) : M A :=
  fun w => match m w with
           | (Ok a, w') => (Ok a, w')
           | (Throw e, w') => h e w'
           end.
Definition finally {A} (m : M A) (f : M unit) : M A :=
  fun w => match m w with
           | (r, w') => match f w' with
                        | (Ok _, w'') => (r, w'')
                        | (Throw e, w'') => (Throw e, w'')
                        end
           end.

Declare Scope js_scope.
Delimit Scope js_scope with js.
Notation "x <- m ;; k" := (bind m (fun x => k))
  (at level 61, m at next level, right associativity) : js_scope.
Notation "m ;; k" := (bind m (fun _ => k))
  (at level 61, right associativity) : js_scope.
Local Open Scope js_scope.

Definition withStep (n : nat) (w : World) : World :=
  mkWorld n (w_browser w) (w_sessionDir w) (w_stampFile w) (w_url w) (w_view w) (w_trace w).
Definition withBrowser (b : option Z) (w : World) : World :=
  mkWorld (w_step w) b (w_sessionDir w) (w_stampFile w) (w_url w) (w_view w) (w_trace w).
Definition withSessionDir (w : World) : World :=
  mkWorld (w_step w) (w_browser w) true (w_stampFile w) (w_url w) (w_view w) (w_trace w).
Definition withStampFile (c : string) (w : World) : World :=
  mkWorld (w_step w) (w_browser w) (w_sessionDir w) (Some c) (w_url w) (w_view w) (w_trace w).
Definition withPage (url : string) (view : option string) (w : World) : World :=
  mkWorld (w_step w) (w_browser w) (w_sessionDir w) (w_stampFile w) url view (w_trace w).
Definition withEvent (ev : Event) (w : World) : World :=
  mkWorld (w_step w) (w_browser w) (w_sessionDir w) (w_stampFile w) (w_url w) (w_view w)
          (ev :: w_trace w).

Definition get : M World := fun w => (Ok w, w).
Definition modify (f : World -> World) : M unit := fun w => (Ok tt, f w).
Definition emit (ev : Event) : M unit := modify (withEvent ev).
(** The index of the next interaction, which is thereby used up. *)
Definition tick : M nat := fun w => (Ok (w_step w), withStep (S (w_step w)) w).

Section WithEnv.
Variable env : Env.

(** [new Date()] and [Date.now()]. *)
Definition newDate : M Date := k <- tick ;; ret (env_clock env k).
Definition dateNow : M Z := d <- newDate ;; ret (getTime d).

(** [await new Promise(resolve => setTimeout(resolve, ms))] *)
Definition sleep (ms : Z) : M unit := emit (EvWait ms).

Definition consoleWarn (msg : string) : M unit := emit (EvWarn msg).

(** **** The page *)

Definition pageGoto (url : string) : M unit :=
  k <- tick ;;
  emit (EvGoto url) ;;
  if env_navigate env k url
  then modify (withPage url None)
  else throw "Navigation failed".

(** [page.$$(selector)], each element given by its [textContent]. *)
Definition pageQueryAll (selector : string) : M (list string) :=
  k <- tick ;;
  w <- get ;;
  match env_site env k (w_url w) (w_view w) selector with
  | Some els => ret els
  | None => throw "Query failed"
  end.

(** [page.$(selector)]: the first match or [null]. *)
Definition pageQuery (selector : string) : M (option string) :=
  els <- pageQueryAll selector ;;
  ret (hd_error els).

(** [button.click()] on a period button showing [text]. *)
Definition clickButton (text : string) : M unit :=
  k <- tick ;;
  emit (EvClick text) ;;
  if env_click env k
  then w <- get ;; modify (withPage (w_url w) (Some text))
  else throw "Click failed".

Definition pageClose : M unit := emit EvPageClose.

(** **** Browser session *)

Definition SESSION_TIMEOUT : Z := 30 * 60 * 1000.
Definition PERIOD_SELECTION_WAIT : Z := 3000.

Definition launchBrowser : M unit :=
  w0 <- get ;;
  (if w_sessionDir w0 then ret tt
   else k <- tick ;;
        if env_fsWrite env k then modify withSessionDir
        else throw "mkdir failed") ;;
  k <- tick ;;
  if env_launch env k then
    emit EvLaunch ;;
    now <- dateNow ;;
    modify (withBrowser (Some now))
  else throw "Failed to launch the browser process".

Definition initBrowser : M unit :=
  w <- get ;;
  match w_browser w with
  | Some sessionStartTime =>
      now <- dateNow ;;
      if now - sessionStartTime <? SESSION_TIMEOUT then
        k <- tick ;;
        if env_browserAlive env k then ret tt
        else modify (withBrowser None) ;; launchBrowser
      else launchBrowser
  | None => launchBrowser
  end.

Definition createPage : M unit :=
  k <- tick ;;
  if env_browserAlive env k
  then emit EvNewPage ;; modify (withPage "about:blank" None)
  else throw "Protocol error: target closed".

(** **** Session store *)

Definition periodSelector : string :=
  "button[data-class-name=" ++ dq ++ "mus-period-selector_button" ++ dq ++ "]".
Definition fleetIdSelector : string :=
  "[data-testid=" ++ dq ++ "mus-overview-fleetid" ++ dq ++ "]".

Definition cerberusIndicators : list string :=
  [periodSelector; fleetIdSelector; ".awsui-key-children"; "strong"].

Definition loginIndicators : list string :=
  ["input[type=" ++ dq ++ "password" ++ dq ++ "]";
   "input[name=" ++ dq ++ "username" ++ dq ++ "]";
   "input[name=" ++ dq ++ "email" ++ dq ++ "]";
   ".login-form"; "#login"].

(** First loop of [isLoggedIn]: a query that throws is skipped. *)
Fixpoint anyCerberusElement (selectors : list string) : M bool :=
  match selectors with
  | [] => ret false
  | selector :: rest =>
      element <- tryCatch (pageQuery selector) (fun _ => ret None) ;;
      match element with
      | Some _ => ret true
      | None => anyCerberusElement rest
      end
  end.

(** Second loop of [isLoggedIn]: a query that throws is not caught
    here. *)
Fixpoint anyLoginElement (selectors : list string) : M bool :=
  match selectors with
  | [] => ret false
  | selector :: rest =>
      element <- pageQuery selector ;;
      match element with
      | Some _ => ret true
      | None => anyLoginElement rest
      end
  end.

Definition isLoggedIn (cerberusUrl : string) : M bool :=
  emit (EvLoginCheck cerberusUrl) ;;
  tryCatch
    (pageGoto cerberusUrl ;;
     sleep 2000 ;;
     found <- anyCerberusElement cerberusIndicators ;;
     if found then ret true
     else
       _ <- anyLoginElement loginIndicators ;;
       ret false)
    (fun _ => ret false).

(** Waits for the operator to press Enter, which is taken to happen. *)
Definition promptManualLogin (cerberusUrl : string) : M unit :=
  emit (EvPrompt cerberusUrl).

Definition SESSION_VALIDITY_HOURS : Q := 12.

(** [hoursSinceValidation < SESSION_VALIDITY_HOURS]; a [NaN] timestamp
    compares false.  The age is an integer number of milliseconds, so its
    quotient by 3600000 is compared with 12 as a rational: the double
    quotient falls on the same side. *)
Definition withinValidity (now : Z) (lastValidated : option Z) : bool :=
  match lastValidated with
  | Some t =>
      let hoursSinceValidation := (inject_Z (now - t) / inject_Z (1000 * 60 * 60))%Q in
      negb (Qle_bool SESSION_VALIDITY_HOURS hoursSinceValidation)
  | None => false
  end.

(** [fs.stat] and [fs.readFile] of the timestamp file. *)
Definition readStampFile : M string :=
  w <- get ;;
  match w_stampFile w with
  | Some content => ret content
  | None => throw "ENOENT: no such file or directory"
  end.

(** [fs.mkdir(sessionDir, { recursive: true })] then
    [fs.writeFile(timestampFile, Date.now().toString())]. *)
Definition saveStamp : M unit :=
  k <- tick ;;
  (if env_fsWrite env k then modify withSessionDir else throw "mkdir failed") ;;
  now <- dateNow ;;
  k' <- tick ;;
  if env_fsWrite env k'
  then emit (EvWriteStamp (Z_toString now)) ;; modify (withStampFile (Z_toString now))
  else throw "write failed".

(** The first [try] block of [ensureAuthenticated]: [true] when it
    returns early on a recent timestamp, [false] when it falls through
    (expired, unreadable or missing timestamp). *)
Definition cachedSessionValid : M bool :=
  tryCatch
    (content <- readStampFile ;;
     let lastValidated := parseInt content in
     now <- dateNow ;;
     ret (withinValidity now lastValidated))
    (fun _ => ret false).

Definition ensureAuthenticated (cerberusUrl : string) : M unit :=
  cached <- cachedSessionValid ;;
  if cached then ret tt
  else
    loggedIn <- isLoggedIn cerberusUrl ;;
    if loggedIn then
      tryCatch saveStamp (fun _ => consoleWarn "Could not save session timestamp")
    else
      promptManualLogin cerberusUrl ;;
      tryCatch saveStamp (fun _ => consoleWarn "Could not save session timestamp").

(** **** Extraction driver *)

(** [el.textContent?.trim() || ''] of the element at [index], which is
    there. *)
Definition textAt (index : nat) (elements : list string) : string :=
  trim (nth index elements "").

(** The loop of [selectPeriodByText]: click the first button whose
    trimmed text is [periodText]. *)
Fixpoint clickMatching (periodText : string) (buttons : list string) : M bool :=
  match buttons with
  | [] => ret false
  | button :: rest =>
      if String.eqb (trim button) periodText
      then clickButton periodText ;; ret true
      else clickMatching periodText rest
  end.

Definition selectPeriodByText (periodText : string) : M unit :=
  tryCatch
    (buttons <- pageQueryAll periodSelector ;;
     if (List.length buttons =? 0)%nat then throw "No period selector buttons found"
     else
       buttonFound <- clickMatching periodText buttons ;;
       if negb buttonFound then
         throw ("Period button " ++ dq ++ periodText ++ dq
                ++ " not found. Available buttons: "
                ++ String.concat "," (map trim buttons))
       else sleep PERIOD_SELECTION_WAIT)
    (fun error =>
       throw ("Failed to select period " ++ dq ++ periodText ++ dq ++ ": " ++ error)).

Definition imrGoalIndex : nat := 1.
Definition ytdSpendIndex : nat := 1.

Definition extractIMRGoal : M float :=
  tryCatch
    (budgetElements <- pageQueryAll ".awsui-key-children" ;;
     if (List.length budgetElements <? 2)%nat then
       throw ("Expected at least 2 .awsui-key-children elements, found "
              ++ Z_toString (Z.of_nat (List.length budgetElements)))
     else
       let imrGoalText := textAt imrGoalIndex budgetElements in
       if String.eqb imrGoalText "" then throw "IMR Goal text is empty"
       else
         let imrGoal := parseCurrencyAmount imrGoalText in
         if strictEq imrGoal 0 then
           throw ("Failed to parse IMR Goal from text: " ++ dq ++ imrGoalText ++ dq)
         else ret imrGoal)
    (fun error => throw ("Failed to extract IMR Goal: " ++ error)).

Definition extractYTDSpend : M float :=
  tryCatch
    (spendElements <- pageQueryAll ".mus-cell-right-aligned" ;;
     if (List.length spendElements <? 2)%nat then
       throw ("Expected at least 2 .mus-cell-right-aligned elements, found "
              ++ Z_toString (Z.of_nat (List.length spendElements)))
     else
       let ytdSpendText := textAt ytdSpendIndex spendElements in
       if String.eqb ytdSpendText "" then throw "YTD Spend text is empty"
       else
         let ytdSpend := parseCurrencyAmount ytdSpendText in
         (if strictEq ytdSpend 0 then
            consoleWarn ("YTD Spend is $0 (raw: " ++ dq ++ ytdSpendText ++ dq
                         ++ ") - verify this is correct")
          else ret tt) ;;
         ret ytdSpend)
    (fun error => throw ("Failed to extract YTD Spend: " ++ error)).

(** The body of [calculateMonthsElapsed] once the clock is read. *)
Definition reportingMonthOf (today : Date) : Z :=
  let currentMonth := getMonth today + 1 in
  let reportingMonth := currentMonth - 1 in
  if reportingMonth =? 0 then 12 else reportingMonth.

Definition calculateMonthsElapsed (fiscalYear : Z) : M Z :=
  today <- newDate ;;
  ret (reportingMonthOf today).

(** [String(n).padStart(2, '0')] *)
Definition pad2 (n : Z) : string :=
  let t := Z_toString n in
  if (String.length t <? 2)%nat then "0" ++ t else t.

(** [buildCerberusUrl] without a billing period; the base is an origin
    and the fleet id needs no escaping. *)
Definition buildCerberusUrl (cerberusBaseUrl fleetId : string) : M string :=
  now <- newDate ;;
  let defaultBillingPeriod :=
    Z_toString (getFullYear now) ++ "-" ++ pad2 (getMonth now + 1) ++ "-01" in
  ret (cerberusBaseUrl ++ "/usage?fleetId=" ++ fleetId
       ++ "&billingPeriod=" ++ defaultBillingPeriod ++ "&activeTab=usage-imr-goal").

Record CerebusCompleteData := mkData {
  cd_fleetId : string;
  cd_fleetName : string;
  cd_fiscalYear : Z;
  cd_imrGoal : float;
  cd_ytdSpend : float;
  cd_ytdPeriodEnd : Date;
  cd_monthsElapsed : Z;
  cd_monthsRemaining : Z;
  cd_monthlyBurnRate : float;
  cd_projectedEOY : float;
  cd_variance : float;
  cd_variancePercent : float;
  cd_percentComplete : float;
  cd_isOverBudget : bool
}.

(** The "calculate metrics" step of [scrapeCerebusComplete], from the
    two extracted amounts and the two clock readings. *)
Definition computeMetrics (fleetId fleetName : string) (imrGoal ytdSpend : float)
    (today : Date) (monthsElapsed : Z) : CerebusCompleteData :=
  let currentYear := getFullYear today in
  let fiscalYear := currentYear in
  let monthsRemaining := 12 - monthsElapsed in
  let monthlyBurnRate := (ytdSpend / Z2float monthsElapsed)%float in
  let projectedEOY := (monthlyBurnRate * 12)%float in
  let variance := (imrGoal - projectedEOY)%float in
  let variancePercent := ((variance / imrGoal) * 100)%float in
  let percentComplete := ((ytdSpend / imrGoal) * 100)%float in
  let isOverBudget := gt projectedEOY imrGoal in
  mkData fleetId fleetName fiscalYear imrGoal ytdSpend today
         monthsElapsed monthsRemaining monthlyBurnRate projectedEOY
         variance variancePercent percentComplete isOverBudget.

Definition scrapeCerebusComplete (fleetId cerberusBaseUrl : string)
  : M CerebusCompleteData :=
  initBrowser ;;
  createPage ;;
  finally
    (tryCatch
       (fleetUrl <- buildCerberusUrl cerberusBaseUrl fleetId ;;
        ensureAuthenticated fleetUrl ;;
        pageGoto fleetUrl ;;
        sleep 2000 ;;
        selectPeriodByText "Full Year" ;;
        imrGoal <- extractIMRGoal ;;
        fleetNameElements <- pageQueryAll "strong" ;;
        let fleetName :=
          if (0 <? List.length fleetNameElements)%nat
          then textAt 0 fleetNameElements
          else "Fleet " ++ fleetId in
        selectPeriodByText "Year to Date" ;;
        ytdSpend <- extractYTDSpend ;;
        today <- newDate ;;
        monthsElapsed <- calculateMonthsElapsed (getFullYear today) ;;
        ret (computeMetrics fleetId fleetName imrGoal ytdSpend today monthsElapsed))
       (fun error => throw error))
    pageClose.

End WithEnv.
End Scraper.

(** ** Batch orchestrator: the all-fleets scraping script *)

Module Batch.
Import JS Scraper.
Local Open Scope js_scope.

(** One element of [results]: the object pushed on success, or the one
    pushed from the [catch] block.  [duration] is kept in milliseconds. *)
Inductive ResultEntry :=
| Success (fleetId fleetName : string) (imrGoal ytdSpend projectedEOY variance : float)
          (isOverBudget : bool) (duration : Z)
| Failure (fleetId : string) (error : string) (duration : Z).

Definition entryFleetId (r : ResultEntry) : string :=
  match r with
  | Success id _ _ _ _ _ _ _ => id
  | Failure id _ _ => id
  end.

Definition success (r : ResultEntry) : bool :=
  match r with
  | Success _ _ _ _ _ _ _ _ => true
  | Failure _ _ _ => false
  end.

Section WithEnv.
Variable env : Env.
Variable CERBERUS_URL : string.

(** The [try]/[catch] of one loop iteration: the entry pushed on
    [results]. *)
Definition testFleet (fleetId : string) : M ResultEntry :=
  fleetStartTime <- dateNow env ;;
  tryCatch
    (data <- scrapeCerebusComplete env fleetId CERBERUS_URL ;;
     finished <- dateNow env ;;
     ret (Success fleetId (cd_fleetName data) (cd_imrGoal data) (cd_ytdSpend data)
                  (cd_projectedEOY data) (cd_variance data) (cd_isOverBudget data)
                  (finished - fleetStartTime)))
    (fun error =>
       finished <- dateNow env ;;
       ret (Failure fleetId error (finished - fleetStartTime))).

(** The [for] loop over [FLEET_IDS] from index [i] on: [fleetIds] are
    the ids still to do, the last one being at index [length - 1]. *)
Fixpoint testFleets (fleetIds : list string) (results : list ResultEntry)
  : M (list ResultEntry) :=
  match fleetIds with
  | [] => ret results
  | fleetId :: rest =>
      entry <- testFleet fleetId ;;
      (match rest with
       | [] => ret tt
       | _ :: _ => sleep 1000
       end) ;;
      testFleets rest (results ++ [entry])
  end.

(** [testCerebusScraping]: the results and the code given to
    [process.exit]. *)
Definition testCerebusScraping (FLEET_IDS : list string) : M (list ResultEntry * Z) :=
  startTime <- dateNow env ;;
  results <- testFleets FLEET_IDS [] ;;
  finished <- dateNow env ;;
  let successCount := List.length (filter success results) in
  let failCount := List.length (filter (fun r => negb (success r)) results) in
  ret (results, if (0 <? failCount)%nat then 1 else 0).

End WithEnv.
End Batch.

(** ** Further helpers of the scraper service *)

Module ScraperTools.
Import JS DateUtils Scraper.
Local Open Scope js_scope.

(** [s.split(',')]: never empty, the empty string gives one empty piece. *)
Fixpoint splitOnComma (s : string) : list string :=
  match s with
  | EmptyString => [EmptyString]
  | String c r =>
      if codeOf c =? 44 then EmptyString :: splitOnComma r
      else match splitOnComma r with
           | piece :: pieces => String c piece :: pieces
           | [] => [String c EmptyString]
           end
  end.

Section WithEnv.
Variable env : Env.

(** The loop of [extractText]: the first selector whose first element
    has a text that is not empty after trimming; a selector whose query
    throws is skipped. *)
Fixpoint firstText (selectorArray : list string) : M (option string) :=
  match selectorArray with
  | [] => ret None
  | selector :: rest =>
      found <- tryCatch
                 (element <- pageQuery env selector ;;
                  match element with
                  | Some content =>
                      let text := trim content in
                      ret (if String.eqb text "" then None else Some text)
                  | None => ret None
                  end)
                 (fun _ => ret None) ;;
      match found with
      | Some text => ret (Some text)
      | None => firstText rest
      end
  end.

(** [extractText]; [None] is [null]. *)
Definition extractText (selectors : string) : M (option string) :=
  let selectorArray := map trim (splitOnComma selectors) in
  firstText selectorArray.

End WithEnv.

(** [\w] of a regular expression. *)
Definition isWordChar (c : ascii) : bool :=
  let n := codeOf c in
  isDigit c || ((65 <=? n) && (n <=? 90)) || ((97 <=? n) && (n <=? 122)) || (n =? 95).

(** [\b] after a word character: the end of the text or a character that
    is not a word character. *)
Definition boundaryBefore (rest : string) : bool :=
  match rest with
  | EmptyString => true
  | String c _ => negb (isWordChar c)
  end.

(** [20\d{2}\b] at the front of [s]: the number captured. *)
Definition matchFourDigits (s : string) : option Z :=
  match s with
  | String "2" (String "0" (String d1 (String d2 rest))) =>
      if isDigit d1 && isDigit d2 && boundaryBefore rest
      then Some (2000 + 10 * digitVal d1 + digitVal d2)
      else None
  | _ => None
  end.

(** [\d{2}\b] at the front of [s]: the number captured. *)
Definition matchTwoDigits (s : string) : option Z :=
  match s with
  | String d1 (String d2 rest) =>
      if isDigit d1 && isDigit d2 && boundaryBefore rest
      then Some (10 * digitVal d1 + digitVal d2)
      else None
  | _ => None
  end.

(** First match of [/\b(20\d{2}|\d{2})\b/] in [s], read from left to
    right; [prevWord] tells whether the character before [s] is a word
    character.  The alternatives are tried in order at each place. *)
Fixpoint matchYear (prevWord : bool) (s : string) : option Z :=
  match s with
  | EmptyString => None
  | String c r =>
      if negb prevWord && isDigit c then
        match matchFourDigits s with
        | Some y => Some y
        | None =>
            match matchTwoDigits s with
            | Some y => Some y
            | None => matchYear (isWordChar c) r
            end
        end
      else matchYear (isWordChar c) r
  end.

(** [parseFiscalYear]; [today] is the reading of [new Date()]. *)
Definition parseFiscalYear (today : Date) (value : string) : Z :=
  if String.eqb value "" then getFullYear today
  else
    match matchYear false value with
    | Some year => if year <? 100 then year + 2000 else year
    | None => getFullYear today
    end.

End ScraperTools.

(** ** The date-logic comparison script *)

Module DateLogic.
Import JS DateUtils.

Definition calculateMonthsElapsed_OLD (testDate : Date) : Z :=
  let currentMonth := getMonth testDate + 1 in
  if currentMonth =? 1 then 12 else currentMonth - 1.

Definition calculateMonthsElapsed_NEW (testDate : Date) : Z :=
  let currentMonth := getMonth testDate + 1 in
  let reportingMonth := currentMonth - 1 in
  if reportingMonth =? 0 then 12 else reportingMonth.

Definition fiscalMonths : list string :=
  [""; "January"; "February"; "March"; "April"; "May"; "June";
   "July"; "August"; "September"; "October"; "November"; "December"].

(** [fiscalMonths[monthsElapsed] || 'Unknown'] *)
Definition getFiscalMonthName (monthsElapsed : Z) : string :=
  let name := if monthsElapsed <? 0 then "" else nth (Z.to_nat monthsElapsed) fiscalMonths "" in
  if String.eqb name "" then "Unknown" else name.

End DateLogic.

(** ** The monthly report generator *)

Module MonthlyReport.
Import JS Scraper.
Local Open Scope js_scope.

(** One element of [results]: the object stored on success, or the one
    stored from the [catch] block.  [scrapingDuration] is kept in
    milliseconds. *)
Inductive ReportEntry :=
| FleetReport (data : CerebusCompleteData) (scrapingDuration : Z)
| FleetError (fleetId : string) (error : string) (scrapingDuration : Z).

Definition reportFleetId (r : ReportEntry) : string :=
  match r with
  | FleetReport data _ => cd_fleetId data
  | FleetError fleetId _ _ => fleetId
  end.

Definition reportSuccess (r : ReportEntry) : bool :=
  match r with
  | FleetReport _ _ => true
  | FleetError _ _ _ => false
  end.

(** The array [results] and the names of the files written so far. *)
Record RunState := mkRun {
  run_results : list ReportEntry;
  run_files : list string
}.

Definition pushResult (r : ReportEntry) (st : RunState) : RunState :=
  mkRun (run_results st ++ [r]) (run_files st).

Definition addFile (name : string) (st : RunState) : RunState :=
  mkRun (run_results st) (run_files st ++ [name]).

(** The totals of the summary report. *)
Record Totals := mkTotals {
  totalIMR : float;
  totalYTD : float;
  totalProjected : float;
  totalVariance : float
}.

(** The [forEach] over the successful fleets of [generateSummaryReport]. *)
Definition addToTotals (t : Totals) (fleet : ReportEntry) : Totals :=
  match fleet with
  | FleetReport data _ =>
      mkTotals (totalIMR t + cd_imrGoal data)%float
               (totalYTD t + cd_ytdSpend data)%float
               (totalProjected t + cd_projectedEOY data)%float
               (totalVariance t + cd_variance data)%float
  | FleetError _ _ _ => t
  end.

Definition summaryTotals (results : list ReportEntry) : Totals :=
  fold_left addToTotals (filter reportSuccess results) (mkTotals 0 0 0 0).

(** "OVER BUDGET" in the totals block. *)
Definition overallOverBudget (results : list ReportEntry) : bool :=
  gt (totalProjected (summaryTotals results)) (totalIMR (summaryTotals results)).

Section WithEnv.
Variable env : Env.
Variable CERBERUS_URL : string.

(** [fs.writeFile(path, ...)] inside the reports directory. *)
Definition writeReportFile (name : string) (st : RunState) : M RunState :=
  k <- tick ;;
  if env_fsWrite env k then ret (addFile name st)
  else throw ("EACCES: permission denied, open " ++ name).

(** The [catch] block of one iteration, entered with [results] as it is
    when the error is thrown: the failure entry is stored, then the error
    file is written, outside any [try]. *)
Definition recordFailure (fleetId : string) (fleetStartTime : Z) (error : Error)
    (st : RunState) : M RunState :=
  finished <- dateNow env ;;
  let result := FleetError fleetId error (finished - fleetStartTime) in
  writeReportFile ("fleet-" ++ fleetId ++ "-ERROR.json") (pushResult result st).

(** One iteration of the loop of [scrapeAllFleets].  The [try] block
    extracts, stores the result and writes the fleet's file; an error of
    the extraction reaches the [catch] block before the result is stored,
    an error of the write after. *)
Definition processFleet (fleetId : string) (st : RunState) : M RunState :=
  fleetStartTime <- dateNow env ;;
  fun w =>
    match scrapeCerebusComplete env fleetId CERBERUS_URL w with
    | (Ok data, w1) =>
        (finished <- dateNow env ;;
         let result := FleetReport data (finished - fleetStartTime) in
         tryCatch
           (writeReportFile ("fleet-" ++ fleetId ++ ".json") (pushResult result st))
           (fun error => recordFailure fleetId fleetStartTime error (pushResult result st)))
          w1
    | (Throw error, w1) => recordFailure fleetId fleetStartTime error st w1
    end.

(** The loop over [FLEET_IDS] from some index on. *)
Fixpoint processFleets (fleetIds : list string) (st : RunState) : M RunState :=
  match fleetIds with
  | [] => ret st
  | fleetId :: rest =>
      st' <- processFleet fleetId st ;;
      (match rest with
       | [] => ret tt
       | _ :: _ => sleep 2000
       end) ;;
      processFleets rest st'
  end.

(** [generateSummaryReport]: the text report, then the JSON summary. *)
Definition generateSummaryReport (st : RunState) : M RunState :=
  _ <- newDate env ;;
  st1 <- writeReportFile "summary-report.txt" st ;;
  _ <- newDate env ;;
  writeReportFile "summary.json" st1.

(** What a run of the script ends with. *)
Record RunResult := mkResult {
  res_results : list ReportEntry;
  res_files : list string;
  res_exitCode : Z
}.

(** [scrapeAllFleets]: the results, the files written and the code given
    to [process.exit]. *)
Definition scrapeAllFleets (FLEET_IDS : list string) : M RunResult :=
  startTime <- dateNow env ;;
  k <- tick ;;
  if negb (env_fsWrite env k) then ret (mkResult [] [] 1)
  else
    st <- processFleets FLEET_IDS (mkRun [] []) ;;
    finished <- dateNow env ;;
    st' <- generateSummaryReport st ;;
    let failCount := List.length (filter (fun r => negb (reportSuccess r)) (run_results st')) in
    ret (mkResult (run_results st') (run_files st') (if (0 <? failCount)%nat then 1 else 0)).

(** The script: a rejection of [scrapeAllFleets] exits with 1. *)
Definition monthlyReportMain (FLEET_IDS : list string) : M Z :=
  tryCatch (r <- scrapeAllFleets FLEET_IDS ;; ret (res_exitCode r))
           (fun _ => ret 1).

End WithEnv.
End MonthlyReport.

(** * Properties *)

Import JS Currency DateUtils Forecast Scraper Batch.
Local Open Scope js_scope.

(** ** Sample surroundings used by the concrete runs *)

(** A dashboard showing fleet 8304669 with budget "$2.36MM" in the Full
    Year view and spend "$150.9K" in the Year to Date view. *)
Definition sampleSite (k : nat) (url : string) (view : option string) (selector : string)
  : option (list string) :=
  if String.eqb selector periodSelector then Some ["Full Year"; "Year to Date"]
  else if String.eqb selector ".awsui-key-children" then
    match view with
    | Some "Full Year" => Some ["$150.9K"; "$2.36MM"]
    | _ => Some ["$150.9K"; "-"]
    end
  else if String.eqb selector ".mus-cell-right-aligned" then
    match view with
    | Some "Year to Date" => Some ["Total"; "$150.9K"]
    | _ => Some []
    end
  else if String.eqb selector "strong" then Some ["(F6) Planning Automation And Optimization"]
  else Some [].

(** 6 January 2027, 10:00. *)
Definition jan6 : Date := mkDate 2027 0 6 36000000.

Definition sampleEnv : Env :=
  mkEnv (fun _ => jan6) (fun _ _ => true) (fun _ => true) (fun _ => true)
        (fun _ => true) (fun _ => true) sampleSite.

(** A first run: no browser, no session directory, no timestamp. *)
Definition freshWorld : World := mkWorld 0 None false None "about:blank" None [].

(** ** Currency parser *)

(** C3: the listed inputs map to the listed values, in the scraper's
    [parseCurrencyAmount] and in the test script's [parseCurrency]:
    "$2.36MM" to 2360000 (MM is not read as M), "$150.9K" to 150900,
    "$1.2B" to 1200000000, and "-", "N/A" and the empty string to 0. *)
Theorem C3_parseCurrency_examples :
  parseCurrencyAmount "$2.36MM" = 2360000%float /\
  parseCurrencyAmount "$150.9K" = 150900%float /\
  parseCurrencyAmount "$1.2B" = 1200000000%float /\
  parseCurrencyAmount "-" = 0%float /\
  parseCurrencyAmount "N/A" = 0%float /\
  parseCurrencyAmount "" = 0%float /\
  parseCurrency "$2.36MM" = 2360000%float /\
  parseCurrency "$150.9K" = 150900%float /\
  parseCurrency "$1.2B" = 1200000000%float /\
  parseCurrency "-" = 0%float /\
  parseCurrency "N/A" = 0%float /\
  parseCurrency "" = 0%float.
Proof. repeat split; vm_compute; reflexivity. Qed.

(** [x || 0] is never [NaN]. *)
Lemma orZero_not_nan (x : float) : PrimFloat.is_nan (orZero x) = false.
Proof.
  unfold orZero, truthy.
  destruct (PrimFloat.is_nan x) eqn:Hn; simpl.
  - reflexivity.
  - destruct (PrimFloat.is_zero x); simpl; [reflexivity | exact Hn].
Qed.

(** Without a recognised suffix the parser is fail-soft: the result is a
    number, and an unparseable text gives 0. *)
Lemma parseCurrencyAmount_no_suffix (value : string) :
  endsWith "MM" (toUpperCase (stripSymbols value)) = false ->
  multipliers (toUpperCase (sliceLast (stripSymbols value))) = None ->
  PrimFloat.is_nan (parseCurrencyAmount value) = false /\
  (PrimFloat.is_nan (parseFloat (stripSymbols value)) = true ->
   parseCurrencyAmount value = 0%float).
Proof.
  intros Hmm Hk. unfold parseCurrencyAmount.
  destruct (String.eqb value "") eqn:He.
  - split; [reflexivity | intros _; reflexivity].
  - rewrite Hmm, Hk. split.
    + apply orZero_not_nan.
    + intros Hn. unfold orZero, truthy. rewrite Hn. reflexivity.
Qed.

(** C4: on a text whose remainder after the suffix is not a number the
    suffix branches return [NaN], not 0: the [|| 0] fallback guards only
    the branch without a suffix. *)
Theorem C4_suffix_branch_returns_nan :
  parseCurrencyAmount "$abcK" = nan /\
  parseCurrencyAmount "N/A MM" = nan /\
  parseCurrencyAmount "K" = nan /\
  PrimFloat.eqb (parseCurrencyAmount "$abcK") 0 = false /\
  parseCurrencyAmount "$abc" = 0%float.
Proof. repeat split; vm_compute; reflexivity. Qed.

(** ** Variance sign *)

(** [calculateBudgetVariance] follows the convention of the claim at
    every input. *)
Lemma calculateBudgetVariance_sign (budget forecastedEOYSpend : float) :
  let bv := calculateBudgetVariance budget forecastedEOYSpend in
  bv_variance bv = (forecastedEOYSpend - budget)%float /\
  bv_isOverBudget bv = gt (bv_variance bv) 0.
Proof. split; reflexivity. Qed.

(** C1: the scraper's compute step uses the opposite sign.  On the sample
    dashboard, read in January (12 months elapsed), the variance comes out
    as +2209100 where [projectedEOY - imrGoal] is -2209100, and
    [isOverBudget] is false although the variance is positive; the forecast
    engine gives -2209100 on the same figures. *)
Theorem C1_scraper_variance_sign :
  exists data w',
    scrapeCerebusComplete sampleEnv "8304669" "https://cerberus.example" freshWorld
      = (Ok data, w') /\
    cd_imrGoal data = 2360000%float /\
    cd_projectedEOY data = 150900%float /\
    cd_variance data = 2209100%float /\
    (cd_projectedEOY data - cd_imrGoal data)%float = (-2209100)%float /\
    cd_isOverBudget data = false /\
    gt (cd_variance data) 0 = true /\
    bv_variance (calculateBudgetVariance (cd_imrGoal data) (cd_projectedEOY data))
      = (-2209100)%float.
Proof.
  eexists. eexists. split.
  - vm_compute. reflexivity.
  - repeat split; vm_compute; reflexivity.
Qed.

(** ** Months elapsed *)

(** C2: the months-elapsed value is the calendar month minus one for
    February to December and 12 for January, hence within 1..12. *)
Theorem C2_months_elapsed (env : Env) (fiscalYear : Z) (w : World) :
  wellFormed (env_clock env (w_step w)) = true ->
  exists m w',
    calculateMonthsElapsed env fiscalYear w = (Ok m, w') /\
    (2 <= getMonth (env_clock env (w_step w)) + 1 <= 12 ->
       m = getMonth (env_clock env (w_step w)) + 1 - 1) /\
    (getMonth (env_clock env (w_step w)) + 1 = 1 -> m = 12) /\
    1 <= m <= 12.
Proof.
  intros Hwf.
  unfold wellFormed in Hwf.
  repeat (apply andb_prop in Hwf; destruct Hwf as [Hwf ?]).
  exists (reportingMonthOf (env_clock env (w_step w))).
  exists (withStep (S (w_step w)) w).
  split; [reflexivity |].
  unfold reportingMonthOf.
  destruct (Z.eqb_spec (getMonth (env_clock env (w_step w)) + 1 - 1) 0); lia.
Qed.

Lemma C2_months_elapsed_witness :
  exists m w',
    calculateMonthsElapsed sampleEnv 2027 freshWorld = (Ok m, w') /\
    (2 <= getMonth (env_clock sampleEnv (w_step freshWorld)) + 1 <= 12 ->
       m = getMonth (env_clock sampleEnv (w_step freshWorld)) + 1 - 1) /\
    (getMonth (env_clock sampleEnv (w_step freshWorld)) + 1 = 1 -> m = 12) /\
    1 <= m <= 12.
Proof. apply (C2_months_elapsed sampleEnv 2027 freshWorld). reflexivity. Defined.

(** ** Aggregation *)

Lemma reduceSum_map {A} (f : A -> float) (l : list A) :
  reduceSum f l = fold_left (fun sum x => (sum + x)%float) (map f l) 0%float.
Proof.
  unfold reduceSum. generalize 0%float.
  induction l as [| a l IH]; intros acc; simpl; [reflexivity | apply IH].
Qed.

Lemma reduceSum_ext {A B} (f : A -> float) (g : B -> float) l l' :
  map f l = map g l' -> reduceSum f l = reduceSum g l'.
Proof. intros H. rewrite !reduceSum_map, H. reflexivity. Qed.

(** C6: with sub-fleets present, the aggregate's budget and YTD spend are
    the sums over the main fleet and the sub-fleets, and its forecast is
    recomputed from the summed YTD spend; it depends on the constituents
    only through their YTD spends, not through their own forecasts. *)
Theorem C6_aggregate_recomputes_from_totals
    (today now1 now2 : Date) (mainFleet : ForecastResult) (subs : list ForecastResult) :
  subs <> [] ->
  budget (aggregateFleetData today now1 now2 mainFleet subs)
    = (budget mainFleet + reduceSum budget subs)%float /\
  ytdSpend (aggregateFleetData today now1 now2 mainFleet subs)
    = (ytdSpend mainFleet + reduceSum ytdSpend subs)%float /\
  forecastedEOYSpend (aggregateFleetData today now1 now2 mainFleet subs)
    = forecastEOYSpend today
        (ytdSpend mainFleet + reduceSum ytdSpend subs)%float
        (calculateAverageDailyBurnRate today
           (ytdSpend mainFleet + reduceSum ytdSpend subs)%float now1)
        now2 /\
  (forall mainFleet' subs',
      ytdSpend mainFleet' = ytdSpend mainFleet ->
      map ytdSpend subs' = map ytdSpend subs ->
      forecastedEOYSpend (aggregateFleetData today now1 now2 mainFleet' subs')
      = forecastedEOYSpend (aggregateFleetData today now1 now2 mainFleet subs)).
Proof.
  intros Hne.
  destruct subs as [| sf subs]; [congruence |].
  repeat split.
  intros mainFleet' subs' Hm Hs.
  destruct subs' as [| sf' subs']; [discriminate |].
  cbn [aggregateFleetData forecastedEOYSpend].
  rewrite Hm, (reduceSum_ext ytdSpend ytdSpend _ _ Hs).
  reflexivity.
Qed.

(** Two fleets forecast at mid-year and aggregated at the end of the
    year. *)
Definition fleetA : ForecastResult :=
  mkForecast "A" "Fleet A" 1000 100 0 [] 200 (-800) (-80) false
             (mkDate 2026 0 1 0) (mkDate 2026 11 31 86399999) 365 182 None.
Definition fleetB : ForecastResult :=
  mkForecast "B" "Fleet B" 500 50 0 [] 100 (-400) (-80) false
             (mkDate 2026 0 1 0) (mkDate 2026 11 31 86399999) 365 182 None.
Definition dec31 : Date := mkDate 2026 11 31 43200000.

Lemma C6_aggregate_recomputes_from_totals_witness :
  budget (aggregateFleetData dec31 dec31 dec31 fleetA [fleetB]) = 1500%float /\
  ytdSpend (aggregateFleetData dec31 dec31 dec31 fleetA [fleetB]) = 150%float /\
  forecastedEOYSpend (aggregateFleetData dec31 dec31 dec31 fleetA [fleetB]) = 150%float.
Proof.
  destruct (C6_aggregate_recomputes_from_totals dec31 dec31 dec31 fleetA [fleetB])
    as (Hb & Hy & Hf & _).
  - discriminate.
  - rewrite Hb, Hy, Hf. repeat split; vm_compute; reflexivity.
Defined.

(** There the aggregate forecast (150) is not the sum of the two
    constituent forecasts (200 + 100). *)
Example aggregate_is_not_sum_of_forecasts :
  PrimFloat.eqb
    (forecastedEOYSpend (aggregateFleetData dec31 dec31 dec31 fleetA [fleetB]))
    (forecastedEOYSpend fleetA + forecastedEOYSpend fleetB)%float = false.
Proof. vm_compute. reflexivity. Qed.

(** ** Projection at twelve months elapsed *)

(** C5, as stated, fails: the burn rate and the projection are rounded to
    the nearest double, and dividing by 12 then multiplying by 12 need not
    give the spend back.  A spend of 200000.02 read in January projects to
    200000.01999999996. *)
Lemma C5_counterexample :
  parseCurrencyAmount "$200,000.02" = 200000.02%float /\
  cd_monthsElapsed (computeMetrics "8304669" "F6" 2360000 200000.02 jan6 12) = 12 /\
  cd_projectedEOY (computeMetrics "8304669" "F6" 2360000 200000.02 jan6 12)
    = 200000.01999999996%float /\
  strictEq (cd_projectedEOY (computeMetrics "8304669" "F6" 2360000 200000.02 jan6 12))
           (cd_ytdSpend (computeMetrics "8304669" "F6" 2360000 200000.02 jan6 12)) = false.
Proof. repeat split; vm_compute; reflexivity. Qed.


(** *** Dividing by twelve and multiplying by twelve

    The operations on doubles are specified by [SFdiv] and [SFmul]; the
    lemmas below run them on a significand of 53 digits [m] and the
    significand [3 * 2^51] of twelve. *)

(** The double 12, as sign, significand and exponent. *)
Definition twelveSF : spec_float := S754_finite false 6755399441055744 (-49).

Lemma Prim2SF_twelve : Prim2SF 12 = twelveSF.
Proof. vm_compute. reflexivity. Qed.

Lemma digits2_pos_size (p : positive) : digits2_pos p = Pos.size p.
Proof. induction p; simpl; congruence. Qed.

Lemma digits2_pos_bounds (p : positive) (n : positive) :
  digits2_pos p = n <-> 2 ^ (Zpos n - 1) <= Zpos p < 2 ^ Zpos n.
Proof.
  rewrite digits2_pos_size.
  split.
  - intros <-.
    pose proof (Pos.size_gt p) as Hgt. pose proof (Pos.size_le p) as Hle.
    apply Pos2Z.pos_lt_pos in Hgt. apply Pos2Z.pos_le_pos in Hle.
    rewrite Pos2Z.inj_pow in Hgt, Hle. change (Zpos p~0) with (2 * Zpos p) in Hle.
    split; [| exact Hgt].
    replace (Zpos (Pos.size p)) with (Zpos (Pos.size p) - 1 + 1) in Hle by lia.
    rewrite Z.pow_add_r in Hle by lia. change (2 ^ 1) with 2 in Hle. lia.
  - intros [Hlo Hhi].
    pose proof (Pos.size_gt p) as Hgt. pose proof (Pos.size_le p) as Hle.
    apply Pos2Z.pos_lt_pos in Hgt. apply Pos2Z.pos_le_pos in Hle.
    rewrite Pos2Z.inj_pow in Hgt, Hle. change (Zpos p~0) with (2 * Zpos p) in Hle.
    assert (H1 : Zpos n - 1 < Zpos (Pos.size p)).
    { apply (Z.pow_lt_mono_r_iff 2); lia. }
    assert (H2 : Zpos (Pos.size p) - 1 < Zpos n).
    { apply (Z.pow_lt_mono_r_iff 2); try lia.
      replace (Zpos (Pos.size p)) with (Zpos (Pos.size p) - 1 + 1) in Hle by lia.
      rewrite Z.pow_add_r in Hle by lia. change (2 ^ 1) with 2 in Hle. lia. }
    lia.
Qed.


Lemma loc_of_record_of_loc (m : Z) (l : location) :
  loc_of_shr_record (shr_record_of_loc m l) = l.
Proof. destruct l as [| []]; reflexivity. Qed.

Lemma shr_m_record_of_loc (m : Z) (l : location) : shr_m (shr_record_of_loc m l) = m.
Proof. destruct l as [| []]; reflexivity. Qed.

(** A mantissa of 53 digits in the normal range is not shifted. *)
Lemma shr_fexp_53 (mx : positive) (ex : Z) (l : location) :
  digits2_pos mx = 53%positive -> -1074 <= ex ->
  shr_fexp prec emax (Zpos mx) ex l = (shr_record_of_loc (Zpos mx) l, ex).
Proof.
  intros Hd He. unfold shr_fexp, fexp, emin, prec, emax. cbn [Zdigits2]. rewrite Hd.
  replace (Z.max (53 + ex - 53) (3 - 1024 - 53) - ex) with 0 by lia.
  reflexivity.
Qed.

(** A longer mantissa is shifted down to 53 digits. *)
Lemma shr_fexp_long (mx : positive) (ex : Z) (l : location) (k : positive) :
  digits2_pos mx = (53 + k)%positive -> -1074 <= ex + Zpos k ->
  shr_fexp prec emax (Zpos mx) ex l
  = (SpecFloat.iter_pos shr_1 k (shr_record_of_loc (Zpos mx) l), ex + Zpos k).
Proof.
  intros Hd He. unfold shr_fexp, fexp, emin, prec, emax. cbn [Zdigits2]. rewrite Hd.
  replace (Z.max (Zpos (53 + k) + ex - 53) (3 - 1024 - 53) - ex) with (Zpos k) by lia.
  reflexivity.
Qed.

Lemma round_finish (sx : bool) (mrs : shr_record) (e1 : Z) (r : positive) :
  round_nearest_even (shr_m mrs) (loc_of_shr_record mrs) = Zpos r ->
  digits2_pos r = 53%positive -> -1074 <= e1 <= 971 ->
  (let '(mrs'', e'') :=
     shr_fexp prec emax (round_nearest_even (shr_m mrs) (loc_of_shr_record mrs)) e1 loc_Exact in
   match shr_m mrs'' with
   | Z0 => S754_zero sx
   | Zpos m => if e'' <=? emax - prec then S754_finite sx m e'' else S754_infinity sx
   | Zneg _ => S754_nan
   end) = S754_finite sx r e1.
Proof.
  intros Hr Hd He. rewrite Hr, shr_fexp_53 by (assumption || lia).
  cbn [shr_record_of_loc shr_m]. unfold emax, prec.
  destruct (Z.leb_spec e1 (1024 - 53)); [reflexivity | lia].
Qed.

(** Rounding up to 2^53 carries into the exponent. *)
Lemma round_finish_carry (sx : bool) (mrs : shr_record) (e1 : Z) :
  round_nearest_even (shr_m mrs) (loc_of_shr_record mrs) = 9007199254740992 ->
  -1074 <= e1 <= 970 ->
  (let '(mrs'', e'') :=
     shr_fexp prec emax (round_nearest_even (shr_m mrs) (loc_of_shr_record mrs)) e1 loc_Exact in
   match shr_m mrs'' with
   | Z0 => S754_zero sx
   | Zpos m => if e'' <=? emax - prec then S754_finite sx m e'' else S754_infinity sx
   | Zneg _ => S754_nan
   end) = S754_finite sx 4503599627370496 (e1 + 1).
Proof.
  intros Hr He. rewrite Hr.
  rewrite (shr_fexp_long 9007199254740992 e1 loc_Exact 1) by (reflexivity || lia).
  cbn. rewrite (proj2 (Z.leb_le _ _)) by lia. reflexivity.
Qed.

Lemma bra_53 (sx : bool) (mx : positive) (ex : Z) (l : location) (r : positive) :
  digits2_pos mx = 53%positive ->
  round_nearest_even (Zpos mx) l = Zpos r ->
  digits2_pos r = 53%positive -> -1074 <= ex <= 971 ->
  binary_round_aux prec emax sx (Zpos mx) ex l = S754_finite sx r ex.
Proof.
  intros Hd Hr Hdr He. unfold binary_round_aux.
  rewrite shr_fexp_53 by (assumption || lia).
  apply round_finish; try assumption.
  rewrite shr_m_record_of_loc, loc_of_record_of_loc. exact Hr.
Qed.

Lemma bra_long (sx : bool) (mx : positive) (ex : Z) (l : location) (k : positive)
    (mrs : shr_record) (r : positive) :
  digits2_pos mx = (53 + k)%positive ->
  SpecFloat.iter_pos shr_1 k (shr_record_of_loc (Zpos mx) l) = mrs ->
  round_nearest_even (shr_m mrs) (loc_of_shr_record mrs) = Zpos r ->
  digits2_pos r = 53%positive -> -1074 <= ex + Zpos k <= 971 ->
  binary_round_aux prec emax sx (Zpos mx) ex l = S754_finite sx r (ex + Zpos k).
Proof.
  intros Hd Hs Hr Hdr He. unfold binary_round_aux.
  rewrite (shr_fexp_long mx ex l k) by (assumption || lia).
  rewrite Hs. apply round_finish; assumption.
Qed.

Lemma bra_long_carry (sx : bool) (mx : positive) (ex : Z) (l : location) (k : positive)
    (mrs : shr_record) :
  digits2_pos mx = (53 + k)%positive ->
  SpecFloat.iter_pos shr_1 k (shr_record_of_loc (Zpos mx) l) = mrs ->
  round_nearest_even (shr_m mrs) (loc_of_shr_record mrs) = 9007199254740992 ->
  -1074 <= ex + Zpos k <= 970 ->
  binary_round_aux prec emax sx (Zpos mx) ex l
  = S754_finite sx 4503599627370496 (ex + Zpos k + 1).
Proof.
  intros Hd Hs Hr He. unfold binary_round_aux.
  rewrite (shr_fexp_long mx ex l k) by (assumption || lia).
  rewrite Hs. apply round_finish_carry; assumption.
Qed.

Lemma SFdiv_twelve (s : bool) (m : positive) (e : Z) :
  digits2_pos m = 53%positive -> -1070 <= e <= 971 ->
  exists qr : positive,
    digits2_pos qr = 53%positive /\
    ((Zpos m < 6755399441055744 /\
      SFdiv prec emax (S754_finite s m e) twelveSF = S754_finite s qr (e - 4) /\
      (3 * Zpos qr = 4 * Zpos m \/ 3 * Zpos qr = 4 * Zpos m - 1
       \/ 3 * Zpos qr = 4 * Zpos m + 1))
     \/
     (6755399441055744 <= Zpos m /\
      SFdiv prec emax (S754_finite s m e) twelveSF = S754_finite s qr (e - 3) /\
      (3 * Zpos qr = 2 * Zpos m \/ 3 * Zpos qr = 2 * Zpos m - 1
       \/ 3 * Zpos qr = 2 * Zpos m + 1))).
Proof.
  intros Hd He.
  pose proof (proj1 (digits2_pos_bounds m 53) Hd) as Hm.
  change (2 ^ (53 - 1)) with 4503599627370496 in Hm.
  change (2 ^ 53) with 9007199254740992 in Hm.
  unfold SFdiv, twelveSF, SFdiv_core_binary.
  cbn [Zdigits2]. rewrite Hd.
  change (Zpos (digits2_pos 6755399441055744)) with 53.
  unfold fexp, emin, prec, emax.
  replace (Z.min (Z.max (53 + e - (53 + -49) - 53) (3 - 1024 - 53)) (e - -49)) with (e - 4) by lia.
  replace (e - -49 - (e - 4)) with 53 by lia.
  change (IntDef.Z.shiftl (Zpos m) 53) with (Z.shiftl (Zpos m) 53).
  rewrite Z.shiftl_mul_pow2 by lia.
  change (2 ^ 53) with 9007199254740992.
  change IntDef.Z.div_eucl with Z.div_eucl.
  pose proof (Z_div_mod (Zpos m * 9007199254740992) 6755399441055744 eq_refl) as Hdm.
  destruct (Z.div_eucl (Zpos m * 9007199254740992) 6755399441055744) as [q r].
  destruct Hdm as [Heq Hr].
  assert (Hq : 0 < q) by lia.
  destruct q as [| q | q]; try lia.
  rewrite xorb_false_r.
  assert (Hcases : r = 0 \/ r = 2251799813685248 \/ r = 4503599627370496) by lia.
  destruct (Z_lt_le_dec (Zpos m) 6755399441055744) as [Hlt | Hge].
  - (* quotient of 53 digits *)
    assert (Hdq : digits2_pos q = 53%positive).
    { apply digits2_pos_bounds.
      change (2 ^ (53 - 1)) with 4503599627370496.
      change (2 ^ 53) with 9007199254740992. lia. }
    destruct Hcases as [-> | [-> | ->]].
    + exists q. split; [exact Hdq |]. left. split; [exact Hlt |]. split; [| lia].
      change (new_location 6755399441055744 0) with loc_Exact.
      apply bra_53; try assumption; try reflexivity; lia.
    + exists q. split; [exact Hdq |]. left. split; [exact Hlt |]. split; [| lia].
      change (new_location 6755399441055744 2251799813685248) with (loc_Inexact Lt).
      apply bra_53; try assumption; try reflexivity; lia.
    + assert (Hdq1 : digits2_pos (q + 1) = 53%positive).
      { apply digits2_pos_bounds.
        change (2 ^ (53 - 1)) with 4503599627370496.
        change (2 ^ 53) with 9007199254740992. lia. }
      exists (q + 1)%positive. split; [exact Hdq1 |]. left. split; [exact Hlt |].
      split; [| lia].
      change (new_location 6755399441055744 4503599627370496) with (loc_Inexact Gt).
      apply bra_53; try assumption; try reflexivity; lia.
  - (* quotient of 54 digits *)
    assert (Hdq : digits2_pos q = (53 + 1)%positive).
    { apply digits2_pos_bounds.
      change (2 ^ (Zpos (53 + 1) - 1)) with 9007199254740992.
      change (2 ^ Zpos (53 + 1)) with 18014398509481984. lia. }
    replace (e - 3) with (e - 4 + 1) by lia.
    destruct q as [p | p |]; [| | discriminate].
    + (* odd quotient: the remainder is a third *)
      assert (Hdp : digits2_pos p = 53%positive).
      { apply digits2_pos_bounds.
        change (2 ^ (53 - 1)) with 4503599627370496.
        change (2 ^ 53) with 9007199254740992. lia. }
      assert (Hdp1 : digits2_pos (p + 1) = 53%positive).
      { apply digits2_pos_bounds.
        pose proof (proj1 (digits2_pos_bounds p 53) Hdp) as Hp.
        change (2 ^ (53 - 1)) with 4503599627370496 in *.
        change (2 ^ 53) with 9007199254740992 in *. lia. }
      destruct Hcases as [-> | [-> | ->]]; try lia.
      exists (p + 1)%positive. split; [exact Hdp1 |]. right. split; [exact Hge |].
      split; [| lia].
      change (new_location 6755399441055744 2251799813685248) with (loc_Inexact Lt).
      eapply bra_long; try eassumption; try reflexivity; lia.
    + (* even quotient *)
      assert (Hdp : digits2_pos p = 53%positive).
      { apply digits2_pos_bounds.
        change (2 ^ (53 - 1)) with 4503599627370496.
        change (2 ^ 53) with 9007199254740992. lia. }
      destruct Hcases as [-> | [-> | ->]]; try lia.
      * exists p. split; [exact Hdp |]. right. split; [exact Hge |]. split; [| lia].
        change (new_location 6755399441055744 0) with loc_Exact.
        eapply bra_long; try eassumption; try reflexivity; lia.
      * exists p. split; [exact Hdp |]. right. split; [exact Hge |]. split; [| lia].
        change (new_location 6755399441055744 4503599627370496) with (loc_Inexact Gt).
        eapply bra_long; try eassumption; try reflexivity; lia.
Qed.

Lemma iter_xO_51 (x : positive) :
  Zpos (Pos.iter xO x 51) = Zpos x * 2251799813685248.
Proof. cbn [Pos.iter]. lia. Qed.

(** Rounds the product of [qr] and twelve, whose mantissa is [X] followed
    by 51 zero bits. *)
Ltac product_as X :=
  match goal with
  | |- context [Zpos (?qr * 6755399441055744)] =>
      let HP := fresh "HP" in
      assert (HP : (qr * 6755399441055744)%positive = Pos.iter xO X 51)
        by (apply Pos2Z.inj; rewrite iter_xO_51; lia);
      rewrite HP; clear HP; cbn [Pos.iter]
  end.

Lemma SFmul_twelve_low (s : bool) (m qr : positive) (e : Z) :
  digits2_pos m = 53%positive -> -1070 <= e <= 971 ->
  (3 * Zpos qr = 4 * Zpos m \/ 3 * Zpos qr = 4 * Zpos m - 1
   \/ 3 * Zpos qr = 4 * Zpos m + 1) ->
  SFmul prec emax (S754_finite s qr (e - 4)) twelveSF = S754_finite s m e.
Proof.
  intros Hd He Hq.
  pose proof (proj1 (digits2_pos_bounds m 53) Hd) as Hm.
  change (2 ^ (53 - 1)) with 4503599627370496 in Hm.
  change (2 ^ 53) with 9007199254740992 in Hm.
  unfold SFmul, twelveSF. rewrite xorb_false_r.
  destruct Hq as [Hq | [Hq | Hq]].
  - product_as (m~0~0)%positive.
    replace e with (e - 4 + -49 + 53) at 2 by lia.
    eapply bra_long with (k := 53%positive); try exact Hd; try lia.
    + cbn. rewrite Hd. reflexivity.
    + cbn. reflexivity.
    + cbn. reflexivity.
  - destruct (Z.eq_dec (Zpos m) 4503599627370496) as [Hpow | Hpow].
    + (* m = 2^52: the product rounds up to the next power of two *)
      assert (m = 4503599627370496%positive) by lia. subst m.
      assert (qr = 6004799503160661%positive) by lia. subst qr.
      replace e with (e - 4 + -49 + 52 + 1) at 2 by lia.
      eapply bra_long_carry with (k := 52%positive); try lia; reflexivity.
    + assert (Hdp : digits2_pos (Pos.pred m) = 53%positive).
      { apply digits2_pos_bounds.
        change (2 ^ (53 - 1)) with 4503599627370496.
        change (2 ^ 53) with 9007199254740992. lia. }
      product_as ((Pos.pred m)~1~1)%positive.
      replace e with (e - 4 + -49 + 53) at 2 by lia.
      eapply bra_long with (k := 53%positive); try exact Hd; try lia.
      * cbn. rewrite Hdp. reflexivity.
      * cbn. reflexivity.
      * cbn. lia.
  - product_as (m~0~1)%positive.
    replace e with (e - 4 + -49 + 53) at 2 by lia.
    eapply bra_long with (k := 53%positive); try exact Hd; try lia.
    + cbn. rewrite Hd. reflexivity.
    + cbn. reflexivity.
    + cbn. reflexivity.
Qed.

Lemma SFmul_twelve_high (s : bool) (m qr : positive) (e : Z) :
  digits2_pos m = 53%positive -> Z.even (Zpos m) = true ->
  6755399441055744 <= Zpos m -> -1070 <= e <= 971 ->
  (3 * Zpos qr = 2 * Zpos m \/ 3 * Zpos qr = 2 * Zpos m - 1
   \/ 3 * Zpos qr = 2 * Zpos m + 1) ->
  SFmul prec emax (S754_finite s qr (e - 3)) twelveSF = S754_finite s m e.
Proof.
  intros Hd Hev Hge He Hq.
  pose proof (proj1 (digits2_pos_bounds m 53) Hd) as Hm.
  change (2 ^ (53 - 1)) with 4503599627370496 in Hm.
  change (2 ^ 53) with 9007199254740992 in Hm.
  unfold SFmul, twelveSF. rewrite xorb_false_r.
  replace e with (e - 3 + -49 + 52) at 2 by lia.
  destruct Hq as [Hq | [Hq | Hq]].
  - product_as (m~0)%positive.
    eapply bra_long with (k := 52%positive); try exact Hd; try lia.
    + cbn. rewrite Hd. reflexivity.
    + cbn. reflexivity.
    + cbn. reflexivity.
  - assert (Hdp : digits2_pos (Pos.pred m) = 53%positive).
    { apply digits2_pos_bounds.
      change (2 ^ (53 - 1)) with 4503599627370496.
      change (2 ^ 53) with 9007199254740992. lia. }
    assert (Hodd : Z.even (Zpos (Pos.pred m)) = false).
    { destruct m as [m' | m' |]; try discriminate. destruct m'; reflexivity. }
    product_as ((Pos.pred m)~1)%positive.
    eapply bra_long with (k := 52%positive); try exact Hd; try lia.
    + cbn. rewrite Hdp. reflexivity.
    + cbn. reflexivity.
    + cbn [shr_m loc_of_shr_record round_nearest_even]. rewrite Hodd. lia.
  - product_as (m~1)%positive.
    eapply bra_long with (k := 52%positive); try exact Hd; try lia.
    + cbn. rewrite Hd. reflexivity.
    + cbn. reflexivity.
    + cbn [shr_m loc_of_shr_record round_nearest_even]. rewrite Hev. reflexivity.
Qed.

(** Dividing a double with an even significand by twelve and multiplying
    the quotient by twelve gives the double back, short of underflow. *)
Lemma SF_div12_mul12 (s : bool) (m : positive) (e : Z) :
  digits2_pos m = 53%positive -> Z.even (Zpos m) = true -> -1070 <= e <= 971 ->
  SFmul prec emax (SFdiv prec emax (S754_finite s m e) twelveSF) twelveSF
  = S754_finite s m e.
Proof.
  intros Hd Hev He.
  destruct (SFdiv_twelve s m e Hd He) as (qr & Hdq & [(Hlt & -> & Hq) | (Hge & -> & Hq)]).
  - apply SFmul_twelve_low; assumption.
  - apply SFmul_twelve_high; assumption.
Qed.

Lemma float_div12_mul12 (x : float) (s : bool) (m : positive) (e : Z) :
  Prim2SF x = S754_finite s m e -> Z.even (Zpos m) = true -> -1070 <= e ->
  (x / 12 * 12)%float = x.
Proof.
  intros Hx Hev He.
  pose proof (Prim2SF_valid x) as Hv. rewrite Hx in Hv.
  unfold valid_binary, bounded, canonical_mantissa, fexp, emin, prec, emax in Hv.
  apply andb_prop in Hv. destruct Hv as [Hc Hb].
  apply Z.eqb_eq in Hc. apply Z.leb_le in Hb.
  assert (Hd : digits2_pos m = 53%positive) by lia.
  apply Prim2SF_inj.
  rewrite mul_spec, div_spec, Prim2SF_twelve, Hx.
  apply SF_div12_mul12; try assumption. lia.
Qed.

Lemma digits2_pos_iter_xO (p k : positive) :
  digits2_pos (Pos.iter xO p k) = (digits2_pos p + k)%positive.
Proof.
  induction k using Pos.peano_ind.
  - cbn. lia.
  - rewrite Pos.iter_succ. cbn [digits2_pos]. rewrite IHk. lia.
Qed.

Lemma iter_xO_even (p k : positive) : Z.even (Zpos (Pos.iter xO p k)) = true.
Proof.
  destruct (Pos.succ_pred_or k) as [-> | <-].
  - reflexivity.
  - rewrite Pos.iter_succ. reflexivity.
Qed.

(** The double of a nonzero integer below 2^52 in magnitude: the integer
    itself, shifted up to 53 digits, hence with an even significand. *)
Lemma binary_round_small (s : bool) (p : positive) :
  Zpos p < 4503599627370496 ->
  exists m e,
    binary_round prec emax s p 0 = S754_finite s m e /\
    valid_binary (S754_finite s m e) = true /\
    Z.even (Zpos m) = true /\ -1070 <= e.
Proof.
  intros Hp.
  assert (Hd : Zpos (digits2_pos p) <= 52).
  { destruct (Z_le_gt_dec (Zpos (digits2_pos p)) 52) as [H | H]; [exact H | exfalso].
    pose proof (proj1 (digits2_pos_bounds p (digits2_pos p)) eq_refl) as [Hlo _].
    assert (2 ^ 52 <= 2 ^ (Zpos (digits2_pos p) - 1)) by (apply Z.pow_le_mono_r; lia).
    change (2 ^ 52) with 4503599627370496 in *. lia. }
  set (k := Z.to_pos (53 - Zpos (digits2_pos p))).
  assert (Hk : Zpos k = 53 - Zpos (digits2_pos p)) by (unfold k; lia).
  exists (Pos.iter xO p k), (Zpos (digits2_pos p) - 53).
  assert (Hdm : digits2_pos (Pos.iter xO p k) = 53%positive)
    by (rewrite digits2_pos_iter_xO; lia).
  split; [| split; [| split]].
  - unfold binary_round, shl_align, fexp, emin, prec, emax.
    replace (Z.max (Zpos (digits2_pos p) + 0 - 53) (3 - 1024 - 53) - 0) with (Zneg k) by lia.
    replace (Z.max (Zpos (digits2_pos p) + 0 - 53) (3 - 1024 - 53))
      with (Zpos (digits2_pos p) - 53) by lia.
    apply bra_53; try assumption; try reflexivity; lia.
  - unfold valid_binary, bounded, canonical_mantissa, fexp, emin, prec, emax.
    rewrite Hdm. apply andb_true_intro. split; [apply Z.eqb_eq | apply Z.leb_le]; lia.
  - apply iter_xO_even.
  - lia.
Qed.

Lemma whole_div12_mul12 (n : Z) :
  - 4503599627370496 < n < 4503599627370496 ->
  (Z2float n / 12 * 12)%float = Z2float n.
Proof.
  intros Hn. unfold Z2float.
  destruct n as [| p | p]; [reflexivity | |]; cbn [binary_normalize].
  - destruct (binary_round_small false p) as (m & e & -> & Hv & Hev & He); [lia |].
    apply (float_div12_mul12 _ false m e); try assumption.
    apply Prim2SF_SF2Prim, Hv.
  - destruct (binary_round_small true p) as (m & e & -> & Hv & Hev & He); [lia |].
    apply (float_div12_mul12 _ true m e); try assumption.
    apply Prim2SF_SF2Prim, Hv.
Qed.

(** C5, amended: at twelve months elapsed the burn rate is [ytdSpend / 12]
    and the projection is that burn rate times 12, both rounded to the
    nearest double; the projection equals the spend exactly for every
    spend whose significand is even and whose exponent is at least -1070,
    in particular for every whole amount below 2^52 in magnitude. *)
Theorem C5_projection_at_twelve_months
    (fleetId fleetName : string) (imrGoal : float) (today : Date) :
  (forall ytdSpend,
      cd_monthlyBurnRate (computeMetrics fleetId fleetName imrGoal ytdSpend today 12)
        = (ytdSpend / 12)%float /\
      cd_projectedEOY (computeMetrics fleetId fleetName imrGoal ytdSpend today 12)
        = (cd_monthlyBurnRate (computeMetrics fleetId fleetName imrGoal ytdSpend today 12)
           * 12)%float) /\
  (forall ytdSpend s m e,
      Prim2SF ytdSpend = S754_finite s m e -> Z.even (Zpos m) = true -> -1070 <= e ->
      cd_projectedEOY (computeMetrics fleetId fleetName imrGoal ytdSpend today 12)
        = ytdSpend) /\
  (forall n,
      - 4503599627370496 < n < 4503599627370496 ->
      cd_projectedEOY (computeMetrics fleetId fleetName imrGoal (Z2float n) today 12)
        = Z2float n).
Proof.
  split; [| split].
  - intros ytdSpend. split; reflexivity.
  - intros ytdSpend s m e Hx Hev He.
    exact (float_div12_mul12 ytdSpend s m e Hx Hev He).
  - intros n Hn. exact (whole_div12_mul12 n Hn).
Qed.

Lemma C5_projection_at_twelve_months_witness :
  cd_projectedEOY (computeMetrics "8304669" "F6" 2360000 (Z2float 150900) jan6 12)
    = 150900%float.
Proof.
  destruct (C5_projection_at_twelve_months "8304669" "F6" 2360000 jan6) as (_ & _ & H).
  rewrite (H 150900); [reflexivity | lia].
Defined.

(** ** Reading back a written timestamp *)

Ltac eval_radixDigit :=
  match goal with
  | |- context [radixDigit 10 ?c] =>
      let v := eval vm_compute in (radixDigit 10 c) in
      change (radixDigit 10 c) with v
  end.

Lemma parseDigits_acc (d : Decimal.uint) (p : positive) :
  parseDigits 10 (Some (Zpos p)) (DecimalString.NilEmpty.string_of_uint d)
  = Some (Zpos (Pos.of_uint_acc d p)).
Proof.
  revert p. induction d; intros p; cbn -[Z.mul Z.add Pos.mul Pos.add];
    try reflexivity; eval_radixDigit; cbv iota; rewrite <- IHd; do 2 f_equal; lia.
Qed.

Lemma parseDigits_zero (d : Decimal.uint) :
  parseDigits 10 (Some 0) (DecimalString.NilEmpty.string_of_uint d)
  = Some (Z.of_N (Pos.of_uint d)).
Proof.
  induction d; cbn -[Z.mul Z.add Pos.mul Pos.add Z.of_N];
    try reflexivity; eval_radixDigit; cbv iota;
    try (rewrite <- IHd; reflexivity);
    match goal with
    | |- parseDigits 10 (Some ?a) _ = _ =>
        let v := eval vm_compute in a in change a with v
    end; rewrite parseDigits_acc; reflexivity.
Qed.

Lemma parseDigits_uint (d : Decimal.uint) :
  parseDigits 10 None (DecimalString.NilZero.string_of_uint d) = Some (Z.of_uint d).
Proof.
  unfold Z.of_uint.
  destruct d; try reflexivity;
    unfold DecimalString.NilZero.string_of_uint;
    cbn -[Z.mul Z.add Pos.mul Pos.add Z.of_N];
    eval_radixDigit; cbv iota;
    match goal with
    | |- parseDigits 10 (Some ?a) _ = _ =>
        let v := eval vm_compute in a in change a with v
    end;
    first [ rewrite parseDigits_zero; reflexivity | rewrite parseDigits_acc; reflexivity ].
Qed.


Lemma uint_string_shape (d : Decimal.uint) :
  trimStart (DecimalString.NilZero.string_of_uint d)
    = DecimalString.NilZero.string_of_uint d /\
  spanSign (DecimalString.NilZero.string_of_uint d)
    = (false, DecimalString.NilZero.string_of_uint d) /\
  startsWith "0x" (DecimalString.NilZero.string_of_uint d)
    || startsWith "0X" (DecimalString.NilZero.string_of_uint d) = false.
Proof.
  repeat split; destruct d; try reflexivity; destruct d; reflexivity.
Qed.

(** A timestamp written with [toString] is read back by [parseInt]. *)
Lemma parseInt_toString (z : Z) : parseInt (Z_toString z) = Some z.
Proof.
  unfold Z_toString.
  rewrite <- (DecimalZ.of_to z) at 2.
  destruct (uint_string_shape
              match Z.to_int z with Decimal.Pos d | Decimal.Neg d => d end)
    as (Ht & Hs & Hx).
  destruct (Z.to_int z) as [d | d]; cbn [DecimalString.NilZero.string_of_int Z.of_int];
    unfold parseInt.
  - rewrite Ht, Hs, Hx, parseDigits_uint. reflexivity.
  - change (trimStart (String "-" (DecimalString.NilZero.string_of_uint d)))
      with (String "-" (DecimalString.NilZero.string_of_uint d)).
    cbn [spanSign]. rewrite Hx, parseDigits_uint. reflexivity.
Qed.

(** The validity test on an integer timestamp is the comparison of the
    age in milliseconds with twelve hours. *)
Lemma withinValidity_spec (now t : Z) :
  withinValidity now (Some t) = true <-> now - t < 12 * 60 * 60 * 1000.
Proof.
  unfold withinValidity, SESSION_VALIDITY_HOURS.
  rewrite negb_true_iff, <- not_true_iff_false, Qle_bool_iff.
  unfold Qle, Qdiv, Qmult, Qinv, inject_Z; simpl.
  lia.
Qed.

(** ** Reasoning about computations *)

Definition isLoginCheck (ev : Event) : bool :=
  match ev with EvLoginCheck _ => true | _ => false end.

(** Number of external login checks issued so far. *)
Definition loginChecks (w : World) : nat :=
  List.length (filter isLoginCheck (w_trace w)).

(** A computation that issues no login check. *)
Definition quiet {A} (m : M A) : Prop :=
  forall w r w', m w = (r, w') -> loginChecks w' = loginChecks w.

(** A computation that always returns normally. *)
Definition total {A} (m : M A) : Prop :=
  forall w, exists a w', m w = (Ok a, w').

(** A computation that always throws. *)
Definition failing {A} (m : M A) : Prop :=
  forall w, exists e w', m w = (Throw e, w').

Create HintDb quiet.
Create HintDb total.

Section MonadLemmas.
Context {A B : Type}.

Lemma quiet_ret (a : A) : quiet (ret a).
Proof. intros w r w' [= <- <-]. reflexivity. Qed.

Lemma quiet_throw (e : Error) : quiet (@throw A e).
Proof. intros w r w' [= <- <-]. reflexivity. Qed.

Lemma quiet_bind (m : M A) (k : A -> M B) :
  quiet m -> (forall a, quiet (k a)) -> quiet (bind m k).
Proof.
  intros Hm Hk w r w' H. unfold bind in H.
  destruct (m w) as [[a | e] w1] eqn:E.
  - rewrite (Hk a _ _ _ H). eapply Hm; eauto.
  - injection H as <- <-. eapply Hm; eauto.
Qed.

Lemma quiet_tryCatch (m : M A) (h : Error -> M A) :
  quiet m -> (forall e, quiet (h e)) -> quiet (tryCatch m h).
Proof.
  intros Hm Hh w r w' H. unfold tryCatch in H.
  destruct (m w) as [[a | e] w1] eqn:E.
  - injection H as <- <-. eapply Hm; eauto.
  - rewrite (Hh e _ _ _ H). eapply Hm; eauto.
Qed.

Lemma total_ret (a : A) : total (ret a).
Proof. intros w. eexists; eexists; reflexivity. Qed.

Lemma total_bind (m : M A) (k : A -> M B) :
  total m -> (forall a, total (k a)) -> total (bind m k).
Proof.
  intros Hm Hk w. destruct (Hm w) as (a & w1 & E).
  destruct (Hk a w1) as (b & w2 & E2).
  exists b, w2. unfold bind. rewrite E. exact E2.
Qed.

(** A handler that always returns makes the whole [try] return. *)
Lemma total_tryCatch (m : M A) (h : Error -> M A) :
  (forall e, total (h e)) -> total (tryCatch m h).
Proof.
  intros Hh w. unfold tryCatch.
  destruct (m w) as [[a | e] w1].
  - eexists; eexists; reflexivity.
  - apply Hh.
Qed.

Lemma failing_throw (e : Error) : failing (@throw A e).
Proof. intros w. eexists; eexists; reflexivity. Qed.

Lemma failing_bind_l (m : M A) (k : A -> M B) : failing m -> failing (bind m k).
Proof.
  intros Hm w. destruct (Hm w) as (e & w1 & E).
  exists e, w1. unfold bind. rewrite E. reflexivity.
Qed.

Lemma failing_bind_r (m : M A) (k : A -> M B) :
  (forall a, failing (k a)) -> failing (bind m k).
Proof.
  intros Hk w. unfold bind.
  destruct (m w) as [[a | e] w1].
  - apply Hk.
  - eexists; eexists; reflexivity.
Qed.

Lemma failing_tryCatch (m : M A) (h : Error -> M A) :
  failing m -> (forall e, failing (h e)) -> failing (tryCatch m h).
Proof.
  intros Hm Hh w. unfold tryCatch.
  destruct (Hm w) as (e & w1 & E). rewrite E. apply Hh.
Qed.

Lemma failing_finally (m : M A) (f : M unit) : failing m -> failing (finally m f).
Proof.
  intros Hm w. unfold finally.
  destruct (Hm w) as (e & w1 & E). rewrite E.
  destruct (f w1) as [[u | e'] w2]; eexists; eexists; reflexivity.
Qed.
End MonadLemmas.

Lemma quiet_get : quiet get.
Proof. intros w r w' [= <- <-]. reflexivity. Qed.

Lemma quiet_tick : quiet tick.
Proof. intros w r w' [= <- <-]. reflexivity. Qed.

Lemma quiet_modify (f : World -> World) :
  (forall w, w_trace (f w) = w_trace w) -> quiet (modify f).
Proof. intros Hf w r w' [= <- <-]. unfold loginChecks. rewrite Hf. reflexivity. Qed.

Lemma quiet_emit (ev : Event) : isLoginCheck ev = false -> quiet (emit ev).
Proof.
  intros Hev w r w' [= <- <-]. unfold loginChecks. simpl. rewrite Hev. reflexivity.
Qed.

Lemma total_get : total get.
Proof. intros w. eexists; eexists; reflexivity. Qed.

Lemma total_tick : total tick.
Proof. intros w. eexists; eexists; reflexivity. Qed.

Lemma total_modify (f : World -> World) : total (modify f).
Proof. intros w. eexists; eexists; reflexivity. Qed.

Lemma total_emit (ev : Event) : total (emit ev).
Proof. apply total_modify. Qed.

#[export] Hint Resolve quiet_ret quiet_throw quiet_get quiet_tick : quiet.
#[export] Hint Resolve total_ret total_get total_tick total_modify total_emit : total.

(** One syntax-directed step of a [quiet] or [total] derivation. *)
Ltac monad_step :=
  match goal with
  | |- quiet (bind _ _) => apply quiet_bind; [| intros ?]
  | |- quiet (tryCatch _ _) => apply quiet_tryCatch; [| intros ?]
  | |- quiet (modify _) => apply quiet_modify; intros ?; reflexivity
  | |- quiet (emit _) => apply quiet_emit; reflexivity
  | |- total (bind _ _) => apply total_bind; [| intros ?]
  | |- total (tryCatch _ _) => apply total_tryCatch; intros ?
  | |- quiet (if ?b then _ else _) => destruct b
  | |- total (if ?b then _ else _) => destruct b
  | |- quiet (match ?x with _ => _ end) => destruct x
  | |- total (match ?x with _ => _ end) => destruct x
  | |- quiet _ => solve [auto with quiet]
  | |- total _ => solve [auto with total]
  end.

Ltac monad_auto := repeat monad_step.

Section EnvLemmas.
Variable env : Env.

Lemma quiet_newDate : quiet (newDate env).
Proof. unfold newDate. monad_auto. Qed.
Lemma quiet_dateNow : quiet (dateNow env).
Proof. unfold dateNow. pose proof quiet_newDate. monad_auto. Qed.
Lemma quiet_sleep ms : quiet (sleep ms).
Proof. unfold sleep. monad_auto. Qed.
Lemma quiet_consoleWarn msg : quiet (consoleWarn msg).
Proof. unfold consoleWarn. monad_auto. Qed.
Lemma quiet_pageGoto url : quiet (pageGoto env url).
Proof. unfold pageGoto. monad_auto. Qed.
Lemma quiet_pageQueryAll sel : quiet (pageQueryAll env sel).
Proof. unfold pageQueryAll. monad_auto. Qed.
Lemma quiet_pageQuery sel : quiet (pageQuery env sel).
Proof. unfold pageQuery. pose proof quiet_pageQueryAll. monad_auto. Qed.

#[local] Hint Resolve quiet_newDate quiet_dateNow quiet_sleep quiet_consoleWarn
  quiet_pageGoto quiet_pageQueryAll quiet_pageQuery : quiet.

Lemma quiet_anyCerberusElement sels : quiet (anyCerberusElement env sels).
Proof. induction sels as [| s r IH]; simpl; monad_auto. Qed.

Lemma quiet_anyLoginElement sels : quiet (anyLoginElement env sels).
Proof. induction sels as [| s r IH]; simpl; monad_auto. Qed.

Lemma quiet_promptManualLogin url : quiet (promptManualLogin url).
Proof. unfold promptManualLogin. monad_auto. Qed.

Lemma quiet_readStampFile : quiet readStampFile.
Proof. unfold readStampFile. monad_auto. Qed.

Lemma quiet_saveStamp : quiet (saveStamp env).
Proof. unfold saveStamp. monad_auto. Qed.

#[local] Hint Resolve quiet_anyCerberusElement quiet_anyLoginElement
  quiet_promptManualLogin quiet_readStampFile quiet_saveStamp : quiet.

Lemma quiet_cachedSessionValid : quiet (cachedSessionValid env).
Proof. unfold cachedSessionValid. monad_auto. Qed.

(** [isLoggedIn] is the external login check: it is counted once, and it
    never throws. *)
Lemma isLoggedIn_counts_once url w r w' :
  isLoggedIn env url w = (r, w') -> loginChecks w' = S (loginChecks w).
Proof.
  unfold isLoggedIn. intros H.
  unfold bind at 1 in H. cbn [emit modify] in H.
  match type of H with
  | ?m _ = _ => assert (Hq : quiet m) by monad_auto
  end.
  apply Hq in H. rewrite H. reflexivity.
Qed.

Lemma total_isLoggedIn url : total (isLoggedIn env url).
Proof. unfold isLoggedIn. monad_auto. Qed.

Lemma total_cachedSessionValid : total (cachedSessionValid env).
Proof. unfold cachedSessionValid. monad_auto. Qed.

Lemma total_promptManualLogin url : total (promptManualLogin url).
Proof. unfold promptManualLogin. monad_auto. Qed.

Lemma total_consoleWarn msg : total (consoleWarn msg).
Proof. unfold consoleWarn. monad_auto. Qed.

#[local] Hint Resolve total_isLoggedIn total_cachedSessionValid
  total_promptManualLogin total_consoleWarn : total.

(** [ensureAuthenticated] never throws: every failure inside it is
    caught. *)
Lemma total_ensureAuthenticated url : total (ensureAuthenticated env url).
Proof. unfold ensureAuthenticated. monad_auto. Qed.

Lemma ensureAuthenticated_at_most_one_check url w r w' :
  ensureAuthenticated env url w = (r, w') ->
  (loginChecks w' <= S (loginChecks w))%nat.
Proof.
  unfold ensureAuthenticated, bind at 1. intros H.
  destruct (cachedSessionValid env w) as [[cached | e] w1] eqn:Ec.
  - apply quiet_cachedSessionValid in Ec.
    destruct cached.
    + injection H as <- <-. lia.
    + unfold bind at 1 in H.
      destruct (isLoggedIn env url w1) as [[loggedIn | e] w2] eqn:El.
      * apply isLoggedIn_counts_once in El.
        match type of H with
        | ?m _ = _ => assert (Hq : quiet m) by (destruct loggedIn; monad_auto)
        end.
        apply Hq in H. lia.
      * apply isLoggedIn_counts_once in El. injection H as <- <-. lia.
  - apply quiet_cachedSessionValid in Ec. injection H as <- <-. lia.
Qed.

(** A recent timestamp makes [ensureAuthenticated] return at once: one
    clock reading, nothing else. *)
Lemma ensureAuthenticated_short_circuit url w t :
  w_stampFile w = Some (Z_toString t) ->
  getTime (env_clock env (w_step w)) - t < 12 * 60 * 60 * 1000 ->
  ensureAuthenticated env url w = (Ok tt, withStep (S (w_step w)) w).
Proof.
  intros Hf Hw.
  apply withinValidity_spec in Hw.
  unfold ensureAuthenticated, cachedSessionValid, tryCatch, bind, readStampFile,
    dateNow, newDate, bind, get, tick, ret.
  rewrite Hf, parseInt_toString. cbn [w_step]. rewrite Hw. reflexivity.
Qed.
End EnvLemmas.

(** C7: when the second of two calls to [ensureAuthenticated] starts with
    the timestamp file as the first call left it, holding timestamp [t1],
    and its clock reading is within twelve hours of [t1], the first call
    issues at most one login check and the second issues none: it returns
    at once, leaving the page, the file and the record of actions
    untouched. *)
Theorem C7_second_call_short_circuits
    (env : Env) (url1 url2 : string) (w0 w1 w2 : World) (r1 : Outcome unit) (t1 : Z) :
  ensureAuthenticated env url1 w0 = (r1, w1) ->
  w_stampFile w1 = Some (Z_toString t1) ->
  w_stampFile w2 = w_stampFile w1 ->
  getTime (env_clock env (w_step w2)) - t1 < 12 * 60 * 60 * 1000 ->
  (loginChecks w1 <= S (loginChecks w0))%nat /\
  exists w3,
    ensureAuthenticated env url2 w2 = (Ok tt, w3) /\
    loginChecks w3 = loginChecks w2 /\
    w_trace w3 = w_trace w2 /\
    w_url w3 = w_url w2 /\
    w_stampFile w3 = w_stampFile w2.
Proof.
  intros H1 Hf1 Hf2 Hwin. split.
  - eapply ensureAuthenticated_at_most_one_check; eauto.
  - exists (withStep (S (w_step w2)) w2). split.
    + apply ensureAuthenticated_short_circuit with (t := t1); congruence.
    + repeat split.
Qed.

Lemma C7_second_call_short_circuits_witness :
  exists w1,
    ensureAuthenticated sampleEnv "https://cerberus.example" freshWorld = (Ok tt, w1) /\
    (loginChecks w1 <= S (loginChecks freshWorld))%nat /\
    exists w3,
      ensureAuthenticated sampleEnv "https://cerberus.example" w1 = (Ok tt, w3) /\
      loginChecks w3 = loginChecks w1 /\
      w_trace w3 = w_trace w1.
Proof.
  eexists. split; [vm_compute; reflexivity |].
  match goal with
  | |- (loginChecks ?w <= _)%nat /\ _ =>
      destruct (C7_second_call_short_circuits sampleEnv
                  "https://cerberus.example" "https://cerberus.example"
                  freshWorld w w (Ok tt) 1799229600000)
        as (Hc & w3 & H3 & Hl & Ht & _)
  end.
  - vm_compute; reflexivity.
  - vm_compute; reflexivity.
  - reflexivity.
  - vm_compute; reflexivity.
  - split; [exact Hc |]. exists w3. repeat split; assumption.
Defined.

(** ** A login check that throws *)

(** The sample dashboard behind a network on which every navigation
    fails. *)
Definition offlineEnv : Env :=
  mkEnv (fun _ => jan6) (fun _ _ => false) (fun _ => true) (fun _ => true)
        (fun _ => true) (fun _ => true) sampleSite.

(** C8, as stated, fails: with the network down the navigation of the login
    check throws, yet [ensureAuthenticated] returns normally, having asked
    for a manual login and written a timestamp. *)
Lemma C8_counterexample :
  (forall w, exists e w',
      pageGoto offlineEnv "https://cerberus.example" w = (Throw e, w')) /\
  exists w',
    ensureAuthenticated offlineEnv "https://cerberus.example" freshWorld = (Ok tt, w') /\
    w_stampFile w' = Some "1799229600000" /\
    w_trace w' = [EvWriteStamp "1799229600000"; EvPrompt "https://cerberus.example";
                  EvGoto "https://cerberus.example";
                  EvLoginCheck "https://cerberus.example"].
Proof.
  split.
  - intros w. eexists; eexists; reflexivity.
  - eexists. split; [vm_compute; reflexivity | split; reflexivity].
Qed.

(** The world in which the login check starts looking for elements: the
    check is recorded, the page loaded and the 2000 ms wait done. *)
Definition afterGoto (url : string) (w : World) : World :=
  withEvent (EvWait 2000)
    (withPage url None
       (withEvent (EvGoto url) (withStep (S (w_step w)) (withEvent (EvLoginCheck url) w)))).

(** The first loop of the login check never throws. *)
Lemma total_anyCerberusElement (env : Env) (selectors : list string) :
  total (anyCerberusElement env selectors).
Proof.
  induction selectors as [| selector rest IH]; intros w; cbn [anyCerberusElement].
  - eexists; eexists; reflexivity.
  - unfold bind at 1, tryCatch, pageQuery, bind at 1, pageQueryAll, bind, tick, get,
      ret, throw.
    cbn [w_step w_url w_view withStep].
    destruct (env_site env (w_step w) (w_url w) (w_view w) selector) as [[| e els] |];
      cbn [hd_error]; [apply IH | eexists; eexists; reflexivity | apply IH].
Qed.

(** What the login check answers, by what its two loops do. *)
Lemma isLoggedIn_after_goto (env : Env) (url : string) (w : World) :
  env_navigate env (w_step w) url = true ->
  forall found wa,
    anyCerberusElement env cerberusIndicators (afterGoto url w) = (Ok found, wa) ->
    (found = true -> isLoggedIn env url w = (Ok true, wa)) /\
    (found = false ->
     forall r wb,
       anyLoginElement env loginIndicators wa = (r, wb) ->
       isLoggedIn env url w = (Ok false, wb)).
Proof.
  intros Hnav found wa Ha.
  assert (Hstart :
            forall (k : bool -> M bool),
              tryCatch
                (pageGoto env url ;; sleep 2000 ;;
                 found <- anyCerberusElement env cerberusIndicators ;; k found)
                (fun _ => ret false) (withEvent (EvLoginCheck url) w)
              = tryCatch (k found) (fun _ => ret false) wa).
  { intros k. unfold tryCatch.
    unfold bind at 1, pageGoto, bind at 1, tick, bind at 1, emit, modify.
    cbn [w_step withEvent withStep]. rewrite Hnav.
    unfold modify, bind at 1, sleep, emit, modify, bind at 1.
    fold (afterGoto url w). rewrite Ha. reflexivity. }
  split; intros ->.
  - unfold isLoggedIn, bind at 1, emit, modify. rewrite Hstart. reflexivity.
  - intros r wb Hl.
    unfold isLoggedIn, bind at 1, emit, modify. rewrite Hstart.
    unfold tryCatch, bind. rewrite Hl. destruct r; reflexivity.
Qed.

(** After a login check, made because no cached timestamp was valid:
    the prompt when the check answered "not logged in", then the attempt to
    save a timestamp, whose failure costs a warning only. *)
Lemma ensureAuthenticated_after_check (env : Env) (url : string) (w w1 w2 : World)
    (loggedIn : bool) :
  cachedSessionValid env w = (Ok false, w1) ->
  isLoggedIn env url w1 = (Ok loggedIn, w2) ->
  let saved := env_fsWrite env (w_step w2) && env_fsWrite env (2 + w_step w2) in
  let stamp := Z_toString (getTime (env_clock env (1 + w_step w2))) in
  exists w3,
    ensureAuthenticated env url w = (Ok tt, w3) /\
    w_trace w3
    = (if saved then EvWriteStamp stamp else EvWarn "Could not save session timestamp")
      :: (if loggedIn then w_trace w2 else EvPrompt url :: w_trace w2) /\
    w_stampFile w3 = (if saved then Some stamp else w_stampFile w2).
Proof.
  intros Hc Hl saved stamp. subst saved stamp.
  unfold ensureAuthenticated, bind at 1. rewrite Hc.
  unfold bind at 1. rewrite Hl.
  destruct loggedIn;
    unfold promptManualLogin, saveStamp, consoleWarn, dateNow, newDate,
      tryCatch, bind, emit, modify, tick, ret, throw;
    cbn -[Z_toString getTime];
    (destruct (env_fsWrite env (w_step w2)) eqn:E1;
     [cbn -[Z_toString getTime];
      destruct (env_fsWrite env (S (S (w_step w2)))) eqn:E2 |]);
    cbn -[Z_toString getTime];
    eexists; (split; [reflexivity |]); split; reflexivity.
Qed.

(** C8, amended: no error thrown inside the login check reaches the
    caller: [isLoggedIn] always answers, and [ensureAuthenticated] always
    returns normally.  An error of the check's navigation, or of one of its
    login-form queries, makes [isLoggedIn] answer "not logged in"; an error
    of one of its dashboard-element queries only skips that selector, and
    the check goes on with the next.  After a check that answered "not
    logged in" the manual login is prompted, after one that answered
    "logged in" it is not; either way a timestamp of the time of writing is
    saved if the file system accepts it, a warning being logged if not. *)
Theorem C8_login_check_error_is_absorbed (env : Env) (url : string) (w : World) :
  (exists w', ensureAuthenticated env url w = (Ok tt, w')) /\
  (forall w1, exists loggedIn w2, isLoggedIn env url w1 = (Ok loggedIn, w2)) /\
  (forall w1,
      env_navigate env (w_step w1) url = false ->
      isLoggedIn env url w1
        = (Ok false, withEvent (EvGoto url) (withStep (S (w_step w1))
                                   (withEvent (EvLoginCheck url) w1)))) /\
  (forall w1 wa e wb,
      env_navigate env (w_step w1) url = true ->
      anyCerberusElement env cerberusIndicators (afterGoto url w1) = (Ok false, wa) ->
      anyLoginElement env loginIndicators wa = (Throw e, wb) ->
      isLoggedIn env url w1 = (Ok false, wb)) /\
  (forall selector rest w1,
      env_site env (w_step w1) (w_url w1) (w_view w1) selector = None ->
      (exists e w2, pageQuery env selector w1 = (Throw e, w2)) /\
      anyCerberusElement env (selector :: rest) w1
      = anyCerberusElement env rest (withStep (S (w_step w1)) w1)) /\
  (forall w1 loggedIn w2,
      cachedSessionValid env w = (Ok false, w1) ->
      isLoggedIn env url w1 = (Ok loggedIn, w2) ->
      let saved := env_fsWrite env (w_step w2) && env_fsWrite env (2 + w_step w2) in
      let stamp := Z_toString (getTime (env_clock env (1 + w_step w2))) in
      exists w3,
        ensureAuthenticated env url w = (Ok tt, w3) /\
        w_trace w3
        = (if saved then EvWriteStamp stamp
           else EvWarn "Could not save session timestamp")
          :: (if loggedIn then w_trace w2 else EvPrompt url :: w_trace w2) /\
        w_stampFile w3 = (if saved then Some stamp else w_stampFile w2)).
Proof.
  split; [| split; [| split; [| split; [| split]]]].
  - destruct (total_ensureAuthenticated env url w) as ([] & w' & H). eauto.
  - intros w1. exact (total_isLoggedIn env url w1).
  - intros w1 Hnav.
    unfold isLoggedIn, bind, tryCatch, emit, modify, pageGoto, bind, tick, emit, modify.
    cbn [w_step withEvent]. rewrite Hnav. reflexivity.
  - intros w1 wa e wb Hnav Ha Hl.
    exact (proj2 (isLoggedIn_after_goto env url w1 Hnav false wa Ha) eq_refl _ _ Hl).
  - intros selector rest w1 Hq. split.
    + unfold pageQuery, bind at 1, pageQueryAll, bind, tick, get, throw.
      cbn [w_step w_url w_view withStep]. rewrite Hq. eauto.
    + cbn [anyCerberusElement].
      unfold bind at 1, tryCatch, pageQuery, bind at 1, pageQueryAll, bind, tick, get,
        ret, throw.
      cbn [w_step w_url w_view withStep]. rewrite Hq. reflexivity.
  - intros w1 loggedIn w2 Hc Hl.
    exact (ensureAuthenticated_after_check env url w w1 w2 loggedIn Hc Hl).
Qed.

(** A dashboard on which every query throws but the last one of the login
    check's first loop. *)
Definition flakyEnv : Env :=
  mkEnv (fun _ => jan6) (fun _ _ => true) (fun _ => true) (fun _ => true)
        (fun _ => true) (fun _ => true)
        (fun _ _ _ selector =>
           if String.eqb selector "strong" then Some ["(F6) Planning Automation"]
           else None).

(** Three dashboard-element queries throw, the fourth finds the fleet
    name: the check answers "logged in", no login is prompted and the
    timestamp is written. *)
Example login_check_skips_failing_queries :
  exists w2 w3,
    isLoggedIn flakyEnv "https://cerberus.example" freshWorld = (Ok true, w2) /\
    ensureAuthenticated flakyEnv "https://cerberus.example" freshWorld = (Ok tt, w3) /\
    w_stampFile w3 = Some "1799229600000" /\
    w_trace w3 = [EvWriteStamp "1799229600000"; EvWait 2000;
                  EvGoto "https://cerberus.example";
                  EvLoginCheck "https://cerberus.example"].
Proof. do 2 eexists. repeat split; vm_compute; reflexivity. Qed.

(** A dashboard whose login-form queries throw: the dashboard selectors
    find nothing, every other query fails. *)
Definition formQueryDownEnv : Env :=
  mkEnv (fun _ => jan6) (fun _ _ => true) (fun _ => true) (fun _ => true)
        (fun _ => true) (fun _ => true)
        (fun _ _ _ selector =>
           if existsb (String.eqb selector) cerberusIndicators then Some [] else None).

(** The first login-form query throws after a first loop that found
    nothing: the check answers "not logged in". *)
Lemma C8_login_check_error_is_absorbed_witness :
  exists e wa wb,
    anyCerberusElement formQueryDownEnv cerberusIndicators
      (afterGoto "https://cerberus.example" freshWorld) = (Ok false, wa) /\
    anyLoginElement formQueryDownEnv loginIndicators wa = (Throw e, wb) /\
    isLoggedIn formQueryDownEnv "https://cerberus.example" freshWorld = (Ok false, wb).
Proof.
  pose proof (C8_login_check_error_is_absorbed formQueryDownEnv
                "https://cerberus.example" freshWorld) as (_ & _ & _ & H & _).
  set (wa := snd (anyCerberusElement formQueryDownEnv cerberusIndicators
                    (afterGoto "https://cerberus.example" freshWorld))).
  set (wb := snd (anyLoginElement formQueryDownEnv loginIndicators wa)).
  exists "Query failed", wa, wb.
  split; [vm_compute; reflexivity |].
  split; [vm_compute; reflexivity |].
  apply (H freshWorld wa "Query failed" wb); vm_compute; reflexivity.
Defined.

(** ** Zero budget and zero spend *)

(** A budget text that parses to zero makes [extractIMRGoal] throw. *)
Lemma extractIMRGoal_zero_throws (env : Env) (w : World) :
  (forall els,
      env_site env (w_step w) (w_url w) (w_view w) ".awsui-key-children" = Some els ->
      strictEq (parseCurrencyAmount (textAt imrGoalIndex els)) 0 = true) ->
  exists e w', extractIMRGoal env w = (Throw e, w').
Proof.
  intros H.
  unfold extractIMRGoal, tryCatch, bind, pageQueryAll, bind, tick, get, ret, throw.
  cbn [w_step w_url w_view withStep].
  destruct (env_site env (w_step w) (w_url w) (w_view w) ".awsui-key-children")
    as [els |] eqn:E; [| eauto].
  specialize (H els eq_refl).
  destruct (List.length els <? 2)%nat; [eauto |].
  destruct (String.eqb (textAt imrGoalIndex els) ""); [eauto |].
  rewrite H. eauto.
Qed.

(** A dashboard whose budget text parses to zero whenever it is shown. *)
Definition zeroBudget (env : Env) : Prop :=
  forall k url view els,
    env_site env k url view ".awsui-key-children" = Some els ->
    strictEq (parseCurrencyAmount (textAt imrGoalIndex els)) 0 = true.

Lemma failing_extractIMRGoal (env : Env) : zeroBudget env -> failing (extractIMRGoal env).
Proof. intros Hz w. apply extractIMRGoal_zero_throws. intros els. apply Hz. Qed.

(** The throw of [extractIMRGoal] fails the whole extraction of the
    fleet. *)
Lemma failing_scrapeCerebusComplete (env : Env) (fleetId cerberusBaseUrl : string) :
  zeroBudget env -> failing (scrapeCerebusComplete env fleetId cerberusBaseUrl).
Proof.
  intros Hz. unfold scrapeCerebusComplete.
  do 2 (apply failing_bind_r; intros ?).
  apply failing_finally, failing_tryCatch; [| intros e; apply failing_throw].
  do 5 (apply failing_bind_r; intros ?).
  apply failing_bind_l, failing_extractIMRGoal, Hz.
Qed.

(** The warning of [extractYTDSpend] on a zero spend. *)
Definition zeroSpendWarning (ytdSpendText : string) : Event :=
  EvWarn ("YTD Spend is $0 (raw: " ++ dq ++ ytdSpendText ++ dq
          ++ ") - verify this is correct").

Lemma extractYTDSpend_zero_warns (env : Env) (w : World) (els : list string) :
  env_site env (w_step w) (w_url w) (w_view w) ".mus-cell-right-aligned" = Some els ->
  (2 <= List.length els)%nat ->
  textAt ytdSpendIndex els <> "" ->
  strictEq (parseCurrencyAmount (textAt ytdSpendIndex els)) 0 = true ->
  extractYTDSpend env w
  = (Ok (parseCurrencyAmount (textAt ytdSpendIndex els)),
     withEvent (zeroSpendWarning (textAt ytdSpendIndex els)) (withStep (S (w_step w)) w)).
Proof.
  intros E Hlen Hne Hz.
  unfold extractYTDSpend, tryCatch, bind, pageQueryAll, bind, tick, get, ret, throw.
  cbn [w_step w_url w_view withStep]. rewrite E.
  destruct (Nat.ltb_spec (List.length els) 2); [lia |].
  destruct (String.eqb_spec (textAt ytdSpendIndex els) ""); [contradiction |].
  rewrite Hz. reflexivity.
Qed.

Lemma extractYTDSpend_empty_throws (env : Env) (w : World) (els : list string) :
  env_site env (w_step w) (w_url w) (w_view w) ".mus-cell-right-aligned" = Some els ->
  (2 <= List.length els)%nat ->
  textAt ytdSpendIndex els = "" ->
  extractYTDSpend env w
  = (Throw "Failed to extract YTD Spend: YTD Spend text is empty", withStep (S (w_step w)) w).
Proof.
  intros E Hlen He.
  unfold extractYTDSpend, tryCatch, bind, pageQueryAll, bind, tick, get, ret, throw.
  cbn [w_step w_url w_view withStep]. rewrite E.
  destruct (Nat.ltb_spec (List.length els) 2); [lia |].
  rewrite He. reflexivity.
Qed.

(** A dashboard showing nothing but placeholders: "-" for the budget, and
    for the spend the text given. *)
Definition placeholderEnv (spendText : string) : Env :=
  mkEnv (fun _ => jan6) (fun _ _ => true) (fun _ => true) (fun _ => true)
        (fun _ => true) (fun _ => true)
        (fun _ _ _ selector =>
           if String.eqb selector periodSelector then Some ["Full Year"; "Year to Date"]
           else if String.eqb selector ".awsui-key-children" then Some ["-"; "-"]
           else if String.eqb selector ".mus-cell-right-aligned" then Some ["Total"; spendText]
           else Some []).

(** A dashboard that shows plain text only: every element found holds
    ASCII characters and no-break spaces. *)
Definition plainSite (env : Env) : Prop :=
  forall k url view selector elements,
    env_site env k url view selector = Some elements ->
    Forall (fun text => plainText text = true) elements.

(** The same of the elements a selector finds on the page as it is. *)
Definition plainElements (env : Env) (w : World) (selector : string) : Prop :=
  forall elements,
    env_site env (w_step w) (w_url w) (w_view w) selector = Some elements ->
    Forall (fun text => plainText text = true) elements.

(** C10, as stated, fails on the empty spend text: the parser maps it to
    0, but [extractYTDSpend] throws on it instead of returning 0 with a
    warning. *)
Lemma C10_counterexample :
  strictEq (parseCurrencyAmount (textAt ytdSpendIndex ["Total"; ""])) 0 = true /\
  extractYTDSpend (placeholderEnv "") freshWorld
  = (Throw "Failed to extract YTD Spend: YTD Spend text is empty",
     withStep 1 freshWorld).
Proof. split; vm_compute; reflexivity. Qed.

(** C10, amended: on a dashboard that shows plain text, a budget text
    that parses to zero (the empty text included) makes [extractIMRGoal]
    throw, which fails the extraction of the fleet; a spend text that is
    not empty once trimmed and parses to zero makes [extractYTDSpend]
    return that zero, the only action being a warning; a spend text that is
    empty once trimmed makes it throw. *)
Theorem C10_zero_is_fatal_for_budget_only (env : Env) (w : World) :
  plainSite env ->
  (forall budgetElements,
      env_site env (w_step w) (w_url w) (w_view w) ".awsui-key-children"
        = Some budgetElements ->
      strictEq (parseCurrencyAmount (textAt imrGoalIndex budgetElements)) 0 = true ->
      exists e w', extractIMRGoal env w = (Throw e, w')) /\
  (zeroBudget env ->
   forall fleetId cerberusBaseUrl w0,
   exists e w', scrapeCerebusComplete env fleetId cerberusBaseUrl w0 = (Throw e, w')) /\
  (forall spendElements,
      env_site env (w_step w) (w_url w) (w_view w) ".mus-cell-right-aligned"
        = Some spendElements ->
      (2 <= List.length spendElements)%nat ->
      strictEq (parseCurrencyAmount (textAt ytdSpendIndex spendElements)) 0 = true ->
      (textAt ytdSpendIndex spendElements <> "" ->
       extractYTDSpend env w
       = (Ok (parseCurrencyAmount (textAt ytdSpendIndex spendElements)),
          withEvent (zeroSpendWarning (textAt ytdSpendIndex spendElements))
                    (withStep (S (w_step w)) w))) /\
      (textAt ytdSpendIndex spendElements = "" ->
       exists e w', extractYTDSpend env w = (Throw e, w'))).
Proof.
  intros _. split; [| split].
  - intros els E Hz. apply extractIMRGoal_zero_throws.
    intros els' E'. congruence.
  - intros Hz fleetId base w0. apply failing_scrapeCerebusComplete, Hz.
  - intros els E Hlen Hz. split.
    + intros Hne. apply extractYTDSpend_zero_warns; assumption.
    + intros He. rewrite (extractYTDSpend_empty_throws env w els E Hlen He). eauto.
Qed.

Lemma plainSite_placeholderEnv (spendText : string) :
  plainText spendText = true -> plainSite (placeholderEnv spendText).
Proof.
  intros Hs k url view selector elements E.
  unfold placeholderEnv in E. cbn [env_site] in E.
  destruct (String.eqb selector periodSelector);
    [injection E as <-; repeat constructor |].
  destruct (String.eqb selector ".awsui-key-children");
    [injection E as <-; repeat constructor |].
  destruct (String.eqb selector ".mus-cell-right-aligned");
    injection E as <-; repeat constructor. exact Hs.
Qed.

(** On the placeholder dashboard: "-" as budget fails the fleet; "-" as
    spend, here followed by a no-break space, gives 0 and a warning, and a
    no-break space alone as spend makes the extraction throw. *)
Lemma C10_zero_is_fatal_for_budget_only_witness :
  (exists e w',
      scrapeCerebusComplete (placeholderEnv "-") "8304669" "https://cerberus.example"
                            freshWorld = (Throw e, w')) /\
  extractYTDSpend (placeholderEnv ("-" ++ nbsp)) freshWorld
  = (Ok 0%float, withEvent (zeroSpendWarning "-") (withStep 1 freshWorld)) /\
  exists e w', extractYTDSpend (placeholderEnv nbsp) freshWorld = (Throw e, w').
Proof.
  split; [| split].
  - apply (C10_zero_is_fatal_for_budget_only (placeholderEnv "-") freshWorld
             (plainSite_placeholderEnv "-" eq_refl)).
    intros k url view els E. vm_compute in E. injection E as <-. reflexivity.
  - apply (proj2 (proj2 (C10_zero_is_fatal_for_budget_only
                           (placeholderEnv ("-" ++ nbsp)) freshWorld
                           (plainSite_placeholderEnv ("-" ++ nbsp) eq_refl)))
                 ["Total"; ("-" ++ nbsp)%string]).
    + reflexivity.
    + cbn. lia.
    + vm_compute. reflexivity.
    + vm_compute. discriminate.
  - apply (proj2 (proj2 (C10_zero_is_fatal_for_budget_only
                           (placeholderEnv nbsp) freshWorld
                           (plainSite_placeholderEnv nbsp eq_refl)))
                 ["Total"; nbsp]).
    + reflexivity.
    + cbn. lia.
    + vm_compute. reflexivity.
    + vm_compute. reflexivity.
Defined.

(** ** The batch run *)

Local Open Scope list_scope.

Lemma total_newDate (env : Env) : total (newDate env).
Proof. unfold newDate. monad_auto. Qed.

Lemma total_dateNow (env : Env) : total (dateNow env).
Proof. unfold dateNow. pose proof (total_newDate env). monad_auto. Qed.

Lemma total_sleep (ms : Z) : total (sleep ms).
Proof. unfold sleep. monad_auto. Qed.

(** One iteration never throws: it yields the fleet's entry, a success
    entry when the extraction returned and a failure entry carrying the
    error when it threw. *)
Lemma testFleet_spec (env : Env) (url fleetId : string) (w : World) :
  exists entry w',
    testFleet env url fleetId w = (Ok entry, w') /\
    entryFleetId entry = fleetId /\
    match scrapeCerebusComplete env fleetId url (withStep (S (w_step w)) w) with
    | (Ok data, _) => success entry = true
    | (Throw e, _) => exists duration, entry = Failure fleetId e duration
    end.
Proof.
  unfold testFleet, bind at 1, dateNow, newDate, bind at 1, tick, ret, tryCatch, bind.
  cbn [w_step].
  destruct (scrapeCerebusComplete env fleetId url (withStep (S (w_step w)) w))
    as [[data | e] w1]; cbn -[getTime];
    eexists; eexists; (split; [reflexivity |]); (split; [reflexivity |]);
    [reflexivity | eexists; reflexivity].
Qed.

(** The loop appends one entry per fleet id, in order, whatever fails. *)
Lemma testFleets_spec (env : Env) (url : string) (fleetIds : list string) :
  forall results w,
  exists entries w',
    testFleets env url fleetIds results w = (Ok (results ++ entries)%list, w') /\
    map entryFleetId entries = fleetIds.
Proof.
  induction fleetIds as [| fleetId rest IH]; intros results w.
  - exists [], w. rewrite app_nil_r. split; reflexivity.
  - destruct (testFleet_spec env url fleetId w) as (entry & w1 & Hf & Hid & _).
    cbn [testFleets]. unfold bind at 1. rewrite Hf.
    assert (Hd : exists w2,
               (match rest with [] => ret tt | _ :: _ => sleep 1000 end) w1 = (Ok tt, w2))
      by (destruct rest; eexists; reflexivity).
    destruct Hd as (w2 & Hd). unfold bind at 1. rewrite Hd.
    destruct (IH (results ++ [entry]) w2) as (entries & w3 & Hr & Hids).
    exists (entry :: entries), w3. split.
    + rewrite Hr, <- app_assoc. reflexivity.
    + cbn [map]. rewrite Hid, Hids. reflexivity.
Qed.

(** A fleet whose extraction throws gets a failure entry, and the loop goes
    on with the remaining fleets. *)
Lemma testFleets_failure_continues (env : Env) (url fleetId : string)
    (rest : list string) (results : list ResultEntry) (w w1 : World) (e : Error) :
  scrapeCerebusComplete env fleetId url (withStep (S (w_step w)) w) = (Throw e, w1) ->
  exists duration w2,
    testFleets env url (fleetId :: rest) results w
    = testFleets env url rest (results ++ [Failure fleetId e duration]) w2.
Proof.
  intros Hs.
  destruct (testFleet_spec env url fleetId w) as (entry & w' & Hf & _ & He).
  rewrite Hs in He. destruct He as (duration & ->).
  cbn [testFleets]. unfold bind at 1. rewrite Hf.
  assert (Hd : exists w2,
             (match rest with [] => ret tt | _ :: _ => sleep 1000 end) w' = (Ok tt, w2))
    by (destruct rest; eexists; reflexivity).
  destruct Hd as (w2 & Hd). unfold bind at 1. rewrite Hd.
  exists duration, w2. reflexivity.
Qed.

Lemma failCount_positive (results : list ResultEntry) :
  (0 <? List.length (filter (fun r => negb (success r)) results))%nat = true
  <-> exists r, In r results /\ success r = false.
Proof.
  rewrite Nat.ltb_lt. split.
  - intros H.
    destruct (filter (fun r => negb (success r)) results) as [| r l] eqn:E;
      [simpl in H; lia |].
    assert (Hin : In r (filter (fun r => negb (success r)) results))
      by (rewrite E; left; reflexivity).
    apply filter_In in Hin. destruct Hin as [Hin Hr].
    exists r. split; [exact Hin | now apply negb_true_iff].
  - intros (r & Hin & Hr).
    assert (Hf : In r (filter (fun r => negb (success r)) results))
      by (apply filter_In; split; [exact Hin | now rewrite Hr]).
    destruct (filter (fun r => negb (success r)) results); [contradiction | simpl; lia].
Qed.

(** The entry the loop stores for a fleet, by how its extraction ended:
    a success entry carrying the extracted figures, or a failure entry
    carrying the error. *)
Definition recorded (fleetId : string) (outcome : Outcome CerebusCompleteData)
    (entry : ResultEntry) : Prop :=
  match outcome with
  | Ok data =>
      exists duration,
        entry = Success fleetId (cd_fleetName data) (cd_imrGoal data) (cd_ytdSpend data)
                        (cd_projectedEOY data) (cd_variance data) (cd_isOverBudget data)
                        duration
  | Throw e => exists duration, entry = Failure fleetId e duration
  end.

(** The world an iteration leaves: one more clock reading after the
    extraction, then the 1000 ms pause unless the fleet was the last. *)
Definition afterFleet (rest : list string) (w1 : World) : World :=
  match rest with
  | [] => withStep (S (w_step w1)) w1
  | _ :: _ => withEvent (EvWait 1000) (withStep (S (w_step w1)) w1)
  end.

(** A chain of extractions, one per fleet id and in their order, each
    started, after one clock reading, in the world the iteration before
    left, with the entry stored for each. *)
Inductive Processed (env : Env) (url : string)
  : list string -> World -> list ResultEntry -> World -> Prop :=
| Processed_nil w : Processed env url [] w [] w
| Processed_cons fleetId rest w outcome w1 entry entries w' :
    scrapeCerebusComplete env fleetId url (withStep (S (w_step w)) w) = (outcome, w1) ->
    recorded fleetId outcome entry ->
    Processed env url rest (afterFleet rest w1) entries w' ->
    Processed env url (fleetId :: rest) w (entry :: entries) w'.

(** One iteration, with the entry it yields and the world it leaves. *)
Lemma testFleet_recorded (env : Env) (url fleetId : string) (w : World) :
  forall outcome w1,
    scrapeCerebusComplete env fleetId url (withStep (S (w_step w)) w) = (outcome, w1) ->
    exists entry,
      testFleet env url fleetId w = (Ok entry, withStep (S (w_step w1)) w1) /\
      recorded fleetId outcome entry.
Proof.
  intros outcome w1 Hs.
  unfold testFleet, bind at 1, dateNow, newDate, bind at 1, tick, ret, tryCatch, bind.
  cbn [w_step]. rewrite Hs.
  destruct outcome as [data | e]; cbn -[getTime];
    eexists; (split; [reflexivity |]); eexists; reflexivity.
Qed.

(** The loop runs the whole chain, whatever fails. *)
Lemma testFleets_processed (env : Env) (url : string) (fleetIds : list string) :
  forall results w,
  exists entries w',
    testFleets env url fleetIds results w = (Ok (results ++ entries)%list, w') /\
    Processed env url fleetIds w entries w'.
Proof.
  induction fleetIds as [| fleetId rest IH]; intros results w.
  - exists [], w. rewrite app_nil_r. split; [reflexivity | constructor].
  - destruct (scrapeCerebusComplete env fleetId url (withStep (S (w_step w)) w))
      as [outcome w1] eqn:Hs.
    destruct (testFleet_recorded env url fleetId w outcome w1 Hs) as (entry & Hf & Hrec).
    cbn [testFleets]. unfold bind at 1. rewrite Hf.
    assert (Hd : (match rest with [] => ret tt | _ :: _ => sleep 1000 end)
                   (withStep (S (w_step w1)) w1) = (Ok tt, afterFleet rest w1))
      by (destruct rest; reflexivity).
    unfold bind at 1. rewrite Hd.
    destruct (IH (results ++ [entry]) (afterFleet rest w1)) as (entries & w3 & Hr & Hp).
    exists (entry :: entries), w3. split.
    + rewrite Hr, <- app_assoc. reflexivity.
    + exact (Processed_cons env url fleetId rest w outcome w1 entry entries w3 Hs Hrec Hp).
Qed.

Lemma recorded_fleetId fleetId outcome entry :
  recorded fleetId outcome entry -> entryFleetId entry = fleetId.
Proof. destruct outcome; intros (d & ->); reflexivity. Qed.

Lemma recorded_success fleetId outcome entry :
  recorded fleetId outcome entry ->
  success entry = match outcome with Ok _ => true | Throw _ => false end.
Proof. destruct outcome; intros (d & ->); reflexivity. Qed.

Lemma Processed_ids env url fleetIds w entries w' :
  Processed env url fleetIds w entries w' -> map entryFleetId entries = fleetIds.
Proof.
  induction 1 as [| fleetId rest w outcome w1 entry entries w' Hs Hrec Hp IH];
    [reflexivity |].
  cbn [map]. rewrite IH, (recorded_fleetId _ _ _ Hrec). reflexivity.
Qed.

(** Entry number [i] is the record of an extraction of fleet number
    [i]. *)
Lemma Processed_nth env url fleetIds w entries w' :
  Processed env url fleetIds w entries w' ->
  forall i fleetId,
    nth_error fleetIds i = Some fleetId ->
    exists wi outcome wi' entry,
      scrapeCerebusComplete env fleetId url wi = (outcome, wi') /\
      nth_error entries i = Some entry /\
      recorded fleetId outcome entry.
Proof.
  induction 1 as [| fleetId rest w outcome w1 entry entries w' Hs Hrec Hp IH];
    intros i id Hi.
  - destruct i; discriminate.
  - destruct i as [| i].
    + injection Hi as <-. exists (withStep (S (w_step w)) w), outcome, w1, entry.
      repeat split; assumption.
    + exact (IH i id Hi).
Qed.

(** C9: the batch run always returns, having run one extraction per
    fleet id, in input order, each started where the iteration before left
    off, whatever the outcome of that one; entry number [i] of the results
    is the record of the extraction of fleet number [i], a success entry
    with the extracted figures when it returned and a failure entry with
    the error when it threw; the exit status is nonzero exactly when some
    entry is a failure, that is, when some extraction threw. *)
Theorem C9_batch_isolates_failures (env : Env) (url : string) (fleetIds : list string)
    (w : World) :
  exists results code w1 w',
    testCerebusScraping env url fleetIds w = (Ok (results, code), w') /\
    Processed env url fleetIds (withStep (S (w_step w)) w) results w1 /\
    map entryFleetId results = fleetIds /\
    List.length results = List.length fleetIds /\
    (forall i fleetId,
        nth_error fleetIds i = Some fleetId ->
        exists wi outcome wi' entry,
          scrapeCerebusComplete env fleetId url wi = (outcome, wi') /\
          nth_error results i = Some entry /\
          recorded fleetId outcome entry) /\
    (code = 0 \/ code = 1) /\
    (code <> 0 <-> exists r, In r results /\ success r = false).
Proof.
  unfold testCerebusScraping.
  unfold bind at 1, dateNow at 1, bind at 1, newDate at 1, bind at 1, tick at 1, ret at 1.
  unfold ret at 1. cbn [w_step].
  destruct (testFleets_processed env url fleetIds [] (withStep (S (w_step w)) w))
    as (entries & w2 & Hr & Hp).
  destruct (total_dateNow env w2) as (t1 & w3 & H1).
  unfold bind at 1. rewrite Hr.
  unfold bind at 1. rewrite H1. cbn [app ret].
  pose proof (Processed_ids _ _ _ _ _ _ Hp) as Hids.
  exists entries, (if (0 <? List.length (filter (fun r => negb (success r)) entries))%nat
                   then 1 else 0), w2, w3.
  split; [reflexivity |].
  split; [exact Hp |].
  split; [exact Hids |].
  split; [rewrite <- Hids; symmetry; apply length_map |].
  split; [exact (Processed_nth _ _ _ _ _ _ Hp) |].
  split.
  - destruct (0 <? List.length (filter (fun r => negb (success r)) entries))%nat; auto.
  - rewrite <- failCount_positive.
    destruct (0 <? List.length (filter (fun r => negb (success r)) entries))%nat;
      split; intros; congruence.
Qed.

(** A dashboard that is down for the second of three fleets: its
    navigation (interactions 21 to 40) fails. *)
Definition secondFleetDownEnv : Env :=
  mkEnv (fun _ => jan6)
        (fun k url => negb (String.eqb url
           "https://cerberus.example/usage?fleetId=2&billingPeriod=2027-01-01&activeTab=usage-imr-goal"))
        (fun _ => true) (fun _ => true) (fun _ => true) (fun _ => true) sampleSite.

Example batch_of_three_with_second_failing :
  exists w',
    testCerebusScraping secondFleetDownEnv "https://cerberus.example" ["1"; "2"; "3"]
                        freshWorld
    = (Ok ([Success "1" "(F6) Planning Automation And Optimization"
                    2360000 150900 150900 2209100 false 0;
            Failure "2" "Navigation failed" 0;
            Success "3" "(F6) Planning Automation And Optimization"
                    2360000 150900 150900 2209100 false 0], 1), w').
Proof. eexists. vm_compute. reflexivity. Qed.


(** * Further properties of the code *)

Import ScraperTools DateLogic MonthlyReport.

(** ** Counting actions *)

(** Number of recorded actions of a kind. *)
Definition countEvents (kind : Event -> bool) (w : World) : nat :=
  List.length (filter kind (w_trace w)).

(** A computation that records no action of the kind. *)
Definition keeps {A} (kind : Event -> bool) (m : M A) : Prop :=
  forall w r w', m w = (r, w') -> countEvents kind w' = countEvents kind w.

Definition isPrompt (ev : Event) : bool :=
  match ev with EvPrompt _ => true | _ => false end.
Definition isLaunch (ev : Event) : bool :=
  match ev with EvLaunch => true | _ => false end.
Definition isNewPage (ev : Event) : bool :=
  match ev with EvNewPage => true | _ => false end.
Definition isPageClose (ev : Event) : bool :=
  match ev with EvPageClose => true | _ => false end.
Definition isClick (ev : Event) : bool :=
  match ev with EvClick _ => true | _ => false end.

Create HintDb keeps.

Section KeepsLemmas.
Context {A B : Type}.
Variable kind : Event -> bool.

Lemma keeps_ret (a : A) : keeps kind (ret a).
Proof. intros w r w' [= <- <-]. reflexivity. Qed.

Lemma keeps_throw (e : Error) : keeps kind (@throw A e).
Proof. intros w r w' [= <- <-]. reflexivity. Qed.

Lemma keeps_bind (m : M A) (k : A -> M B) :
  keeps kind m -> (forall a, keeps kind (k a)) -> keeps kind (bind m k).
Proof.
  intros Hm Hk w r w' H. unfold bind in H.
  destruct (m w) as [[a | e] w1] eqn:E.
  - rewrite (Hk a _ _ _ H). eapply Hm; eauto.
  - injection H as <- <-. eapply Hm; eauto.
Qed.

Lemma keeps_tryCatch (m : M A) (h : Error -> M A) :
  keeps kind m -> (forall e, keeps kind (h e)) -> keeps kind (tryCatch m h).
Proof.
  intros Hm Hh w r w' H. unfold tryCatch in H.
  destruct (m w) as [[a | e] w1] eqn:E.
  - injection H as <- <-. eapply Hm; eauto.
  - rewrite (Hh e _ _ _ H). eapply Hm; eauto.
Qed.
End KeepsLemmas.

Lemma keeps_get kind : keeps kind get.
Proof. intros w r w' [= <- <-]. reflexivity. Qed.

Lemma keeps_tick kind : keeps kind tick.
Proof. intros w r w' [= <- <-]. reflexivity. Qed.

Lemma keeps_modify kind (f : World -> World) :
  (forall w, w_trace (f w) = w_trace w) -> keeps kind (modify f).
Proof. intros Hf w r w' [= <- <-]. unfold countEvents. rewrite Hf. reflexivity. Qed.

Lemma keeps_emit kind (ev : Event) : kind ev = false -> keeps kind (emit ev).
Proof.
  intros Hev w r w' [= <- <-]. unfold countEvents. simpl. rewrite Hev. reflexivity.
Qed.

#[export] Hint Resolve keeps_ret keeps_throw keeps_get keeps_tick : keeps.

(** One syntax-directed step of a [keeps] derivation. *)
Ltac keeps_step :=
  match goal with
  | |- keeps _ (bind _ _) => apply keeps_bind; [| intros ?]
  | |- keeps _ (tryCatch _ _) => apply keeps_tryCatch; [| intros ?]
  | |- keeps _ (modify _) => apply keeps_modify; intros ?; reflexivity
  | |- keeps _ (emit _) => apply keeps_emit; reflexivity
  | |- keeps _ (if ?b then _ else _) => destruct b
  | |- keeps _ (match ?x with _ => _ end) => destruct x
  | |- keeps _ _ => solve [auto with keeps]
  end.

Ltac keeps_auto := repeat keeps_step.

(** The result of a sequence that returned. *)
Lemma bind_Ok {A B} (m : M A) (k : A -> M B) w b w' :
  bind m k w = (Ok b, w') ->
  exists a w1, m w = (Ok a, w1) /\ k a w1 = (Ok b, w').
Proof.
  unfold bind. destruct (m w) as [[a | e] w1]; [eauto | discriminate].
Qed.

Section KeepsEnv.
Variable env : Env.
Variable kind : Event -> bool.

Lemma keeps_newDate : keeps kind (newDate env).
Proof. unfold newDate. keeps_auto. Qed.
Lemma keeps_dateNow : keeps kind (dateNow env).
Proof. unfold dateNow. pose proof keeps_newDate. keeps_auto. Qed.
Lemma keeps_pageQueryAll sel : keeps kind (pageQueryAll env sel).
Proof. unfold pageQueryAll. keeps_auto. Qed.
Lemma keeps_pageQuery sel : keeps kind (pageQuery env sel).
Proof. unfold pageQuery. pose proof keeps_pageQueryAll. keeps_auto. Qed.
Lemma keeps_readStampFile : keeps kind readStampFile.
Proof. unfold readStampFile. keeps_auto. Qed.
Lemma keeps_cachedSessionValid : keeps kind (cachedSessionValid env).
Proof.
  unfold cachedSessionValid. pose proof keeps_readStampFile. pose proof keeps_dateNow.
  keeps_auto.
Qed.
Lemma keeps_anyCerberusElement sels : keeps kind (anyCerberusElement env sels).
Proof. pose proof keeps_pageQuery. induction sels as [| s r IH]; simpl; keeps_auto. Qed.
Lemma keeps_anyLoginElement sels : keeps kind (anyLoginElement env sels).
Proof. pose proof keeps_pageQuery. induction sels as [| s r IH]; simpl; keeps_auto. Qed.
End KeepsEnv.

#[export] Hint Resolve keeps_newDate keeps_dateNow keeps_pageQueryAll keeps_pageQuery
  keeps_readStampFile keeps_cachedSessionValid keeps_anyCerberusElement
  keeps_anyLoginElement : keeps.

Section KeepsMore.
Variable env : Env.
Variable kind : Event -> bool.

Lemma keeps_sleep ms : kind (EvWait ms) = false -> keeps kind (sleep ms).
Proof. intros H. unfold sleep. apply keeps_emit, H. Qed.

Lemma keeps_consoleWarn msg : kind (EvWarn msg) = false -> keeps kind (consoleWarn msg).
Proof. intros H. unfold consoleWarn. apply keeps_emit, H. Qed.

Lemma keeps_pageGoto url : kind (EvGoto url) = false -> keeps kind (pageGoto env url).
Proof. intros H. unfold pageGoto. pose proof (keeps_emit kind _ H). keeps_auto. Qed.

Lemma keeps_saveStamp :
  (forall c, kind (EvWriteStamp c) = false) -> keeps kind (saveStamp env).
Proof.
  intros H. unfold saveStamp.
  repeat first [ apply keeps_emit, H | keeps_step ].
Qed.
End KeepsMore.

(** ** Session store *)

(** When the first [try] block of [ensureAuthenticated] falls through. *)
Lemma cachedSessionValid_stale (env : Env) (w : World) :
  (w_stampFile w = None \/
   exists content,
     w_stampFile w = Some content /\
     (parseInt content = None \/
      exists t, parseInt content = Some t /\
                12 * 60 * 60 * 1000 <= getTime (env_clock env (w_step w)) - t)) ->
  exists w1, cachedSessionValid env w = (Ok false, w1).
Proof.
  unfold cachedSessionValid, tryCatch, bind, readStampFile, dateNow, newDate,
    bind, get, tick, ret, throw.
  intros [Hnone | (content & Hc & [Hnan | (t & Ht & Hage)])].
  - rewrite Hnone. eauto.
  - rewrite Hc, Hnan. cbn. eauto.
  - rewrite Hc, Ht. cbn [w_step].
    destruct (withinValidity (getTime (env_clock env (w_step w))) (Some t)) eqn:E.
    + apply withinValidity_spec in E. lia.
    + eauto.
Qed.

Lemma ensureAuthenticated_after_stale (env : Env) (url : string) (w w1 : World) r w' :
  cachedSessionValid env w = (Ok false, w1) ->
  ensureAuthenticated env url w = (r, w') ->
  exists loggedIn w2,
    isLoggedIn env url w1 = (Ok loggedIn, w2) /\
    loginChecks w' = S (loginChecks w) /\
    countEvents isPrompt w'
    = ((if loggedIn then 0 else 1) + countEvents isPrompt w)%nat.
Proof.
  intros Hc H.
  unfold ensureAuthenticated, bind at 1 in H. rewrite Hc in H.
  destruct (total_isLoggedIn env url w1) as (loggedIn & w2 & Hl).
  unfold bind at 1 in H. rewrite Hl in H.
  exists loggedIn, w2. split; [exact Hl |].
  pose proof (quiet_cachedSessionValid env _ _ _ Hc) as Hq1.
  pose proof (isLoggedIn_counts_once env _ _ _ _ Hl) as Hq2.
  pose proof (keeps_cachedSessionValid env isPrompt _ _ _ Hc) as Hp1.
  assert (Hp2 : countEvents isPrompt w2 = countEvents isPrompt w1).
  { revert Hl. unfold isLoggedIn.
    match goal with
    | |- ?m _ = _ -> _ => assert (Hk : keeps isPrompt m)
    end.
    { repeat first [ apply keeps_pageGoto; reflexivity
                   | apply keeps_sleep; reflexivity | keeps_step ]. }
    apply Hk. }
  split.
  - match type of H with
    | ?m _ = _ =>
        assert (Hq : quiet m)
          by (pose proof (quiet_saveStamp env); pose proof quiet_consoleWarn;
              pose proof quiet_promptManualLogin; destruct loggedIn; monad_auto)
    end.
    apply Hq in H. lia.
  - destruct loggedIn.
    + match type of H with
      | ?m _ = _ => assert (Hk : keeps isPrompt m)
      end.
      { repeat first [ apply keeps_saveStamp; reflexivity
                     | apply keeps_consoleWarn; reflexivity | keeps_step ]. }
      apply Hk in H. lia.
    + unfold bind at 1, promptManualLogin at 1, emit, modify in H.
      match type of H with
      | ?m _ = _ => assert (Hk : keeps isPrompt m)
      end.
      { repeat first [ apply keeps_saveStamp; reflexivity
                     | apply keeps_consoleWarn; reflexivity | keeps_step ]. }
      apply Hk in H. rewrite H. unfold countEvents. cbn. unfold countEvents in Hp1, Hp2. lia.
Qed.

(** X1: A missing, unreadable or expired timestamp makes [ensureAuthenticated]
    issue exactly one login check; a timestamp exactly twelve hours old is
    expired. *)
Theorem stale_timestamp_forces_one_login_check
    (env : Env) (url : string) (w : World) (r : Outcome unit) (w' : World) :
  (w_stampFile w = None \/
   exists content,
     w_stampFile w = Some content /\
     (parseInt content = None \/
      exists t, parseInt content = Some t /\
                12 * 60 * 60 * 1000 <= getTime (env_clock env (w_step w)) - t)) ->
  ensureAuthenticated env url w = (r, w') ->
  loginChecks w' = S (loginChecks w).
Proof.
  intros Hstale H.
  destruct (cachedSessionValid_stale env w Hstale) as (w1 & Hc).
  destruct (ensureAuthenticated_after_stale env url w w1 r w' Hc H)
    as (loggedIn & w2 & _ & Hn & _).
  exact Hn.
Qed.

(** A timestamp file that holds no number. *)
Definition garbledWorld : World :=
  mkWorld 0 None true (Some "not a number") "about:blank" None [].

Lemma stale_timestamp_forces_one_login_check_witness :
  exists w',
    ensureAuthenticated sampleEnv "https://cerberus.example" garbledWorld = (Ok tt, w') /\
    loginChecks w' = 1%nat.
Proof.
  eexists. split; [vm_compute; reflexivity |].
  match goal with
  | |- loginChecks ?w = _ =>
      apply (stale_timestamp_forces_one_login_check sampleEnv
               "https://cerberus.example" garbledWorld (Ok tt) w)
  end.
  - right. exists "not a number". split; [reflexivity | left; reflexivity].
  - vm_compute. reflexivity.
Defined.

(** X2: The operator is asked to log in exactly when a login check was made
    and reported "not logged in": never on a valid cached timestamp, never
    when the dashboard was found. *)
Theorem manual_login_follows_failed_check
    (env : Env) (url : string) (w : World) (r : Outcome unit) (w' : World) :
  ensureAuthenticated env url w = (r, w') ->
  exists cached w1,
    cachedSessionValid env w = (Ok cached, w1) /\
    if cached then
      w' = w1 /\ countEvents isPrompt w' = countEvents isPrompt w
    else
      exists loggedIn w2,
        isLoggedIn env url w1 = (Ok loggedIn, w2) /\
        countEvents isPrompt w'
        = ((if loggedIn then 0 else 1) + countEvents isPrompt w)%nat.
Proof.
  intros H.
  destruct (total_cachedSessionValid env w) as (cached & w1 & Hc).
  exists cached, w1. split; [exact Hc |].
  destruct cached.
  - unfold ensureAuthenticated, bind at 1 in H. rewrite Hc in H.
    injection H as _ <-. split; [reflexivity |].
    exact (keeps_cachedSessionValid env isPrompt _ _ _ Hc).
  - destruct (ensureAuthenticated_after_stale env url w w1 r w' Hc H)
      as (loggedIn & w2 & Hl & _ & Hp).
    exists loggedIn, w2. split; assumption.
Qed.

Lemma manual_login_follows_failed_check_witness :
  exists w', ensureAuthenticated offlineEnv "https://cerberus.example" freshWorld = (Ok tt, w')
             /\ countEvents isPrompt w' = 1%nat.
Proof.
  eexists. split; [vm_compute; reflexivity |].
  match goal with
  | |- countEvents isPrompt ?w = _ =>
      destruct (manual_login_follows_failed_check offlineEnv
                  "https://cerberus.example" freshWorld (Ok tt) w)
        as (cached & w1 & Hc & Hrest)
  end.
  - vm_compute. reflexivity.
  - vm_compute in Hc. injection Hc as <- <-.
    destruct Hrest as (loggedIn & w2 & Hl & Hp).
    vm_compute in Hl. injection Hl as <- <-. exact Hp.
Defined.

(** [anyCerberusElement] answers [true] only on finding an element. *)
Lemma anyCerberusElement_true (env : Env) (sels : list string) :
  forall w w',
    anyCerberusElement env sels w = (Ok true, w') ->
    exists k selector element elements,
      In selector sels /\
      (w_step w <= k)%nat /\
      env_site env k (w_url w) (w_view w) selector = Some (element :: elements).
Proof.
  induction sels as [| s rest IH]; intros w w' H.
  - discriminate.
  - cbn [anyCerberusElement] in H.
    unfold bind at 1, tryCatch, pageQuery, bind at 1, pageQueryAll, bind, tick, get,
      ret, throw in H.
    cbn [w_step w_url w_view withStep] in H.
    destruct (env_site env (w_step w) (w_url w) (w_view w) s) as [[| e els] |] eqn:E;
      cbn [hd_error] in H.
    + apply IH in H. destruct H as (k & sel & e & els & Hin & Hk & Hs).
      exists k, sel, e, els. cbn in Hk, Hs. repeat split; [right; exact Hin | lia | exact Hs].
    + exists (w_step w), s, e, els. repeat split; [left; reflexivity | lia | exact E].
    + apply IH in H. destruct H as (k & sel & e & els & Hin & Hk & Hs).
      exists k, sel, e, els. cbn in Hk, Hs. repeat split; [right; exact Hin | lia | exact Hs].
Qed.

(** X3: [isLoggedIn] reports "logged in" only when the navigation succeeded
    and one of the four dashboard selectors found an element on the page
    just loaded; a login form alone never counts as logged in. *)
Theorem isLoggedIn_true_means_dashboard_element
    (env : Env) (url : string) (w w' : World) :
  isLoggedIn env url w = (Ok true, w') ->
  env_navigate env (w_step w) url = true /\
  exists k selector element elements,
    In selector cerberusIndicators /\
    (w_step w < k)%nat /\
    env_site env k url None selector = Some (element :: elements).
Proof.
  unfold isLoggedIn, bind at 1, emit, modify, tryCatch.
  unfold bind at 1, pageGoto, bind at 1, tick, bind at 1, emit, modify.
  cbn [w_step withEvent withStep].
  destruct (env_navigate env (w_step w) url) eqn:Hnav; [| discriminate].
  intros H. split; [reflexivity |].
  unfold modify, bind at 1, sleep, emit, modify, bind at 1 in H.
  match type of H with
  | context [anyCerberusElement env cerberusIndicators ?w0] =>
      destruct (anyCerberusElement env cerberusIndicators w0) as [[found | e] w1] eqn:Ha
  end; [| discriminate].
  destruct found.
  - apply anyCerberusElement_true in Ha.
    destruct Ha as (k & sel & e & els & Hin & Hk & Hs).
    cbn in Hk, Hs. exists k, sel, e, els. repeat split; [exact Hin | lia | exact Hs].
  - unfold bind in H.
    destruct (anyLoginElement env loginIndicators w1) as [[b | e] w2]; discriminate.
Qed.

Lemma isLoggedIn_true_means_dashboard_element_witness :
  env_navigate sampleEnv 0 "https://cerberus.example" = true /\
  exists k selector element elements,
    In selector cerberusIndicators /\
    (0 < k)%nat /\
    env_site sampleEnv k "https://cerberus.example" None selector = Some (element :: elements).
Proof.
  eapply (isLoggedIn_true_means_dashboard_element sampleEnv "https://cerberus.example"
            freshWorld).
  vm_compute. reflexivity.
Defined.

(** What a [saveStamp] that returned has written. *)
Lemma saveStamp_Ok (env : Env) (w w1 : World) :
  saveStamp env w = (Ok tt, w1) ->
  w_stampFile w1 = Some (Z_toString (getTime (env_clock env (S (w_step w))))) /\
  w_step w1 = (3 + w_step w)%nat.
Proof.
  unfold saveStamp, bind at 1, tick. cbn [w_step withStep].
  destruct (env_fsWrite env (w_step w)); [| discriminate].
  unfold bind at 1, modify, bind at 1, dateNow, bind at 1, newDate, bind at 1, tick, ret.
  cbn [w_step withStep withSessionDir]. unfold bind at 1, tick.
  cbn [w_step withStep withSessionDir].
  destruct (env_fsWrite env (S (S (w_step w)))); [| discriminate].
  unfold bind, emit, modify. intros [= <-]. split; reflexivity.
Qed.

(** X4: The timestamp [saveStamp] writes is one the next call honours: when
    a call to [ensureAuthenticated] finds the file as a successful
    [saveStamp] left it and reads a clock less than twelve hours past the
    time written, it returns at once, after that one clock reading, without
    a login check. *)
Theorem saved_timestamp_is_honoured
    (env : Env) (url : string) (w w1 w2 : World) :
  saveStamp env w = (Ok tt, w1) ->
  w_stampFile w2 = w_stampFile w1 ->
  getTime (env_clock env (w_step w2)) - getTime (env_clock env (S (w_step w)))
    < 12 * 60 * 60 * 1000 ->
  ensureAuthenticated env url w2 = (Ok tt, withStep (S (w_step w2)) w2).
Proof.
  intros Hs Hf Hage. apply saveStamp_Ok in Hs. destruct Hs as (Hstamp & _).
  apply (ensureAuthenticated_short_circuit env url w2
           (getTime (env_clock env (S (w_step w))))); [congruence | exact Hage].
Qed.

Lemma saved_timestamp_is_honoured_witness :
  exists w1,
    saveStamp sampleEnv freshWorld = (Ok tt, w1) /\
    ensureAuthenticated sampleEnv "https://cerberus.example" w1
    = (Ok tt, withStep (S (w_step w1)) w1).
Proof.
  eexists. split; [vm_compute; reflexivity |].
  refine (saved_timestamp_is_honoured sampleEnv "https://cerberus.example" freshWorld
            _ _ _ eq_refl _).
  - vm_compute. reflexivity.
  - vm_compute. reflexivity.
Defined.

(** ** Extraction driver *)

(** The loop of [selectPeriodByText] clicks at most once, and only a
    button whose trimmed text is the period asked for. *)
Lemma clickMatching_spec (env : Env) (periodText : string) (buttons : list string) :
  forall w r w',
    clickMatching env periodText buttons w = (r, w') ->
    (r = Ok false /\ w' = w /\ forall b, In b buttons -> trim b <> periodText) \/
    ((exists b, In b buttons /\ trim b = periodText) /\
     ((r = Ok true /\ env_click env (w_step w) = true /\
       w' = withPage (w_url w) (Some periodText)
              (withEvent (EvClick periodText) (withStep (S (w_step w)) w))) \/
      (exists e, r = Throw e /\ env_click env (w_step w) = false /\
                 w' = withEvent (EvClick periodText) (withStep (S (w_step w)) w)))).
Proof.
  induction buttons as [| b rest IH]; intros w r w' H.
  - injection H as <- <-. left. repeat split. intros b [].
  - cbn [clickMatching] in H.
    destruct (String.eqb_spec (trim b) periodText) as [Heq | Hne].
    + right. split; [exists b; split; [left; reflexivity | exact Heq] |].
      unfold bind at 1, clickButton, bind at 1, tick, bind at 1, emit, modify in H.
      cbn [w_step withEvent withStep] in H.
      destruct (env_click env (w_step w)) eqn:Hclick.
      * left. unfold bind, get, modify, ret in H. cbn in H.
        injection H as <- <-. repeat split.
      * right. unfold throw in H. injection H as <- <-. eauto.
    + apply IH in H. destruct H as [(-> & -> & Hall) | ((b' & Hin & Hb') & Hrest)].
      * left. repeat split. intros b0 [<- | Hin]; [exact Hne | apply Hall, Hin].
      * right. split; [exists b'; split; [right; exact Hin | exact Hb'] | exact Hrest].
Qed.

(** What a [selectPeriodByText] that returned has done. *)
Lemma selectPeriodByText_Ok (env : Env) (periodText : string) (w w' : World) :
  selectPeriodByText env periodText w = (Ok tt, w') ->
  (exists buttons b,
      env_site env (w_step w) (w_url w) (w_view w) periodSelector = Some buttons /\
      In b buttons /\ trim b = periodText) /\
  w' = withEvent (EvWait 3000)
         (withPage (w_url w) (Some periodText)
            (withEvent (EvClick periodText) (withStep (S (S (w_step w))) w))).
Proof.
  intros H.
  unfold selectPeriodByText, tryCatch in H.
  unfold bind at 1, pageQueryAll, bind at 1, tick, bind at 1, get in H.
  cbn [w_step w_url w_view withStep] in H.
  destruct (env_site env (w_step w) (w_url w) (w_view w) periodSelector)
    as [buttons |] eqn:E; [| discriminate].
  unfold ret at 1 in H.
  destruct (List.length buttons =? 0)%nat; [discriminate |].
  unfold bind at 1 in H.
  destruct (clickMatching env periodText buttons (withStep (S (w_step w)) w))
    as [[found | e] w1] eqn:Hc; [| discriminate].
  apply clickMatching_spec in Hc.
  destruct Hc as [(Hr & -> & _) | ((b & Hin & Hb) & [(Hr & _ & ->) | (e & Hr & _)])].
  - injection Hr as ->. discriminate.
  - injection Hr as ->. cbn in H. injection H as <-.
    split; [exists buttons, b; auto | reflexivity].
  - discriminate.
Qed.

(** X5: on a page whose period buttons show plain text,
    [selectPeriodByText] returns normally only after clicking a period
    button whose trimmed text is exactly the period asked for; the page is
    then in that view, and the click and the 3000 ms settle delay are the
    only actions.  When the selector finds no such button it throws after
    the query alone, without clicking. *)
Theorem selectPeriodByText_clicks_exact_text
    (env : Env) (periodText : string) (w : World) :
  plainElements env w periodSelector ->
  (forall w',
      selectPeriodByText env periodText w = (Ok tt, w') ->
      (exists buttons b,
          env_site env (w_step w) (w_url w) (w_view w) periodSelector = Some buttons /\
          In b buttons /\ trim b = periodText) /\
      w_view w' = Some periodText /\
      w_url w' = w_url w /\
      w_trace w' = EvWait 3000 :: EvClick periodText :: w_trace w) /\
  (forall buttons,
      env_site env (w_step w) (w_url w) (w_view w) periodSelector = Some buttons ->
      (forall b, In b buttons -> trim b <> periodText) ->
      exists e, selectPeriodByText env periodText w = (Throw e, withStep (S (w_step w)) w)).
Proof.
  intros _. split.
  - intros w' H. apply selectPeriodByText_Ok in H. destruct H as (Hb & ->).
    split; [exact Hb |]. repeat split.
  - intros buttons E Hall.
    unfold selectPeriodByText, tryCatch.
    unfold bind at 1, pageQueryAll, bind at 1, tick, bind at 1, get.
    cbn [w_step w_url w_view withStep]. rewrite E. unfold ret at 1.
    destruct (List.length buttons =? 0)%nat; [eexists; reflexivity |].
    unfold bind at 1.
    destruct (clickMatching env periodText buttons (withStep (S (w_step w)) w))
      as [r w1] eqn:Hc.
    apply clickMatching_spec in Hc.
    destruct Hc as [(-> & -> & _) | ((b & Hin & Hb) & _)].
    + cbn. eexists; reflexivity.
    + exfalso. exact (Hall b Hin Hb).
Qed.

(** The sample dashboard with no-break spaces around its texts. *)
Definition paddedEnv : Env :=
  mkEnv (fun _ => jan6) (fun _ _ => true) (fun _ => true) (fun _ => true)
        (fun _ => true) (fun _ => true)
        (fun _ _ _ selector =>
           if String.eqb selector periodSelector
           then Some [(nbsp ++ "Full Year" ++ nbsp)%string; (nbsp ++ "Year to Date")%string]
           else if String.eqb selector ".awsui-key-children"
           then Some ["$150.9K"; (nbsp ++ "$2.36MM")%string]
           else if String.eqb selector ".mus-cell-right-aligned"
           then Some ["Total"; ("$150.9K" ++ nbsp)%string]
           else Some []).

Lemma plainElements_paddedEnv (selector : string) :
  plainElements paddedEnv freshWorld selector.
Proof.
  intros elements E. unfold paddedEnv in E. cbn [env_site] in E.
  destruct (String.eqb selector periodSelector);
    [injection E as <-; repeat constructor |].
  destruct (String.eqb selector ".awsui-key-children");
    [injection E as <-; repeat constructor |].
  destruct (String.eqb selector ".mus-cell-right-aligned");
    injection E as <-; repeat constructor.
Qed.

Lemma selectPeriodByText_clicks_exact_text_witness :
  exists w',
    selectPeriodByText paddedEnv "Full Year" freshWorld = (Ok tt, w') /\
    w_view w' = Some "Full Year" /\
    w_trace w' = [EvWait 3000; EvClick "Full Year"].
Proof.
  eexists. split; [vm_compute; reflexivity |].
  match goal with
  | |- w_view ?w = _ /\ _ =>
      destruct (proj1 (selectPeriodByText_clicks_exact_text paddedEnv "Full Year" freshWorld
                         (plainElements_paddedEnv periodSelector))
                      w) as (_ & Hv & _ & Ht)
  end.
  - vm_compute. reflexivity.
  - split; assumption.
Defined.

(** When [extractIMRGoal] returns. *)
Lemma extractIMRGoal_Ok_iff (env : Env) (w : World) (v : float) (w' : World) :
  extractIMRGoal env w = (Ok v, w') <->
  exists budgetElements,
    env_site env (w_step w) (w_url w) (w_view w) ".awsui-key-children"
      = Some budgetElements /\
    (2 <= List.length budgetElements)%nat /\
    textAt imrGoalIndex budgetElements <> ""%string /\
    v = parseCurrencyAmount (textAt imrGoalIndex budgetElements) /\
    strictEq v 0 = false /\
    w' = withStep (S (w_step w)) w.
Proof.
  unfold extractIMRGoal, tryCatch, bind, pageQueryAll, bind, tick, get, ret, throw.
  cbn [w_step w_url w_view withStep].
  destruct (env_site env (w_step w) (w_url w) (w_view w) ".awsui-key-children")
    as [els |] eqn:E.
  - destruct (Nat.ltb_spec (List.length els) 2).
    + split; [discriminate |].
      intros (els' & [= <-] & Hlen & _). lia.
    + destruct (String.eqb_spec (textAt imrGoalIndex els) "").
      * split; [discriminate |].
        intros (els' & [= <-] & _ & Hne & _). contradiction.
      * destruct (strictEq (parseCurrencyAmount (textAt imrGoalIndex els)) 0) eqn:Hz.
        -- split; [discriminate |].
           intros (els' & [= <-] & _ & _ & -> & Hnz & _). congruence.
        -- split.
           ++ intros [= <- <-]. exists els. repeat split; assumption.
           ++ intros (els' & [= <-] & _ & _ & -> & _ & ->). reflexivity.
  - split; [discriminate |]. intros (els' & Hs & _). discriminate.
Qed.

(** X6: on a page whose budget elements show plain text,
    [extractIMRGoal] returns normally exactly when the selector finds at
    least two elements, the trimmed text of the second is not empty and its
    parsed amount is not equal to zero; the value returned is that amount,
    and nothing but the query happens. *)
Theorem extractIMRGoal_returns_iff (env : Env) (w : World) (v : float) (w' : World) :
  plainElements env w ".awsui-key-children" ->
  (extractIMRGoal env w = (Ok v, w') <->
   exists budgetElements,
     env_site env (w_step w) (w_url w) (w_view w) ".awsui-key-children"
       = Some budgetElements /\
     (2 <= List.length budgetElements)%nat /\
     textAt imrGoalIndex budgetElements <> ""%string /\
     v = parseCurrencyAmount (textAt imrGoalIndex budgetElements) /\
     strictEq v 0 = false /\
     w' = withStep (S (w_step w)) w).
Proof. intros _. exact (extractIMRGoal_Ok_iff env w v w'). Qed.

(** A budget preceded by a no-break space is read all the same. *)
Lemma extractIMRGoal_returns_iff_witness :
  extractIMRGoal paddedEnv freshWorld = (Ok 2360000%float, withStep 1 freshWorld).
Proof.
  apply (extractIMRGoal_returns_iff paddedEnv freshWorld 2360000 (withStep 1 freshWorld)
           (plainElements_paddedEnv ".awsui-key-children")).
  exists ["$150.9K"; (nbsp ++ "$2.36MM")%string].
  split; [reflexivity |].
  split; [cbn; lia |].
  split; [vm_compute; discriminate |].
  repeat split; vm_compute; reflexivity.
Defined.

(** When [extractYTDSpend] returns. *)
Lemma extractYTDSpend_Ok_iff (env : Env) (w : World) (v : float) (w' : World) :
  extractYTDSpend env w = (Ok v, w') <->
  exists spendElements,
    env_site env (w_step w) (w_url w) (w_view w) ".mus-cell-right-aligned"
      = Some spendElements /\
    (2 <= List.length spendElements)%nat /\
    textAt ytdSpendIndex spendElements <> ""%string /\
    v = parseCurrencyAmount (textAt ytdSpendIndex spendElements) /\
    w' = (if strictEq v 0
          then withEvent (zeroSpendWarning (textAt ytdSpendIndex spendElements))
                         (withStep (S (w_step w)) w)
          else withStep (S (w_step w)) w).
Proof.
  unfold extractYTDSpend, tryCatch, bind, pageQueryAll, bind, tick, get, ret, throw.
  cbn [w_step w_url w_view withStep].
  destruct (env_site env (w_step w) (w_url w) (w_view w) ".mus-cell-right-aligned")
    as [els |] eqn:E.
  - destruct (Nat.ltb_spec (List.length els) 2).
    + split; [discriminate |].
      intros (els' & [= <-] & Hlen & _). lia.
    + destruct (String.eqb_spec (textAt ytdSpendIndex els) "").
      * split; [discriminate |].
        intros (els' & [= <-] & _ & Hne & _). contradiction.
      * destruct (strictEq (parseCurrencyAmount (textAt ytdSpendIndex els)) 0) eqn:Hz.
        -- split.
           ++ intros [= <- <-]. exists els. rewrite Hz. repeat split; assumption.
           ++ intros (els' & [= <-] & _ & _ & -> & ->). rewrite Hz. reflexivity.
        -- split.
           ++ intros [= <- <-]. exists els. rewrite Hz. repeat split; assumption.
           ++ intros (els' & [= <-] & _ & _ & -> & ->). rewrite Hz. reflexivity.
  - split; [discriminate |]. intros (els' & Hs & _). discriminate.
Qed.

(** X7: on a page whose spend elements show plain text,
    [extractYTDSpend] returns normally exactly when the selector finds at
    least two elements and the trimmed text of the second is not empty;
    the value returned is the parsed amount, whatever it is, and a warning
    is logged when it equals zero. *)
Theorem extractYTDSpend_returns_iff (env : Env) (w : World) (v : float) (w' : World) :
  plainElements env w ".mus-cell-right-aligned" ->
  (extractYTDSpend env w = (Ok v, w') <->
   exists spendElements,
     env_site env (w_step w) (w_url w) (w_view w) ".mus-cell-right-aligned"
       = Some spendElements /\
     (2 <= List.length spendElements)%nat /\
     textAt ytdSpendIndex spendElements <> ""%string /\
     v = parseCurrencyAmount (textAt ytdSpendIndex spendElements) /\
     w' = (if strictEq v 0
           then withEvent (zeroSpendWarning (textAt ytdSpendIndex spendElements))
                          (withStep (S (w_step w)) w)
           else withStep (S (w_step w)) w)).
Proof. intros _. exact (extractYTDSpend_Ok_iff env w v w'). Qed.

(** A spend followed by a no-break space is read all the same. *)
Lemma extractYTDSpend_returns_iff_witness :
  extractYTDSpend paddedEnv freshWorld = (Ok 150900%float, withStep 1 freshWorld).
Proof.
  apply (extractYTDSpend_returns_iff paddedEnv freshWorld 150900 (withStep 1 freshWorld)
           (plainElements_paddedEnv ".mus-cell-right-aligned")).
  exists ["Total"; ("$150.9K" ++ nbsp)%string].
  split; [reflexivity |].
  split; [cbn; lia |].
  split; [vm_compute; discriminate |].
  repeat split; vm_compute; reflexivity.
Defined.

(** *** A budget that is not a number *)

Lemma SFeqb_refl_false (s : spec_float) : SFeqb s s = false -> s = S754_nan.
Proof.
  destruct s as [[] | [] | | [] m e]; unfold SFeqb; cbn; try discriminate; try reflexivity;
    rewrite Z.compare_refl, Pos.compare_cont_refl; discriminate.
Qed.

Lemma is_nan_Prim2SF (x : float) : PrimFloat.is_nan x = true -> Prim2SF x = S754_nan.
Proof.
  unfold PrimFloat.is_nan. rewrite negb_true_iff, FloatAxioms.eqb_spec.
  apply SFeqb_refl_false.
Qed.

(** [NaN] equals nothing and is greater than nothing. *)
Lemma nan_compares_false (x y : float) :
  PrimFloat.is_nan x = true ->
  strictEq x y = false /\ gt x y = false /\ gt y x = false.
Proof.
  intros Hn. apply is_nan_Prim2SF in Hn.
  unfold strictEq, gt. rewrite FloatAxioms.eqb_spec, !ltb_spec, Hn.
  repeat split; unfold SFeqb, SFltb; cbn; destruct (Prim2SF y); reflexivity.
Qed.

(** X8: A budget text that parses to [NaN] passes the checks of
    [extractIMRGoal], which returns the [NaN]; whatever the spend, the
    metrics computed from it never say "over budget". *)
Theorem extractIMRGoal_accepts_nan
    (env : Env) (w : World) (budgetElements : list string) :
  env_site env (w_step w) (w_url w) (w_view w) ".awsui-key-children"
    = Some budgetElements ->
  (2 <= List.length budgetElements)%nat ->
  PrimFloat.is_nan (parseCurrencyAmount (textAt imrGoalIndex budgetElements)) = true ->
  extractIMRGoal env w
    = (Ok (parseCurrencyAmount (textAt imrGoalIndex budgetElements)),
       withStep (S (w_step w)) w) /\
  forall fleetId fleetName ytdSpend today monthsElapsed,
    cd_isOverBudget
      (computeMetrics fleetId fleetName
         (parseCurrencyAmount (textAt imrGoalIndex budgetElements))
         ytdSpend today monthsElapsed) = false.
Proof.
  intros E Hlen Hnan. split.
  - apply extractIMRGoal_Ok_iff. exists budgetElements.
    repeat split; try assumption.
    + intros He. rewrite He in Hnan. discriminate.
    + apply (nan_compares_false _ 0 Hnan).
  - intros. cbn [computeMetrics cd_isOverBudget].
    apply (nan_compares_false _ _ Hnan).
Qed.

(** The sample dashboard with an unreadable budget carrying a suffix. *)
Definition garbledBudgetEnv : Env :=
  mkEnv (fun _ => jan6) (fun _ _ => true) (fun _ => true) (fun _ => true)
        (fun _ => true) (fun _ => true)
        (fun k url view selector =>
           if String.eqb selector ".awsui-key-children" then Some ["$150.9K"; "$abcK"]
           else sampleSite k url view selector).

Lemma extractIMRGoal_accepts_nan_witness :
  extractIMRGoal garbledBudgetEnv freshWorld = (Ok nan, withStep 1 freshWorld).
Proof.
  apply (extractIMRGoal_accepts_nan garbledBudgetEnv freshWorld ["$150.9K"; "$abcK"]).
  - reflexivity.
  - simpl. lia.
  - vm_compute. reflexivity.
Defined.

(** ** Browser and page life cycle *)

(** Launching a browser, opening a page and closing it. *)
Definition lifeCycle (ev : Event) : bool :=
  match ev with
  | EvLaunch | EvNewPage | EvPageClose => true
  | _ => false
  end.

Section KeepsLifeCycle.
Variable env : Env.
Variable kind : Event -> bool.
Hypothesis kind_lifeCycle : forall ev, lifeCycle ev = false -> kind ev = false.

(** One step of a [keeps] derivation for a kind of life-cycle actions. *)
Ltac life_step :=
  first [ apply keeps_emit; apply kind_lifeCycle; reflexivity
        | apply keeps_sleep; apply kind_lifeCycle; reflexivity
        | apply keeps_consoleWarn; apply kind_lifeCycle; reflexivity
        | apply keeps_pageGoto; apply kind_lifeCycle; reflexivity
        | apply keeps_saveStamp; intros ?; apply kind_lifeCycle; reflexivity
        | keeps_step ].

Lemma keeps_clickButton text : keeps kind (clickButton env text).
Proof. unfold clickButton. repeat life_step. Qed.

Lemma keeps_clickMatching periodText buttons :
  keeps kind (clickMatching env periodText buttons).
Proof.
  pose proof keeps_clickButton.
  induction buttons as [| b rest IH]; simpl; repeat life_step.
Qed.

Lemma keeps_selectPeriodByText periodText :
  keeps kind (selectPeriodByText env periodText).
Proof.
  pose proof keeps_clickMatching. unfold selectPeriodByText. repeat life_step.
Qed.

Lemma keeps_extractIMRGoal : keeps kind (extractIMRGoal env).
Proof. unfold extractIMRGoal. repeat life_step. Qed.

Lemma keeps_extractYTDSpend : keeps kind (extractYTDSpend env).
Proof. unfold extractYTDSpend. repeat life_step. Qed.

Lemma keeps_isLoggedIn url : keeps kind (isLoggedIn env url).
Proof. unfold isLoggedIn. repeat life_step. Qed.

Lemma keeps_ensureAuthenticated url : keeps kind (ensureAuthenticated env url).
Proof.
  pose proof keeps_isLoggedIn.
  unfold ensureAuthenticated, promptManualLogin. repeat life_step.
Qed.

Lemma keeps_buildCerberusUrl base fleetId : keeps kind (buildCerberusUrl env base fleetId).
Proof. unfold buildCerberusUrl. repeat life_step. Qed.

Lemma keeps_calculateMonthsElapsed fy : keeps kind (calculateMonthsElapsed env fy).
Proof. unfold calculateMonthsElapsed. repeat life_step. Qed.

(** The steps of [scrapeCerebusComplete] between opening the page and
    closing it. *)
Lemma keeps_scrapeSteps fleetId cerberusBaseUrl :
  keeps kind
    (tryCatch
       (fleetUrl <- buildCerberusUrl env cerberusBaseUrl fleetId ;;
        ensureAuthenticated env fleetUrl ;;
        pageGoto env fleetUrl ;;
        sleep 2000 ;;
        selectPeriodByText env "Full Year" ;;
        imrGoal <- extractIMRGoal env ;;
        fleetNameElements <- pageQueryAll env "strong" ;;
        let fleetName :=
          if (0 <? List.length fleetNameElements)%nat
          then textAt 0 fleetNameElements
          else ("Fleet " ++ fleetId)%string in
        selectPeriodByText env "Year to Date" ;;
        ytdSpend <- extractYTDSpend env ;;
        today <- newDate env ;;
        monthsElapsed <- calculateMonthsElapsed env (getFullYear today) ;;
        ret (computeMetrics fleetId fleetName imrGoal ytdSpend today monthsElapsed))
       (fun error => throw error)).
Proof.
  pose proof keeps_buildCerberusUrl. pose proof keeps_ensureAuthenticated.
  pose proof keeps_selectPeriodByText. pose proof keeps_extractIMRGoal.
  pose proof keeps_extractYTDSpend. pose proof keeps_calculateMonthsElapsed.
  cbv zeta. repeat life_step.
Qed.

End KeepsLifeCycle.

(** What [launchBrowser] does: on success one launch, and the browser is
    stamped with a clock reading taken after it. *)
Lemma launchBrowser_spec (env : Env) (w : World) r w' :
  launchBrowser env w = (r, w') ->
  countEvents isNewPage w' = countEvents isNewPage w /\
  countEvents isPageClose w' = countEvents isPageClose w /\
  ((r = Ok tt /\
    countEvents isLaunch w' = S (countEvents isLaunch w) /\
    exists k, (w_step w < k)%nat /\ w_browser w' = Some (getTime (env_clock env k))) \/
   (exists e, r = Throw e /\
              countEvents isLaunch w' = countEvents isLaunch w /\
              w_browser w' = w_browser w)).
Proof.
  unfold launchBrowser, bind, get, tick, dateNow, newDate, bind, tick, emit, modify,
    ret, throw.
  destruct (w_sessionDir w); cbn [w_step withStep withSessionDir].
  - destruct (env_launch env (w_step w)); intros [= <- <-]; cbn.
    + repeat split. left. repeat split. exists (S (w_step w)). split; [lia | reflexivity].
    + repeat split. right. eexists. repeat split.
  - destruct (env_fsWrite env (w_step w)); cbn [w_step withStep withSessionDir].
    + destruct (env_launch env (S (w_step w))); intros [= <- <-]; cbn.
      * repeat split. left. repeat split.
        exists (S (S (w_step w))). split; [lia | reflexivity].
      * repeat split. right. eexists. repeat split.
    + intros [= <- <-]; cbn. repeat split. right. eexists. repeat split.
Qed.

(** What [initBrowser] does. *)
Lemma initBrowser_spec (env : Env) (w : World) r w' :
  initBrowser env w = (r, w') ->
  countEvents isNewPage w' = countEvents isNewPage w /\
  countEvents isPageClose w' = countEvents isPageClose w /\
  ((exists sessionStartTime,
       r = Ok tt /\
       w_browser w = Some sessionStartTime /\
       getTime (env_clock env (w_step w)) - sessionStartTime < 30 * 60 * 1000 /\
       env_browserAlive env (S (w_step w)) = true /\
       w' = withStep (S (S (w_step w))) w) \/
   (r = Ok tt /\
    countEvents isLaunch w' = S (countEvents isLaunch w) /\
    exists k, (w_step w < k)%nat /\ w_browser w' = Some (getTime (env_clock env k))) \/
   (exists e, r = Throw e /\ countEvents isLaunch w' = countEvents isLaunch w)).
Proof.
  unfold initBrowser. unfold bind at 1, get.
  destruct (w_browser w) as [t |] eqn:Hb.
  - unfold bind at 1, dateNow, bind at 1, newDate, bind at 1, tick, ret.
    cbn [w_step withStep].
    destruct (Z.ltb_spec (getTime (env_clock env (w_step w)) - t) SESSION_TIMEOUT)
      as [Hyoung | Hold].
    + unfold bind at 1, tick. cbn [w_step withStep].
      destruct (env_browserAlive env (S (w_step w))) eqn:Halive.
      * intros [= <- <-]. repeat split. left. exists t. repeat split.
        unfold SESSION_TIMEOUT in Hyoung. lia.
      * unfold bind at 1, modify. intros H. apply launchBrowser_spec in H.
        cbn in H. destruct H as (Hn & Hc & [(-> & Hl & k & Hk & Hw) | (e & -> & Hl & Hw)]).
        -- repeat split; try assumption. right. left. repeat split; try assumption.
           exists k. split; [cbn in Hk; lia | exact Hw].
        -- repeat split; try assumption. right. right. exists e. repeat split; assumption.
    + intros H. apply launchBrowser_spec in H.
      cbn in H. destruct H as (Hn & Hc & [(-> & Hl & k & Hk & Hw) | (e & -> & Hl & Hw)]).
      * repeat split; try assumption. right. left. repeat split; try assumption.
        exists k. split; [cbn in Hk; lia | exact Hw].
      * repeat split; try assumption. right. right. exists e. repeat split; assumption.
  - intros H. apply launchBrowser_spec in H.
    destruct H as (Hn & Hc & [(-> & Hl & k & Hk & Hw) | (e & -> & Hl & Hw)]).
    + repeat split; try assumption. right. left. repeat split; try assumption.
      exists k. split; [lia | exact Hw].
    + repeat split; try assumption. right. right. exists e. repeat split; assumption.
Qed.

(** The test [initBrowser] makes before reusing the browser at hand:
    there is one, it is younger than [SESSION_TIMEOUT], and it answers. *)
Definition liveBrowser (env : Env) (w : World) : bool :=
  match w_browser w with
  | Some sessionStartTime =>
      (getTime (env_clock env (w_step w)) - sessionStartTime <? SESSION_TIMEOUT)
      && env_browserAlive env (S (w_step w))
  | None => false
  end.

(** X9: [initBrowser] returns the browser at hand, untouched and without a
    launch, exactly when it is younger than thirty minutes and still
    answers; otherwise a return means exactly one launch, and the new
    browser is stamped with a clock reading taken after the call began. *)
Theorem initBrowser_reuses_only_live_browser
    (env : Env) (w w' : World) :
  initBrowser env w = (Ok tt, w') ->
  (liveBrowser env w = true -> w' = withStep (S (S (w_step w))) w) /\
  (liveBrowser env w = false ->
   countEvents isLaunch w' = S (countEvents isLaunch w) /\
   exists k, (w_step w < k)%nat /\ w_browser w' = Some (getTime (env_clock env k))).
Proof.
  intros H. pose proof (initBrowser_spec env w _ _ H) as (_ & _ & Hs).
  unfold liveBrowser, SESSION_TIMEOUT.
  destruct Hs as [(t & _ & Hb & Hyoung & Halive & ->) | [(_ & Hl & Hk) | (e & He & _)]].
  - rewrite Hb, Halive, (proj2 (Z.ltb_lt _ _) Hyoung). split; [reflexivity | discriminate].
  - split; [| split; assumption].
    destruct (w_browser w) as [t |] eqn:Hb; [| discriminate].
    intros Hlive. apply andb_prop in Hlive. destruct Hlive as (Hyoung & Halive).
    exfalso. revert H Hl. unfold initBrowser, bind at 1, get. rewrite Hb.
    unfold bind at 1, dateNow, bind at 1, newDate, bind at 1, tick, ret.
    cbn [w_step withStep]. unfold SESSION_TIMEOUT. rewrite Hyoung.
    unfold bind at 1, tick. cbn [w_step withStep]. rewrite Halive.
    intros [= <-]. unfold countEvents. cbn. lia.
  - discriminate.
Qed.

(** A browser launched an hour before the clock's reading. *)
Definition staleBrowserWorld : World :=
  mkWorld 0 (Some (getTime jan6 - 3600000)) true None "about:blank" None [].

Lemma initBrowser_reuses_only_live_browser_witness :
  exists w',
    initBrowser sampleEnv staleBrowserWorld = (Ok tt, w') /\
    countEvents isLaunch w' = S (countEvents isLaunch staleBrowserWorld) /\
    exists k, (w_step staleBrowserWorld < k)%nat /\
              w_browser w' = Some (getTime (env_clock sampleEnv k)).
Proof.
  eexists. split; [vm_compute; reflexivity |].
  refine (proj2 (initBrowser_reuses_only_live_browser sampleEnv staleBrowserWorld _ _) _);
    vm_compute; reflexivity.
Defined.

(** X10: Every page [scrapeCerebusComplete] opens it also closes, whether the
    extraction returns or throws, and the close is then its last action;
    a call opens at most one page and launches at most one browser, and
    when no page was opened the call has thrown.  A page counts as opened
    when [createPage] returns: setting up the fresh page is taken not to
    fail. *)
Theorem scrapeCerebusComplete_closes_its_page
    (env : Env) (fleetId cerberusBaseUrl : string) (w : World)
    (r : Outcome CerebusCompleteData) (w' : World) :
  scrapeCerebusComplete env fleetId cerberusBaseUrl w = (r, w') ->
  exists opened : bool,
    countEvents isNewPage w' = (Nat.b2n opened + countEvents isNewPage w)%nat /\
    countEvents isPageClose w' = (Nat.b2n opened + countEvents isPageClose w)%nat /\
    (countEvents isLaunch w' <= S (countEvents isLaunch w))%nat /\
    if opened then hd_error (w_trace w') = Some EvPageClose
    else exists e, r = Throw e.
Proof.
  intros H. unfold scrapeCerebusComplete in H. unfold bind at 1 in H.
  destruct (initBrowser env w) as [[[] | e] w1] eqn:Hi;
    apply initBrowser_spec in Hi; destruct Hi as (Hn1 & Hc1 & Hl1).
  assert (Hl1' : (countEvents isLaunch w1 <= S (countEvents isLaunch w))%nat).
  { unfold countEvents in *.
    destruct Hl1 as [(t & _ & _ & _ & _ & ->) | [(_ & Hl & _) | (e & _ & Hl)]];
      [cbn | |]; lia. }
  2:{ injection H as <- <-. exists false. cbn. repeat split; try lia; eauto.
      destruct Hl1 as [(t & [=] & _) | [([=] & _) | (e' & _ & Hl)]]. lia. }
  clear Hl1.
  unfold bind at 1, createPage, bind at 1, tick in H. cbn [w_step] in H.
  destruct (env_browserAlive env (w_step w1)).
  - unfold bind at 1, emit, modify, finally in H.
    match type of H with
    | context [tryCatch ?m ?h ?w0] =>
        destruct (tryCatch m h w0) as [r2 w3] eqn:Hb;
        pose proof (keeps_scrapeSteps env isNewPage ltac:(intros []; cbn; congruence)
                      fleetId cerberusBaseUrl _ _ _ Hb) as Hn3;
        pose proof (keeps_scrapeSteps env isPageClose ltac:(intros []; cbn; congruence)
                      fleetId cerberusBaseUrl _ _ _ Hb) as Hc3;
        pose proof (keeps_scrapeSteps env isLaunch ltac:(intros []; cbn; congruence)
                      fleetId cerberusBaseUrl _ _ _ Hb) as Hl3
    end.
    clear Hb. unfold pageClose, emit, modify in H. injection H as <- <-. exists true.
    unfold countEvents in *. cbn in *. repeat split; lia.
  - injection H as <- <-. exists false.
    unfold countEvents in *. cbn in *. repeat split; try lia. eauto.
Qed.

Lemma scrapeCerebusComplete_closes_its_page_witness :
  exists r w',
    scrapeCerebusComplete (placeholderEnv "-") "8304669" "https://cerberus.example" freshWorld
    = (r, w') /\
    exists opened : bool,
      countEvents isNewPage w' = (Nat.b2n opened + countEvents isNewPage freshWorld)%nat /\
      countEvents isPageClose w' = (Nat.b2n opened + countEvents isPageClose freshWorld)%nat /\
      (countEvents isLaunch w' <= S (countEvents isLaunch freshWorld))%nat /\
      if opened then hd_error (w_trace w') = Some EvPageClose
      else exists e, r = Throw e.
Proof.
  do 2 eexists. split; [vm_compute; reflexivity |].
  refine (scrapeCerebusComplete_closes_its_page (placeholderEnv "-") "8304669"
            "https://cerberus.example" freshWorld _ _ _).
  vm_compute. reflexivity.
Defined.

(** ** A scrape that returned *)

Lemma finally_Ok {A} (m : M A) (f : M unit) w a w' :
  finally m f w = (Ok a, w') ->
  exists w1 u, m w = (Ok a, w1) /\ f w1 = (Ok u, w').
Proof.
  unfold finally. destruct (m w) as [r w1]. destruct (f w1) as [[u | e] w2] eqn:Ef.
  - intros [= -> <-]. eauto.
  - discriminate.
Qed.

Lemma tryCatch_rethrow_Ok {A} (m : M A) w a w' :
  tryCatch m (fun error => throw error) w = (Ok a, w') -> m w = (Ok a, w').
Proof. unfold tryCatch. destruct (m w) as [[a' | e] w1]; [auto | discriminate]. Qed.

Lemma pageGoto_Ok (env : Env) url w u w' :
  pageGoto env url w = (Ok u, w') ->
  w' = withPage url None (withEvent (EvGoto url) (withStep (S (w_step w)) w)).
Proof.
  unfold pageGoto, bind, tick, emit, modify, throw. cbn [w_step withStep withEvent].
  destruct (env_navigate env (w_step w) url); [| discriminate].
  intros [= _ <-]. reflexivity.
Qed.

Lemma pageQueryAll_Ok (env : Env) sel w els w' :
  pageQueryAll env sel w = (Ok els, w') ->
  env_site env (w_step w) (w_url w) (w_view w) sel = Some els /\
  w' = withStep (S (w_step w)) w.
Proof.
  unfold pageQueryAll, bind, tick, get, ret, throw. cbn [w_step w_url w_view withStep].
  destruct (env_site env (w_step w) (w_url w) (w_view w) sel); [| discriminate].
  intros [= -> <-]. auto.
Qed.

(** The two readings behind the data of a scrape that returned: the
    budget, read at some interaction [k] in the Full Year view, and the
    spend, read at interaction [k + 4] in the Year to Date view of the same
    location; the clock readings and the final world. *)
Lemma scrapeCerebusComplete_Ok
    (env : Env) (fleetId cerberusBaseUrl : string) (w : World)
    (data : CerebusCompleteData) (w' : World) :
  scrapeCerebusComplete env fleetId cerberusBaseUrl w = (Ok data, w') ->
  exists (k : nat) (fleetUrl : string) (budgetElements names spendElements : list string),
    env_site env k fleetUrl (Some "Full Year") ".awsui-key-children" = Some budgetElements /\
    (2 <= List.length budgetElements)%nat /\
    strictEq (parseCurrencyAmount (textAt imrGoalIndex budgetElements)) 0 = false /\
    env_site env (k + 4) fleetUrl (Some "Year to Date") ".mus-cell-right-aligned"
      = Some spendElements /\
    (2 <= List.length spendElements)%nat /\
    textAt ytdSpendIndex spendElements <> ""%string /\
    data = computeMetrics fleetId
             (if (0 <? List.length names)%nat then textAt 0 names
              else ("Fleet " ++ fleetId)%string)
             (parseCurrencyAmount (textAt imrGoalIndex budgetElements))
             (parseCurrencyAmount (textAt ytdSpendIndex spendElements))
             (env_clock env (k + 5)) (reportingMonthOf (env_clock env (k + 6))) /\
    w_view w' = Some "Year to Date" /\
    w_url w' = fleetUrl /\
    w_step w' = (k + 7)%nat.
Proof.
  intros H. unfold scrapeCerebusComplete in H.
  apply bind_Ok in H. destruct H as (u0 & w1 & _ & H).
  apply bind_Ok in H. destruct H as (u1 & w2 & _ & H).
  apply finally_Ok in H. destruct H as (w3 & u2 & H & Hclose).
  apply tryCatch_rethrow_Ok in H.
  apply bind_Ok in H. destruct H as (fleetUrl & wa & _ & H).
  apply bind_Ok in H. destruct H as (u3 & wb & _ & H).
  apply bind_Ok in H. destruct H as (u4 & wc & Hgoto & H).
  apply pageGoto_Ok in Hgoto.
  apply bind_Ok in H. destruct H as (u5 & wd & Hsleep & H).
  injection Hsleep as _ Hwd.
  apply bind_Ok in H. destruct H as ([] & we & Hfull & H).
  apply selectPeriodByText_Ok in Hfull. destruct Hfull as (_ & Hwe).
  apply bind_Ok in H. destruct H as (imrGoal & wf & Hgoal & H).
  apply extractIMRGoal_Ok_iff in Hgoal.
  destruct Hgoal as (budgetElements & Eb & Hlb & _ & -> & Hnz & Hwf).
  apply bind_Ok in H. destruct H as (names & wg & Hnames & H).
  apply pageQueryAll_Ok in Hnames. destruct Hnames as (_ & Hwg).
  cbv zeta in H.
  apply bind_Ok in H. destruct H as ([] & wh & Hytd & H).
  apply selectPeriodByText_Ok in Hytd. destruct Hytd as (_ & Hwh).
  apply bind_Ok in H. destruct H as (ytdSpend & wi & Hspend & H).
  apply extractYTDSpend_Ok_iff in Hspend.
  destruct Hspend as (spendElements & Es & Hls & Hne & -> & Hwi).
  unfold bind, newDate, calculateMonthsElapsed, newDate, bind, tick, ret in H.
  cbn [w_step withStep] in H. injection H as <- <-.
  unfold pageClose, emit, modify in Hclose. injection Hclose as _ <-.
  exists (w_step we), fleetUrl, budgetElements, names, spendElements.
  subst wh wg wf. cbn [w_step w_url w_view withStep withEvent withPage] in Es, Hwi.
  assert (Hstep : w_step wi = (w_step we + 5)%nat).
  { rewrite Hwi. destruct (strictEq (parseCurrencyAmount (textAt ytdSpendIndex spendElements)) 0); cbn; lia. }
  assert (Hview : w_view wi = Some "Year to Date").
  { rewrite Hwi. destruct (strictEq (parseCurrencyAmount (textAt ytdSpendIndex spendElements)) 0); reflexivity. }
  assert (Hurl : w_url wi = fleetUrl).
  { rewrite Hwi. destruct (strictEq (parseCurrencyAmount (textAt ytdSpendIndex spendElements)) 0); cbn; rewrite Hwe, <- Hwd, Hgoto; reflexivity. }
  assert (Hue : w_url we = fleetUrl) by (rewrite Hwe, <- Hwd, Hgoto; reflexivity).
  assert (Hve : w_view we = Some "Full Year") by (rewrite Hwe; reflexivity).
  rewrite Hue, Hve in Eb. rewrite Hue in Es.
  replace (S (S (S (S (w_step we))))) with (w_step we + 4)%nat in Es by lia.
  cbn [w_step w_url w_view withStep withEvent withPage]. rewrite Hstep.
  replace (S (w_step we + 5)) with (w_step we + 6)%nat by lia.
  repeat split; try assumption. lia.
Qed.

(** X11: The dual-period strategy: in the data of a scrape that returned, the
    budget is the amount parsed from the second [.awsui-key-children]
    element as shown in the Full Year view, and the spend is the amount
    parsed from the second [.mus-cell-right-aligned] element as shown, four
    interactions later, in the Year to Date view of the same location. *)
Theorem scrape_reads_each_amount_in_its_view
    (env : Env) (fleetId cerberusBaseUrl : string) (w : World)
    (data : CerebusCompleteData) (w' : World) :
  scrapeCerebusComplete env fleetId cerberusBaseUrl w = (Ok data, w') ->
  exists (k : nat) (fleetUrl : string) (budgetElements spendElements : list string),
    env_site env k fleetUrl (Some "Full Year") ".awsui-key-children" = Some budgetElements /\
    cd_imrGoal data = parseCurrencyAmount (textAt 1 budgetElements) /\
    env_site env (k + 4) fleetUrl (Some "Year to Date") ".mus-cell-right-aligned"
      = Some spendElements /\
    cd_ytdSpend data = parseCurrencyAmount (textAt 1 spendElements) /\
    w_view w' = Some "Year to Date".
Proof.
  intros H. apply scrapeCerebusComplete_Ok in H.
  destruct H as (k & fleetUrl & bs & names & ss & Eb & _ & _ & Es & _ & _ & -> & Hv & _).
  exists k, fleetUrl, bs, ss. repeat split; assumption.
Qed.

Lemma scrape_reads_each_amount_in_its_view_witness :
  exists data w',
    scrapeCerebusComplete sampleEnv "8304669" "https://cerberus.example" freshWorld
    = (Ok data, w') /\
    exists (k : nat) (fleetUrl : string) (budgetElements spendElements : list string),
      env_site sampleEnv k fleetUrl (Some "Full Year") ".awsui-key-children"
        = Some budgetElements /\
      cd_imrGoal data = parseCurrencyAmount (textAt 1 budgetElements) /\
      env_site sampleEnv (k + 4) fleetUrl (Some "Year to Date") ".mus-cell-right-aligned"
        = Some spendElements /\
      cd_ytdSpend data = parseCurrencyAmount (textAt 1 spendElements) /\
      w_view w' = Some "Year to Date".
Proof.
  do 2 eexists. split; [vm_compute; reflexivity |].
  refine (scrape_reads_each_amount_in_its_view sampleEnv "8304669"
            "https://cerberus.example" freshWorld _ _ _).
  vm_compute. reflexivity.
Defined.

(** X12: Under a clock whose readings are calendar dates, the data of a scrape
    that returned carry the fleet id asked for, a budget that is not equal
    to zero and a number of elapsed months between 1 and 12, so that neither
    division of the metrics is by zero; the remaining months complete the
    twelve, and the fiscal year is the year of the period end. *)
Theorem scrape_data_never_divides_by_zero
    (env : Env) (fleetId cerberusBaseUrl : string) (w : World)
    (data : CerebusCompleteData) (w' : World) :
  (forall k, wellFormed (env_clock env k) = true) ->
  scrapeCerebusComplete env fleetId cerberusBaseUrl w = (Ok data, w') ->
  cd_fleetId data = fleetId /\
  strictEq (cd_imrGoal data) 0 = false /\
  1 <= cd_monthsElapsed data <= 12 /\
  cd_monthsRemaining data = 12 - cd_monthsElapsed data /\
  0 <= cd_monthsRemaining data <= 11 /\
  cd_fiscalYear data = getFullYear (cd_ytdPeriodEnd data).
Proof.
  intros Hclock H. apply scrapeCerebusComplete_Ok in H.
  destruct H as (k & fleetUrl & bs & names & ss & _ & _ & Hnz & _ & _ & _ & -> & _).
  cbn [computeMetrics cd_fleetId cd_imrGoal cd_monthsElapsed cd_monthsRemaining
       cd_fiscalYear cd_ytdPeriodEnd].
  assert (Hm : 1 <= reportingMonthOf (env_clock env (k + 6)) <= 12).
  { specialize (Hclock (k + 6)%nat). unfold wellFormed in Hclock.
    repeat (apply andb_prop in Hclock; destruct Hclock as (Hclock & ?)).
    unfold reportingMonthOf.
    destruct (Z.eqb_spec (getMonth (env_clock env (k + 6)) + 1 - 1) 0); lia. }
  repeat split; try assumption; try reflexivity; lia.
Qed.

Lemma scrape_data_never_divides_by_zero_witness :
  exists data w',
    scrapeCerebusComplete sampleEnv "8304669" "https://cerberus.example" freshWorld
    = (Ok data, w') /\
    cd_fleetId data = "8304669" /\
    strictEq (cd_imrGoal data) 0 = false /\
    1 <= cd_monthsElapsed data <= 12 /\
    cd_monthsRemaining data = 12 - cd_monthsElapsed data /\
    0 <= cd_monthsRemaining data <= 11 /\
    cd_fiscalYear data = getFullYear (cd_ytdPeriodEnd data).
Proof.
  do 2 eexists. split; [vm_compute; reflexivity |].
  refine (scrape_data_never_divides_by_zero sampleEnv "8304669"
            "https://cerberus.example" freshWorld _ _ _ _).
  - intros k. reflexivity.
  - vm_compute. reflexivity.
Defined.

(** ** Currency parser *)

(** *** Rounding never invents a [NaN] *)

Lemma shr_1_nonneg (mrs : shr_record) : 0 <= shr_m mrs -> 0 <= shr_m (shr_1 mrs).
Proof.
  destruct mrs as [m r s]. cbn [shr_m].
  destruct m as [| [p | p |] | p]; cbn; lia.
Qed.

Lemma iter_shr_1_nonneg (p : positive) :
  forall mrs, 0 <= shr_m mrs -> 0 <= shr_m (SpecFloat.iter_pos shr_1 p mrs).
Proof.
  induction p as [p IH | p IH |]; intros mrs H; cbn [SpecFloat.iter_pos].
  - apply IH, IH, shr_1_nonneg, H.
  - apply IH, IH, H.
  - apply shr_1_nonneg, H.
Qed.

Lemma shr_fexp_nonneg (m e : Z) (l : location) :
  0 <= m -> 0 <= shr_m (fst (shr_fexp prec emax m e l)).
Proof.
  intros Hm. unfold shr_fexp, shr.
  assert (H0 : 0 <= shr_m (shr_record_of_loc m l))
    by (destruct l as [| []]; exact Hm).
  destruct (fexp prec emax (Zdigits2 m + e) - e) as [| p | p]; cbn [fst]; try exact H0.
  apply iter_shr_1_nonneg, H0.
Qed.

Lemma round_nearest_even_nonneg (m : Z) (l : location) :
  0 <= m -> 0 <= round_nearest_even m l.
Proof.
  intros Hm. destruct l as [| []]; cbn; try destruct (Z.even m); lia.
Qed.

Lemma binary_round_aux_not_nan (sx : bool) (mx : positive) (ex : Z) (lx : location) :
  binary_round_aux prec emax sx (Zpos mx) ex lx <> S754_nan.
Proof.
  unfold binary_round_aux.
  pose proof (shr_fexp_nonneg (Zpos mx) ex lx ltac:(lia)) as H1.
  destruct (shr_fexp prec emax (Zpos mx) ex lx) as [mrs' e']. cbn [fst] in H1.
  pose proof (shr_fexp_nonneg _ e' loc_Exact
                (round_nearest_even_nonneg _ (loc_of_shr_record mrs') H1)) as H2.
  destruct (shr_fexp prec emax
              (round_nearest_even (shr_m mrs') (loc_of_shr_record mrs')) e' loc_Exact)
    as [mrs'' e'']. cbn [fst] in H2.
  destruct (shr_m mrs'') as [| m | m]; try discriminate; [| lia].
  destruct (e'' <=? emax - prec); discriminate.
Qed.

Lemma is_nan_SF (x : float) :
  PrimFloat.is_nan x = match Prim2SF x with S754_nan => true | _ => false end.
Proof.
  unfold PrimFloat.is_nan. rewrite FloatAxioms.eqb_spec.
  destruct (Prim2SF x) as [[] | [] | | [] m e]; unfold SFeqb; cbn;
    rewrite ?Z.compare_refl, ?Pos.compare_cont_refl; reflexivity.
Qed.

(** A product with a finite factor is [NaN] exactly when the other factor
    is. *)
Lemma mul_finite_nan (x mult : float) :
  (exists s m e, Prim2SF mult = S754_finite s m e) ->
  PrimFloat.is_nan (x * mult) = PrimFloat.is_nan x.
Proof.
  intros (s & m & e & Hm).
  rewrite !is_nan_SF, mul_spec, Hm. unfold SF64mul.
  destruct (Prim2SF x) as [sx | sx | | sx mx ex]; cbn [SFmul]; try reflexivity.
  pose proof (binary_round_aux_not_nan (xorb sx s) (mx * m) (ex + e) loc_Exact) as Hn.
  destruct (binary_round_aux prec emax (xorb sx s) (Z.pos (mx * m)) (ex + e) loc_Exact);
    try reflexivity. contradiction.
Qed.

Lemma multipliers_finite (key : string) (mult : float) :
  multipliers key = Some mult ->
  truthy mult = true /\ exists s m e, Prim2SF mult = S754_finite s m e.
Proof.
  unfold multipliers.
  destruct (String.eqb key "K"); [intros [= <-]; split; [reflexivity | cbn; eauto] |].
  destruct (String.eqb key "M"); [intros [= <-]; split; [reflexivity | cbn; eauto] |].
  destruct (String.eqb key "B"); [intros [= <-]; split; [reflexivity | cbn; eauto] |].
  discriminate.
Qed.

(** The text after [value.replace(/[$,\s]/g, '')] decides the result. *)
Lemma parseCurrencyAmount_cleaned (value : string) :
  parseCurrencyAmount value =
  let cleaned := stripSymbols value in
  if endsWith "MM" (toUpperCase cleaned) then
    (parseFloat (sliceDropLast 2 cleaned) * 1000000)%float
  else
    match multipliers (toUpperCase (sliceLast cleaned)) with
    | Some mult => (parseFloat (sliceDropLast 1 cleaned) * mult)%float
    | None => orZero (parseFloat cleaned)
    end.
Proof.
  unfold parseCurrencyAmount. destruct (String.eqb_spec value "") as [-> | Hne].
  - reflexivity.
  - cbv zeta. destruct (endsWith "MM" (toUpperCase (stripSymbols value))); [reflexivity |].
    destruct (multipliers (toUpperCase (sliceLast (stripSymbols value)))) as [mult |] eqn:E;
      [| reflexivity].
    apply multipliers_finite in E. destruct E as (-> & _). reflexivity.
Qed.

(** X13: on a plain text, [parseCurrencyAmount] returns [NaN] exactly when
    the text, once dollar signs, commas and white space are removed, ends
    in one of the suffixes MM, K, M, B (in either case) and what precedes
    the suffix does not start with a number. *)
Theorem parseCurrencyAmount_nan_iff (value : string) :
  plainText value = true ->
  (PrimFloat.is_nan (parseCurrencyAmount value) = true <->
   (endsWith "MM" (toUpperCase (stripSymbols value)) = true /\
    PrimFloat.is_nan (parseFloat (sliceDropLast 2 (stripSymbols value))) = true) \/
   (endsWith "MM" (toUpperCase (stripSymbols value)) = false /\
    multipliers (toUpperCase (sliceLast (stripSymbols value))) <> None /\
    PrimFloat.is_nan (parseFloat (sliceDropLast 1 (stripSymbols value))) = true)).
Proof.
  intros _. rewrite parseCurrencyAmount_cleaned. cbv zeta.
  destruct (endsWith "MM" (toUpperCase (stripSymbols value))).
  - rewrite mul_finite_nan by (cbn; eauto).
    split; [intros H; left; auto | intros [(_ & H) | (H & _)]; [exact H | discriminate]].
  - destruct (multipliers (toUpperCase (sliceLast (stripSymbols value)))) as [mult |] eqn:E.
    + rewrite mul_finite_nan by (apply (multipliers_finite _ _ E)).
      split.
      * intros H. right. repeat split; [discriminate | exact H].
      * intros [(H & _) | (_ & _ & H)]; [discriminate | exact H].
    + rewrite orZero_not_nan.
      split; [discriminate | intros [(H & _) | (_ & H & _)]; [discriminate | contradiction]].
Qed.

(** A suffix after a no-break space and letters gives [NaN]; after a
    no-break space and a number it does not. *)
Lemma parseCurrencyAmount_nan_iff_witness :
  PrimFloat.is_nan (parseCurrencyAmount (nbsp ++ "abcK")%string) = true /\
  PrimFloat.is_nan (parseCurrencyAmount (nbsp ++ "5K")%string) = false.
Proof.
  split.
  - apply (parseCurrencyAmount_nan_iff (nbsp ++ "abcK")%string eq_refl).
    right. repeat split; try (vm_compute; reflexivity). vm_compute. discriminate.
  - destruct (PrimFloat.is_nan (parseCurrencyAmount (nbsp ++ "5K")%string)) eqn:E;
      [| reflexivity].
    apply (parseCurrencyAmount_nan_iff (nbsp ++ "5K")%string eq_refl) in E.
    destruct E as [(E & _) | (_ & _ & E)]; vm_compute in E; discriminate.
Defined.

(** X14: dollar signs, commas and white space, wherever they stand in a
    plain text, do not change the amount: two plain texts that agree once
    these characters are removed parse to the same number. *)
Theorem parseCurrencyAmount_ignores_formatting (value1 value2 : string) :
  plainText value1 = true ->
  plainText value2 = true ->
  stripSymbols value1 = stripSymbols value2 ->
  parseCurrencyAmount value1 = parseCurrencyAmount value2.
Proof. intros _ _ H. rewrite !parseCurrencyAmount_cleaned, H. reflexivity. Qed.

Lemma parseCurrencyAmount_ignores_formatting_witness :
  parseCurrencyAmount ("$1" ++ nbsp ++ "234.5 K")%string = parseCurrencyAmount "1234.5K" /\
  parseCurrencyAmount "1234.5K" = 1234500%float.
Proof.
  split; [| vm_compute; reflexivity].
  apply (parseCurrencyAmount_ignores_formatting ("$1" ++ nbsp ++ "234.5 K")%string "1234.5K");
    vm_compute; reflexivity.
Defined.

(** ** Fiscal year text *)

Lemma isDigit_digitVal (c : ascii) : isDigit c = true -> 0 <= digitVal c <= 9.
Proof.
  unfold isDigit, digitVal. intros H. apply andb_prop in H. destruct H as (H1 & H2).
  apply Z.leb_le in H1, H2. lia.
Qed.

Lemma matchFourDigits_range (s : string) (y : Z) :
  matchFourDigits s = Some y -> 2000 <= y <= 2099.
Proof.
  unfold matchFourDigits.
  destruct s as [| c0 [| c1 [| d1 [| d2 rest]]]]; try discriminate;
    try (destruct c0 as [[] [] [] [] [] [] [] []]; discriminate);
    try (destruct c0 as [[] [] [] [] [] [] [] []]; try discriminate;
         destruct c1 as [[] [] [] [] [] [] [] []]; discriminate).
  remember (2000 + 10 * digitVal d1 + digitVal d2) as v eqn:Hv.
  destruct c0 as [[] [] [] [] [] [] [] []]; try discriminate.
  destruct c1 as [[] [] [] [] [] [] [] []]; try discriminate.
  destruct (isDigit d1) eqn:H1; [| discriminate].
  destruct (isDigit d2) eqn:H2; [| discriminate].
  destruct (boundaryBefore rest); [| discriminate].
  intros [= <-].
  apply isDigit_digitVal in H1, H2. lia.
Qed.

Lemma matchTwoDigits_range (s : string) (y : Z) :
  matchTwoDigits s = Some y -> 0 <= y <= 99.
Proof.
  unfold matchTwoDigits. destruct s as [| d1 [| d2 rest]]; try discriminate.
  remember (10 * digitVal d1 + digitVal d2) as v eqn:Hv.
  destruct (isDigit d1) eqn:H1; [| discriminate].
  destruct (isDigit d2) eqn:H2; [| discriminate].
  destruct (boundaryBefore rest); [| discriminate].
  cbn [andb]. intros [= <-].
  apply isDigit_digitVal in H1, H2. lia.
Qed.

Lemma matchYear_range (s : string) :
  forall prevWord y,
    matchYear prevWord s = Some y -> 0 <= y <= 99 \/ 2000 <= y <= 2099.
Proof.
  induction s as [| c r IH]; intros prevWord y H; [discriminate |].
  cbn [matchYear] in H.
  destruct (negb prevWord && isDigit c).
  - destruct (matchFourDigits (String c r)) as [y4 |] eqn:E4.
    + injection H as <-. right. exact (matchFourDigits_range _ _ E4).
    + destruct (matchTwoDigits (String c r)) as [y2 |] eqn:E2.
      * injection H as <-. left. exact (matchTwoDigits_range _ _ E2).
      * exact (IH _ _ H).
  - exact (IH _ _ H).
Qed.

(** X15: whatever the text, [parseFiscalYear] answers the clock's year or
    a year between 2000 and 2099. *)
Theorem parseFiscalYear_range (today : Date) (value : string) :
  parseFiscalYear today value = getFullYear today \/
  2000 <= parseFiscalYear today value <= 2099.
Proof.
  unfold parseFiscalYear. destruct (String.eqb value ""); [left; reflexivity |].
  destruct (matchYear false value) as [year |] eqn:E; [| left; reflexivity].
  right. apply matchYear_range in E.
  destruct (Z.ltb_spec year 100); lia.
Qed.

(** Every character is a letter, a digit or an underscore. *)
Fixpoint allWordChars (s : string) : bool :=
  match s with
  | EmptyString => true
  | String c r => isWordChar c && allWordChars r
  end.

Lemma matchYear_inside_word (s : string) :
  allWordChars s = true -> matchYear true s = None.
Proof.
  induction s as [| c r IH]; [reflexivity |].
  cbn [allWordChars matchYear negb andb]. intros H.
  apply andb_prop in H. destruct H as (-> & Hr). exact (IH Hr).
Qed.

(** X16: a year written right after letters, with nothing in between, is
    not recognised: on a text of letters, digits and underscores that does
    not begin with a digit, such as "FY26" or "FY2026", [parseFiscalYear]
    answers the clock's year. *)
Theorem parseFiscalYear_misses_year_glued_to_letters
    (today : Date) (c : ascii) (rest : string) :
  isDigit c = false ->
  allWordChars (String c rest) = true ->
  parseFiscalYear today (String c rest) = getFullYear today.
Proof.
  intros Hc Hw. unfold parseFiscalYear. cbn [String.eqb matchYear negb andb].
  cbn [allWordChars] in Hw. apply andb_prop in Hw. destruct Hw as (Hwc & Hr).
  rewrite Hc, Hwc, (matchYear_inside_word _ Hr). reflexivity.
Qed.

Lemma parseFiscalYear_misses_year_glued_to_letters_witness :
  parseFiscalYear jan6 "FY26" = 2027.
Proof.
  apply (parseFiscalYear_misses_year_glued_to_letters jan6 "F" "Y26"); reflexivity.
Defined.

(** ** Text of the first matching selector *)

Lemma firstText_spec (env : Env) (selectorArray : list string) :
  forall w, exists r w',
    firstText env selectorArray w = (Ok r, w') /\
    w_trace w' = w_trace w /\
    (r = None \/ exists text, r = Some text /\ text <> ""%string).
Proof.
  induction selectorArray as [| selector rest IH]; intros w.
  - exists None, w. repeat split. left. reflexivity.
  - cbn [firstText].
    unfold bind at 1, tryCatch, bind at 1, pageQuery, bind at 1, pageQueryAll,
      bind at 1, tick, bind at 1, get, ret, throw.
    cbn [w_step w_url w_view withStep].
    destruct (env_site env (w_step w) (w_url w) (w_view w) selector) as [[| content els] |];
      cbn [hd_error].
    + destruct (IH (withStep (S (w_step w)) w)) as (r & w' & H & Ht & Hr).
      exists r, w'. repeat split; assumption.
    + destruct (String.eqb_spec (trim content) "") as [He | Hne].
      * destruct (IH (withStep (S (w_step w)) w)) as (r & w' & H & Ht & Hr).
        exists r, w'. repeat split; assumption.
      * exists (Some (trim content)), (withStep (S (w_step w)) w).
        repeat split. right. exists (trim content). split; [reflexivity | exact Hne].
    + destruct (IH (withStep (S (w_step w)) w)) as (r & w' & H & Ht & Hr).
      exists r, w'. repeat split; assumption.
Qed.

(** X17: [extractText] never throws, whatever the page does, and records
    no action; it answers [null] or a text that is not empty. *)
Theorem extractText_never_throws (env : Env) (selectors : string) (w : World) :
  exists r w',
    extractText env selectors w = (Ok r, w') /\
    w_trace w' = w_trace w /\
    r <> Some ""%string.
Proof.
  unfold extractText.
  destruct (firstText_spec env (map trim (splitOnComma selectors)) w)
    as (r & w' & H & Ht & Hr).
  exists r, w'. repeat split; try assumption.
  destruct Hr as [-> | (text & -> & Hne)]; [discriminate |].
  intros [= He]. contradiction.
Qed.

(** ** The date-logic comparison script *)

(** X18: the two month calculations the comparison script sets against
    each other, "old" and "new", agree on every date, and both are the
    calculation of the scraper; on a calendar date the result is between 1
    and 12 and its month name is never "Unknown". *)
Theorem old_and_new_month_logic_agree (testDate : Date) :
  calculateMonthsElapsed_OLD testDate = calculateMonthsElapsed_NEW testDate /\
  calculateMonthsElapsed_NEW testDate = reportingMonthOf testDate /\
  (wellFormed testDate = true ->
   1 <= calculateMonthsElapsed_NEW testDate <= 12 /\
   getFiscalMonthName (calculateMonthsElapsed_NEW testDate) <> "Unknown"%string).
Proof.
  unfold calculateMonthsElapsed_OLD, calculateMonthsElapsed_NEW, reportingMonthOf.
  repeat split.
  - destruct (Z.eqb_spec (getMonth testDate + 1) 1), (Z.eqb_spec (getMonth testDate + 1 - 1) 0);
      lia.
  - unfold wellFormed in H. repeat (apply andb_prop in H; destruct H as (H & ?)).
    destruct (Z.eqb_spec (getMonth testDate + 1 - 1) 0); lia.
  - unfold wellFormed in H. repeat (apply andb_prop in H; destruct H as (H & ?)).
    destruct (Z.eqb_spec (getMonth testDate + 1 - 1) 0); lia.
  - unfold wellFormed in H. repeat (apply andb_prop in H; destruct H as (H & ?)).
    apply Z.leb_le in H, H3.
    assert (Hm : getMonth testDate = 0 \/ getMonth testDate = 1 \/ getMonth testDate = 2 \/
                 getMonth testDate = 3 \/ getMonth testDate = 4 \/ getMonth testDate = 5 \/
                 getMonth testDate = 6 \/ getMonth testDate = 7 \/ getMonth testDate = 8 \/
                 getMonth testDate = 9 \/ getMonth testDate = 10 \/ getMonth testDate = 11)
      by lia.
    repeat (destruct Hm as [-> | Hm]); try rewrite Hm; cbn; discriminate.
Qed.

Lemma old_and_new_month_logic_agree_witness :
  calculateMonthsElapsed_OLD jan6 = 12 /\
  getFiscalMonthName (calculateMonthsElapsed_NEW jan6) <> "Unknown"%string.
Proof.
  destruct (old_and_new_month_logic_agree jan6) as (Hold & _ & Hname).
  split; [rewrite Hold; reflexivity | apply Hname; reflexivity].
Defined.

(** ** The monthly report generator *)

Definition fleetJson (fleetId : string) : string := "fleet-" ++ fleetId ++ ".json".
Definition errorJson (fleetId : string) : string := "fleet-" ++ fleetId ++ "-ERROR.json".

(** How the entries and files of a run relate to the fleets processed:
    a fleet leaves its report and [fleet-ID.json]; or its failure and
    [fleet-ID-ERROR.json]; or, when the report could not be written, both
    entries and the error file alone. *)
Inductive Covered : list string -> list ReportEntry -> list string -> Prop :=
| Covered_nil : Covered [] [] []
| Covered_report fleetId data d ids entries files :
    cd_fleetId data = fleetId ->
    Covered ids entries files ->
    Covered (fleetId :: ids) (FleetReport data d :: entries) (fleetJson fleetId :: files)
| Covered_failure fleetId e d ids entries files :
    Covered ids entries files ->
    Covered (fleetId :: ids) (FleetError fleetId e d :: entries) (errorJson fleetId :: files)
| Covered_both fleetId data d e d' ids entries files :
    cd_fleetId data = fleetId ->
    Covered ids entries files ->
    Covered (fleetId :: ids)
            (FleetReport data d :: FleetError fleetId e d' :: entries)
            (errorJson fleetId :: files).

Lemma Covered_files ids entries files :
  Covered ids entries files -> List.length files = List.length ids.
Proof. induction 1; cbn; congruence. Qed.

Lemma Covered_all_success ids entries files :
  Covered ids entries files ->
  forallb reportSuccess entries = true ->
  map reportFleetId entries = ids /\ files = map fleetJson ids.
Proof.
  induction 1 as [| id data d ids es fs Hid _ IH | | ]; cbn; intros Hs;
    try discriminate.
  - split; reflexivity.
  - destruct (IH Hs) as (-> & ->). rewrite Hid. split; reflexivity.
Qed.

Section ReportLemmas.
Variable env : Env.
Variable CERBERUS_URL : string.

Lemma writeReportFile_spec name st w r w' :
  writeReportFile env name st w = (r, w') ->
  w' = withStep (S (w_step w)) w /\
  ((env_fsWrite env (w_step w) = true /\ r = Ok (addFile name st)) \/
   (env_fsWrite env (w_step w) = false /\ exists e, r = Throw e)).
Proof.
  unfold writeReportFile, bind, tick, ret, throw.
  destruct (env_fsWrite env (w_step w)); intros [= <- <-]; split; eauto.
Qed.

(** One iteration of the loop. *)
Lemma processFleet_spec fleetId st w r w' :
  processFleet env CERBERUS_URL fleetId st w = (r, w') ->
  (exists st' entries file,
      r = Ok st' /\
      run_results st' = (run_results st ++ entries)%list /\
      run_files st' = (run_files st ++ [file])%list /\
      Covered [fleetId] entries [file] /\
      ((forall k, env_fsWrite env k = true) -> List.length entries = 1%nat)) \/
  (exists e k, r = Throw e /\ env_fsWrite env k = false).
Proof.
  unfold processFleet, bind at 1, dateNow, bind at 1, newDate, bind at 1, tick, ret.
  cbn [w_step withStep].
  destruct (scrapeCerebusComplete env fleetId CERBERUS_URL (withStep (S (w_step w)) w))
    as [[data | error] w1] eqn:Hs.
  - apply scrapeCerebusComplete_Ok in Hs.
    destruct Hs as (k & url & bs & names & ss & _ & _ & _ & _ & _ & _ & Hdata & _).
    assert (Hid : cd_fleetId data = fleetId) by (rewrite Hdata; reflexivity).
    unfold bind at 1, dateNow, bind at 1, newDate, bind at 1, tick, ret.
    cbn [w_step withStep]. unfold tryCatch.
    match goal with
    | |- context [writeReportFile env ?n ?s ?w0] =>
        destruct (writeReportFile env n s w0) as [r1 w2] eqn:Hw;
        apply writeReportFile_spec in Hw;
        destruct Hw as (-> & [(Hfs & ->) | (Hfs & e & ->)])
    end.
    + intros [= <- <-]. left. do 3 eexists. split; [reflexivity |].
      cbn [addFile pushResult run_results run_files]. repeat split.
      apply Covered_report; [exact Hid | constructor].
    + unfold recordFailure, bind at 1, dateNow, bind at 1, newDate, bind at 1, tick, ret.
      cbn [w_step withStep].
      match goal with
      | |- context [writeReportFile env ?n ?s ?w0] =>
          destruct (writeReportFile env n s w0) as [r1 w2] eqn:Hw;
          apply writeReportFile_spec in Hw;
          destruct Hw as (-> & [(Hfs2 & ->) | (Hfs2 & e2 & ->)])
      end.
      * intros [= <- <-]. left. do 3 eexists. split; [reflexivity |].
        cbn [addFile pushResult run_results run_files].
        rewrite <- app_assoc. repeat split.
        -- apply Covered_both; [exact Hid | constructor].
        -- intros Hall. rewrite Hall in Hfs. discriminate.
      * intros [= <- <-]. right. eauto.
  - unfold recordFailure, bind at 1, dateNow, bind at 1, newDate, bind at 1, tick, ret.
    cbn [w_step withStep].
    match goal with
    | |- context [writeReportFile env ?n ?s ?w0] =>
        destruct (writeReportFile env n s w0) as [r1 w2] eqn:Hw;
        apply writeReportFile_spec in Hw;
        destruct Hw as (-> & [(Hfs & ->) | (Hfs & e & ->)])
    end.
    + intros [= <- <-]. left. do 3 eexists. split; [reflexivity |].
      cbn [addFile pushResult run_results run_files]. repeat split.
      apply Covered_failure. constructor.
    + intros [= <- <-]. right. eauto.
Qed.

Lemma Covered_app ids1 es1 fs1 ids2 es2 fs2 :
  Covered ids1 es1 fs1 -> Covered ids2 es2 fs2 ->
  Covered (ids1 ++ ids2) (es1 ++ es2) (fs1 ++ fs2).
Proof.
  induction 1; intros H2; cbn; [exact H2 | | |].
  - apply Covered_report; auto.
  - apply Covered_failure; auto.
  - apply Covered_both; auto.
Qed.

(** The loop. *)
Lemma processFleets_spec fleetIds :
  forall st w r w',
    processFleets env CERBERUS_URL fleetIds st w = (r, w') ->
    (exists st' entries files,
        r = Ok st' /\
        run_results st' = (run_results st ++ entries)%list /\
        run_files st' = (run_files st ++ files)%list /\
        Covered fleetIds entries files /\
        ((forall k, env_fsWrite env k = true) ->
         List.length entries = List.length fleetIds)) \/
    (exists e k, r = Throw e /\ env_fsWrite env k = false).
Proof.
  induction fleetIds as [| fleetId rest IH]; intros st w r w' H.
  - injection H as <- <-. left. exists st, [], []. rewrite !app_nil_r.
    repeat split. constructor.
  - cbn [processFleets] in H. unfold bind at 1 in H.
    destruct (processFleet env CERBERUS_URL fleetId st w) as [r1 w1] eqn:Hp.
    apply processFleet_spec in Hp.
    destruct Hp as [(st1 & es1 & f1 & -> & Hr1 & Hf1 & Hc1 & Hl1) | (e & k & -> & Hk)].
    + unfold bind at 1 in H.
      assert (Hrest : exists w2, processFleets env CERBERUS_URL rest st1 w2 = (r, w')).
      { destruct rest; [exists w1 | eexists]; exact H. }
      destruct Hrest as (w2 & Hrest). apply IH in Hrest.
      destruct Hrest as [(st2 & es2 & fs2 & -> & Hr2 & Hf2 & Hc2 & Hl2) | (e & k & -> & Hk)].
      * left. exists st2, (es1 ++ es2)%list, ([f1] ++ fs2)%list.
        split; [reflexivity |].
        rewrite Hr2, Hr1, Hf2, Hf1, <- !app_assoc. repeat split.
        -- exact (Covered_app [fleetId] _ _ _ _ _ Hc1 Hc2).
        -- intros Hall. rewrite length_app, (Hl1 Hall), (Hl2 Hall). reflexivity.
      * right. eauto.
    + injection H as <- <-. right. eauto.
Qed.

Lemma generateSummaryReport_spec st w r w' :
  generateSummaryReport env st w = (r, w') ->
  (exists st',
      r = Ok st' /\
      run_results st' = run_results st /\
      run_files st' = (run_files st ++ ["summary-report.txt"; "summary.json"])%list) \/
  (exists e k, r = Throw e /\ env_fsWrite env k = false).
Proof.
  unfold generateSummaryReport, bind at 1, newDate, bind at 1, tick, ret.
  cbn [w_step withStep]. unfold bind at 1.
  match goal with
  | |- context [writeReportFile env ?n ?s ?w0] =>
      destruct (writeReportFile env n s w0) as [r1 w2] eqn:Hw;
      apply writeReportFile_spec in Hw;
      destruct Hw as (-> & [(Hfs & ->) | (Hfs & e & ->)])
  end.
  - unfold bind at 1, bind at 1, tick, ret. cbn [w_step withStep].
    intros Hw. apply writeReportFile_spec in Hw.
    destruct Hw as (-> & [(Hfs2 & ->) | (Hfs2 & e & ->)]).
    + left. eexists. split; [reflexivity |]. cbn. rewrite <- app_assoc. split; reflexivity.
    + right. eauto.
  - intros [= <- <-]. right. eauto.
Qed.

End ReportLemmas.

Lemma Covered_length ids entries files :
  Covered ids entries files -> (List.length ids <= List.length entries)%nat.
Proof. induction 1; cbn; lia. Qed.

Lemma Covered_one_each ids entries files :
  Covered ids entries files ->
  List.length entries = List.length ids ->
  map reportFleetId entries = ids.
Proof.
  induction 1 as [| id data d ids es fs Hid Hc IH | id e d ids es fs Hc IH
                  | id data d e d' ids es fs Hid Hc IH]; cbn; intros Hl.
  - reflexivity.
  - rewrite Hid, IH by lia. reflexivity.
  - rewrite IH by lia. reflexivity.
  - apply Covered_length in Hc. lia.
Qed.

Lemma failCount_zero (results : list ReportEntry) :
  (0 <? List.length (filter (fun r => negb (reportSuccess r)) results))%nat
  = negb (forallb reportSuccess results).
Proof.
  induction results as [| r rs IH]; [reflexivity |].
  cbn [filter forallb]. destruct (reportSuccess r); cbn; [exact IH | reflexivity].
Qed.

(** What a run that returned has done. *)
Lemma scrapeAllFleets_Ok (env : Env) (CERBERUS_URL : string) (FLEET_IDS : list string)
    (w : World) (res : RunResult) (w' : World) :
  scrapeAllFleets env CERBERUS_URL FLEET_IDS w = (Ok res, w') ->
  (env_fsWrite env (S (w_step w)) = false /\ res = mkResult [] [] 1) \/
  (exists files,
      Covered FLEET_IDS (res_results res) files /\
      res_files res = (files ++ ["summary-report.txt"; "summary.json"])%list /\
      res_exitCode res = (if forallb reportSuccess (res_results res) then 0 else 1) /\
      ((forall k, env_fsWrite env k = true) ->
       List.length (res_results res) = List.length FLEET_IDS)).
Proof.
  unfold scrapeAllFleets, bind at 1, dateNow, bind at 1, newDate, bind at 1, tick, ret.
  cbn [w_step withStep]. unfold bind at 1. cbn [w_step withStep].
  destruct (env_fsWrite env (S (w_step w))) eqn:Hmk; cbn [negb].
  2:{ intros [= <- <-]. left. split; reflexivity. }
  unfold bind at 1.
  match goal with
  | |- context [processFleets env CERBERUS_URL FLEET_IDS ?s ?w0] =>
      destruct (processFleets env CERBERUS_URL FLEET_IDS s w0) as [r1 w1] eqn:Hp
  end.
  apply processFleets_spec in Hp.
  destruct Hp as [(st1 & es & fs & -> & Hr & Hf & Hc & Hl) | (e & k & -> & _)];
    [| discriminate].
  cbn [run_results run_files app] in Hr, Hf.
  unfold bind at 1, dateNow, bind at 1, newDate, bind at 1, tick, ret.
  cbn [w_step withStep]. unfold bind at 1.
  match goal with
  | |- context [generateSummaryReport env ?s ?w0] =>
      destruct (generateSummaryReport env s w0) as [r2 w2] eqn:Hg
  end.
  apply generateSummaryReport_spec in Hg.
  destruct Hg as [(st2 & -> & Hr2 & Hf2) | (e & k & -> & _)]; [| discriminate].
  intros [= <- <-]. right. exists fs.
  cbn [res_results res_files res_exitCode].
  rewrite failCount_zero, Hr2, Hf2, Hr, Hf.
  repeat split; try assumption.
  destruct (forallb reportSuccess es); reflexivity.
Qed.

(** X19: a run of the monthly report that ends with exit code 0 has
    stored exactly one entry per fleet, in the order of [FLEET_IDS], each a
    successful report carrying its fleet's id, and has written
    [fleet-ID.json] for each fleet, in that order, followed by the two
    summary files. *)
Theorem monthly_report_clean_exit
    (env : Env) (CERBERUS_URL : string) (FLEET_IDS : list string)
    (w : World) (res : RunResult) (w' : World) :
  scrapeAllFleets env CERBERUS_URL FLEET_IDS w = (Ok res, w') ->
  res_exitCode res = 0 ->
  map reportFleetId (res_results res) = FLEET_IDS /\
  forallb reportSuccess (res_results res) = true /\
  res_files res
  = (map fleetJson FLEET_IDS ++ ["summary-report.txt"; "summary.json"])%list.
Proof.
  intros H Hexit. apply scrapeAllFleets_Ok in H.
  destruct H as [(_ & ->) | (files & Hc & Hf & He & _)]; [discriminate |].
  rewrite Hexit in He.
  destruct (forallb reportSuccess (res_results res)) eqn:Hs; [| discriminate].
  destruct (Covered_all_success _ _ _ Hc Hs) as (Hids & ->).
  repeat split; assumption.
Qed.

Lemma monthly_report_clean_exit_witness :
  exists res w',
    scrapeAllFleets sampleEnv "https://cerberus.example" ["8304669"; "8305082"] freshWorld
    = (Ok res, w') /\
    map reportFleetId (res_results res) = ["8304669"; "8305082"] /\
    forallb reportSuccess (res_results res) = true /\
    res_files res
    = (map fleetJson ["8304669"; "8305082"] ++ ["summary-report.txt"; "summary.json"])%list.
Proof.
  do 2 eexists. split; [vm_compute; reflexivity |].
  refine (monthly_report_clean_exit sampleEnv "https://cerberus.example"
            ["8304669"; "8305082"] freshWorld _ _ _ _); vm_compute; reflexivity.
Defined.

(** X20: as long as every file-system write succeeds, a run of the
    monthly report returns, whatever the dashboard and the browser do: it
    stores exactly one entry per fleet, in the order of [FLEET_IDS], writes
    one file per fleet and the two summary files, and exits with 1 exactly
    when some entry is a failure. *)
Theorem monthly_report_completes_when_writes_succeed
    (env : Env) (CERBERUS_URL : string) (FLEET_IDS : list string) (w : World) :
  (forall k, env_fsWrite env k = true) ->
  exists res w',
    scrapeAllFleets env CERBERUS_URL FLEET_IDS w = (Ok res, w') /\
    map reportFleetId (res_results res) = FLEET_IDS /\
    List.length (res_files res) = (List.length FLEET_IDS + 2)%nat /\
    res_exitCode res = (if forallb reportSuccess (res_results res) then 0 else 1) /\
    monthlyReportMain env CERBERUS_URL FLEET_IDS w = (Ok (res_exitCode res), w').
Proof.
  intros Hall.
  destruct (scrapeAllFleets env CERBERUS_URL FLEET_IDS w) as [[res | e] w'] eqn:H.
  - exists res, w'. split; [reflexivity |].
    assert (Hmain : monthlyReportMain env CERBERUS_URL FLEET_IDS w
                    = (Ok (res_exitCode res), w'))
      by (unfold monthlyReportMain, tryCatch, bind; rewrite H; reflexivity).
    apply scrapeAllFleets_Ok in H.
    destruct H as [(Hmk & _) | (files & Hc & Hf & He & Hl)];
      [rewrite Hall in Hmk; discriminate |].
    repeat split; try assumption.
    + exact (Covered_one_each _ _ _ Hc (Hl Hall)).
    + rewrite Hf, length_app, (Covered_files _ _ _ Hc). reflexivity.
  - exfalso. revert H.
    unfold scrapeAllFleets, bind at 1, dateNow, bind at 1, newDate, bind at 1, tick, ret.
    cbn [w_step withStep]. unfold bind at 1. cbn [w_step withStep].
    rewrite Hall. cbn [negb]. unfold bind at 1.
    match goal with
    | |- context [processFleets env CERBERUS_URL FLEET_IDS ?s ?w0] =>
        destruct (processFleets env CERBERUS_URL FLEET_IDS s w0) as [r1 w1] eqn:Hp
    end.
    apply processFleets_spec in Hp.
    destruct Hp as [(st1 & es & fs & -> & _) | (e' & k & _ & Hk)];
      [| rewrite Hall in Hk; discriminate].
    unfold bind at 1, dateNow, bind at 1, newDate, bind at 1, tick, ret.
    cbn [w_step withStep]. unfold bind at 1.
    match goal with
    | |- context [generateSummaryReport env ?s ?w0] =>
        destruct (generateSummaryReport env s w0) as [r2 w2] eqn:Hg
    end.
    apply generateSummaryReport_spec in Hg.
    destruct Hg as [(st2 & -> & _) | (e' & k & _ & Hk)];
      [discriminate | rewrite Hall in Hk; discriminate].
Qed.

Lemma monthly_report_completes_when_writes_succeed_witness :
  exists res w',
    scrapeAllFleets secondFleetDownEnv "https://cerberus.example" ["1"; "2"; "3"] freshWorld
    = (Ok res, w') /\
    map reportFleetId (res_results res) = ["1"; "2"; "3"] /\
    List.length (res_files res) = (List.length ["1"; "2"; "3"] + 2)%nat /\
    res_exitCode res = (if forallb reportSuccess (res_results res) then 0 else 1) /\
    monthlyReportMain secondFleetDownEnv "https://cerberus.example" ["1"; "2"; "3"] freshWorld
    = (Ok (res_exitCode res), w').
Proof.
  apply (monthly_report_completes_when_writes_succeed secondFleetDownEnv
           "https://cerberus.example" ["1"; "2"; "3"] freshWorld).
  intros k. reflexivity.
Defined.

(** X21: when the extraction of a fleet returned but its report file
    cannot be written, while the error file can, the iteration stores two
    entries for the fleet, the successful report and then a failure, and
    writes the error file alone. *)
Theorem report_write_failure_lists_fleet_twice
    (env : Env) (CERBERUS_URL fleetId : string) (st : RunState) (w w1 : World)
    (data : CerebusCompleteData) :
  scrapeCerebusComplete env fleetId CERBERUS_URL (withStep (S (w_step w)) w)
  = (Ok data, w1) ->
  env_fsWrite env (S (w_step w1)) = false ->
  env_fsWrite env (S (S (S (w_step w1)))) = true ->
  exists st' w' d e d',
    processFleet env CERBERUS_URL fleetId st w = (Ok st', w') /\
    run_results st'
    = (run_results st ++ [FleetReport data d; FleetError fleetId e d'])%list /\
    run_files st' = (run_files st ++ [errorJson fleetId])%list.
Proof.
  intros Hs Hfail Hok.
  unfold processFleet, bind at 1, dateNow, bind at 1, newDate, bind at 1, tick, ret.
  cbn [w_step withStep]. rewrite Hs.
  unfold bind at 1, dateNow, bind at 1, newDate, bind at 1, tick, ret.
  cbn [w_step withStep]. unfold tryCatch, writeReportFile at 1, bind at 1, tick.
  cbn [w_step withStep]. rewrite Hfail. unfold throw at 1.
  unfold recordFailure, bind at 1, dateNow, bind at 1, newDate, bind at 1, tick, ret.
  cbn [w_step withStep]. unfold writeReportFile, bind, tick, ret.
  cbn [w_step withStep]. rewrite Hok.
  do 5 eexists. split; [reflexivity |].
  cbn [addFile pushResult run_results run_files]. rewrite <- app_assoc.
  split; reflexivity.
Qed.

(** The sample dashboard on a disk that refuses the one write made at
    interaction 22, the report file of the first fleet. *)
Definition reportWriteFailsEnv : Env :=
  mkEnv (fun _ => jan6) (fun _ _ => true) (fun _ => true)
        (fun k => negb (k =? 22)%nat)
        (fun _ => true) (fun _ => true) sampleSite.

Lemma report_write_failure_lists_fleet_twice_witness :
  exists data w1 st' w' d e d',
    scrapeCerebusComplete reportWriteFailsEnv "8304669" "https://cerberus.example"
      (withStep 1 freshWorld) = (Ok data, w1) /\
    processFleet reportWriteFailsEnv "https://cerberus.example" "8304669" (mkRun [] [])
      freshWorld = (Ok st', w') /\
    run_results st'
    = (run_results (mkRun [] []) ++ [FleetReport data d; FleetError "8304669" e d'])%list /\
    run_files st' = (run_files (mkRun [] []) ++ [errorJson "8304669"])%list.
Proof.
  do 2 eexists.
  assert (Hs : scrapeCerebusComplete reportWriteFailsEnv "8304669"
                 "https://cerberus.example" (withStep (S (w_step freshWorld)) freshWorld)
               = (Ok _, _)) by (vm_compute; reflexivity).
  destruct (report_write_failure_lists_fleet_twice reportWriteFailsEnv
              "https://cerberus.example" "8304669" (mkRun [] []) freshWorld _ _ Hs
              ltac:(vm_compute; reflexivity) ltac:(vm_compute; reflexivity))
    as (st' & w' & d & e & d' & H).
  exists st', w', d, e, d'. split; [exact Hs | exact H].
Defined.

(** ** Fiscal calendar *)

(** The year [new Date(year, 0, 1)] falls in. *)
Definition civilYear (year : Z) : Z :=
  if (0 <=? year) && (year <=? 99) then 1900 + year else year.

Lemma daysFromCivil_year_span (y : Z) :
  daysFromCivil y 12 31 - daysFromCivil y 1 1
  = if (y mod 4 =? 0) && (negb (y mod 100 =? 0) || (y mod 400 =? 0)) then 365 else 364.
Proof.
  unfold daysFromCivil. cbn -[Z.div Z.mul Z.add Z.sub Z.modulo].
  destruct (Z.eqb_spec (y mod 4) 0), (Z.eqb_spec (y mod 100) 0), (Z.eqb_spec (y mod 400) 0);
    cbn [andb orb negb]; Z.div_mod_to_equations; lia.
Qed.

Lemma daysFromCivil_within_year (y mi d : Z) :
  0 <= mi <= 11 -> 1 <= d <= 31 ->
  0 <= daysFromCivil y (mi + 1) d - daysFromCivil y 1 1
    <= daysFromCivil y 12 31 - daysFromCivil y 1 1.
Proof.
  intros Hm Hd. unfold daysFromCivil. cbv zeta.
  repeat match goal with
         | |- context [Z.leb ?a ?b] => destruct (Z.leb_spec a b)
         | |- context [Z.ltb ?a ?b] => destruct (Z.ltb_spec a b)
         end; try lia; Z.div_mod_to_equations; lia.
Qed.

Lemma quot_days (n ms : Z) :
  0 <= n -> 0 <= ms < 86400000 -> Z.quot (n * 86400000 + ms) 86400000 = n.
Proof.
  intros Hn Hms. rewrite Z.quot_div_nonneg by lia.
  symmetry. apply (Z.div_unique _ _ _ ms); lia.
Qed.

Lemma getDaysInFiscalYear_civil (today : Date) (fiscalYear : option Z) :
  let y := civilYear (yearOrCurrent today fiscalYear) in
  getDaysInFiscalYear today fiscalYear
  = if (y mod 4 =? 0) && (negb (y mod 100 =? 0) || (y mod 400 =? 0)) then 366 else 365.
Proof.
  intros y. unfold getDaysInFiscalYear, getFiscalYearStart, getFiscalYearEnd,
    differenceInDays, startOfYear, endOfYear, newDateYMD, getTime.
  cbn [getFullYear getMonth getDate msOfDay]. fold (civilYear (yearOrCurrent today fiscalYear)).
  fold y. change (11 + 1) with 12. change (0 + 1) with 1.
  pose proof (daysFromCivil_year_span y) as Hspan.
  replace (daysFromCivil y 12 31 * 86400000 + 86399999 - (daysFromCivil y 1 1 * 86400000 + 0))
    with ((daysFromCivil y 12 31 - daysFromCivil y 1 1) * 86400000 + 86399999) by lia.
  rewrite quot_days, Hspan.
  - destruct ((y mod 4 =? 0) && (negb (y mod 100 =? 0) || (y mod 400 =? 0))); reflexivity.
  - rewrite Hspan.
    destruct ((y mod 4 =? 0) && (negb (y mod 100 =? 0) || (y mod 400 =? 0))); lia.
  - lia.
Qed.

(** X22: a fiscal year has 365 days, or 366 when its calendar year is a
    leap year; years 1 to 99 are read as 1901 to 1999 and year 0 as the
    clock's year. *)
Theorem getDaysInFiscalYear_is_year_length (today : Date) (fiscalYear : option Z) :
  let y := civilYear (yearOrCurrent today fiscalYear) in
  getDaysInFiscalYear today fiscalYear
  = if (y mod 4 =? 0) && (negb (y mod 100 =? 0) || (y mod 400 =? 0)) then 366 else 365.
Proof. exact (getDaysInFiscalYear_civil today fiscalYear). Qed.

(** X23: for a calendar date of a year written with more than two digits,
    the days elapsed in the date's own fiscal year lie between 1 and the
    length of that year, so the guard of [calculateAverageDailyBurnRate]
    against zero days is never taken: the rate is the spend divided by the
    days elapsed. *)
Theorem days_elapsed_within_fiscal_year
    (today currentDate : Date) (ytdSpend : float) :
  wellFormed currentDate = true ->
  getFullYear currentDate < 0 \/ 99 < getFullYear currentDate ->
  let fiscalYear := Some (getFiscalYear currentDate) in
  1 <= getDaysElapsed today currentDate fiscalYear
    <= getDaysInFiscalYear today fiscalYear /\
  calculateAverageDailyBurnRate today ytdSpend currentDate
  = (ytdSpend / Z2float (getDaysElapsed today currentDate fiscalYear))%float.
Proof.
  intros Hwf Hy fiscalYear.
  unfold wellFormed in Hwf. repeat (apply andb_prop in Hwf; destruct Hwf as (Hwf & ?)).
  assert (Hyear : civilYear (yearOrCurrent today fiscalYear) = getFullYear currentDate).
  { unfold fiscalYear, yearOrCurrent, getFiscalYear, civilYear.
    destruct (Z.eqb_spec (getFullYear currentDate) 0); [lia |].
    destruct (Z.leb_spec 0 (getFullYear currentDate)),
             (Z.leb_spec (getFullYear currentDate) 99); cbn [andb]; lia. }
  pose proof (daysFromCivil_within_year (getFullYear currentDate) (getMonth currentDate)
                (getDate currentDate) ltac:(lia) ltac:(lia)) as Hin.
  assert (Helapsed : getDaysElapsed today currentDate fiscalYear
                     = daysFromCivil (getFullYear currentDate) (getMonth currentDate + 1)
                         (getDate currentDate)
                       - daysFromCivil (getFullYear currentDate) 1 1 + 1).
  { unfold getDaysElapsed, getFiscalYearStart, isBefore, differenceInDays, startOfYear,
      newDateYMD, getTime.
    cbn [getFullYear getMonth getDate msOfDay].
    fold (civilYear (yearOrCurrent today fiscalYear)). rewrite Hyear.
    change (0 + 1) with 1.
    destruct (Z.ltb_spec
                (daysFromCivil (getFullYear currentDate) (getMonth currentDate + 1)
                   (getDate currentDate) * 86400000 + msOfDay currentDate)
                (daysFromCivil (getFullYear currentDate) 1 1 * 86400000 + 0)); [lia |].
    replace (daysFromCivil (getFullYear currentDate) (getMonth currentDate + 1)
               (getDate currentDate) * 86400000 + msOfDay currentDate
             - (daysFromCivil (getFullYear currentDate) 1 1 * 86400000 + 0))
      with ((daysFromCivil (getFullYear currentDate) (getMonth currentDate + 1)
               (getDate currentDate)
             - daysFromCivil (getFullYear currentDate) 1 1) * 86400000
            + msOfDay currentDate) by lia.
    rewrite quot_days by lia. reflexivity. }
  pose proof (getDaysInFiscalYear_civil today fiscalYear) as Hlen.
  cbv zeta in Hlen. rewrite Hyear in Hlen.
  pose proof (daysFromCivil_year_span (getFullYear currentDate)) as Hspan.
  split.
  - rewrite Helapsed, Hlen.
    destruct ((getFullYear currentDate mod 4 =? 0)
              && (negb (getFullYear currentDate mod 100 =? 0)
                  || (getFullYear currentDate mod 400 =? 0))); lia.
  - unfold calculateAverageDailyBurnRate. fold fiscalYear.
    destruct (Z.eqb_spec (getDaysElapsed today currentDate fiscalYear) 0); [lia | reflexivity].
Qed.

Lemma days_elapsed_within_fiscal_year_witness :
  1 <= getDaysElapsed jan6 dec31 (Some (getFiscalYear dec31))
    <= getDaysInFiscalYear jan6 (Some (getFiscalYear dec31)) /\
  calculateAverageDailyBurnRate jan6 150900 dec31
  = (150900 / Z2float (getDaysElapsed jan6 dec31 (Some (getFiscalYear dec31))))%float.
Proof.
  apply (days_elapsed_within_fiscal_year jan6 dec31 150900).
  - reflexivity.
  - right. cbn. lia.
Defined.

(** ** Monthly rows of an aggregate *)

Definition monthLt (a b : MonthlyBurnRate) : Prop :=
  String.compare (month a) (month b) = Lt.

Definition monthLeP (a b : MonthlyBurnRate) : Prop := monthLe a b = true.

Lemma compare_Lt_trans (x y z : string) :
  String.compare x y = Lt -> String.compare y z = Lt -> String.compare x z = Lt.
Proof.
  intros H1 H2. apply String_as_OT.cmp_lt. apply String_as_OT.cmp_lt in H1, H2.
  exact (String_as_OT.lt_trans _ _ _ H1 H2).
Qed.

Lemma monthLe_cases (a b : MonthlyBurnRate) :
  monthLe a b = true <-> month a = month b \/ monthLt a b.
Proof.
  unfold monthLe, monthLt. destruct (String.compare (month a) (month b)) eqn:E.
  - apply String.compare_eq_iff in E. tauto.
  - tauto.
  - split; [discriminate | intros [H | H]; [| discriminate]].
    rewrite H in E. pose proof (String.compare_antisym (month b) (month b)) as Ha.
    rewrite E in Ha. discriminate.
Qed.

Lemma monthLe_trans (a b c : MonthlyBurnRate) :
  monthLeP a b -> monthLeP b c -> monthLeP a c.
Proof.
  unfold monthLeP. rewrite !monthLe_cases. unfold monthLt.
  intros [H1 | H1] [H2 | H2].
  - left. congruence.
  - right. rewrite H1. exact H2.
  - right. rewrite <- H2. exact H1.
  - right. exact (compare_Lt_trans _ _ _ H1 H2).
Qed.

Lemma monthLe_total (a b : MonthlyBurnRate) : monthLe a b = false -> monthLeP b a.
Proof.
  unfold monthLeP, monthLe. rewrite (String.compare_antisym (month a) (month b)).
  destruct (String.compare (month b) (month a)); cbn; congruence.
Qed.

Lemma insertSorted_perm (x : MonthlyBurnRate) (l : list MonthlyBurnRate) :
  Permutation (insertSorted x l) (x :: l).
Proof.
  induction l as [| y r IH]; cbn; [reflexivity |].
  destruct (monthLe y x); [| reflexivity].
  rewrite IH. apply perm_swap.
Qed.

Lemma insertSorted_sorted (x : MonthlyBurnRate) (l : list MonthlyBurnRate) :
  StronglySorted monthLeP l -> StronglySorted monthLeP (insertSorted x l).
Proof.
  induction 1 as [| y r Hs IH Hall]; cbn.
  - repeat constructor.
  - destruct (monthLe y x) eqn:E.
    + constructor; [exact IH |].
      apply (Permutation_Forall (Permutation_sym (insertSorted_perm x r))).
      constructor; [exact E | exact Hall].
    + apply monthLe_total in E. constructor; [constructor; assumption |].
      constructor; [exact E |].
      eapply Forall_impl; [| exact Hall]. intros z Hz. exact (monthLe_trans _ _ _ E Hz).
Qed.

Lemma sortByMonth_spec (l : list MonthlyBurnRate) :
  StronglySorted monthLeP (sortByMonth l) /\ Permutation (sortByMonth l) l.
Proof.
  unfold sortByMonth.
  assert (H : forall acc,
             StronglySorted monthLeP acc ->
             StronglySorted monthLeP (fold_left (fun acc x => insertSorted x acc) l acc) /\
             Permutation (fold_left (fun acc x => insertSorted x acc) l acc) (l ++ acc)).
  { induction l as [| x r IH]; intros acc Hacc; cbn; [split; [exact Hacc | reflexivity] |].
    destruct (IH _ (insertSorted_sorted x acc Hacc)) as (Hs & Hp).
    split; [exact Hs |].
    rewrite Hp, insertSorted_perm. symmetry. apply Permutation_middle. }
  destruct (H [] ltac:(constructor)) as (Hs & Hp).
  rewrite app_nil_r in Hp. split; assumption.
Qed.

Lemma sorted_distinct_strict (l : list MonthlyBurnRate) :
  StronglySorted monthLeP l -> NoDup (map month l) -> StronglySorted monthLt l.
Proof.
  induction 1 as [| x r Hs IH Hall]; cbn; intros Hnd; [constructor |].
  inversion Hnd as [| ? ? Hnotin Hnd']; subst.
  constructor; [exact (IH Hnd') |].
  rewrite Forall_forall in *. intros y Hy.
  destruct (proj1 (monthLe_cases x y) (Hall y Hy)) as [Heq | Hlt]; [| exact Hlt].
  exfalso. apply Hnotin. rewrite Heq. apply in_map, Hy.
Qed.

(** The keys of the [Map] are distinct, and each is the month of its
    value. *)
Definition monthMap (m : list (string * MonthlyBurnRate)) : Prop :=
  NoDup (map fst m) /\ Forall (fun kv => fst kv = month (snd kv)) m.

Lemma mergeMonth_keys (mbr : MonthlyBurnRate) (m : list (string * MonthlyBurnRate)) :
  forall k, In k (map fst (mergeMonth mbr m)) <-> k = month mbr \/ In k (map fst m).
Proof.
  induction m as [| [k0 existing] rest IH]; intros k; cbn.
  - intuition.
  - destruct (String.eqb_spec k0 (month mbr)) as [-> | Hne]; cbn.
    + intuition.
    + rewrite IH. intuition.
Qed.

Lemma mergeMonth_monthMap (mbr : MonthlyBurnRate) (m : list (string * MonthlyBurnRate)) :
  monthMap m -> monthMap (mergeMonth mbr m).
Proof.
  unfold monthMap. induction m as [| [k0 existing] rest IH]; cbn; intros (Hnd & Hk).
  - split; repeat constructor. intros [].
  - inversion Hnd as [| ? ? Hnotin Hnd']; subst.
    inversion Hk as [| ? ? Hk0 Hk']; subst. cbn in Hk0.
    destruct (String.eqb_spec k0 (month mbr)) as [Heq | Hne]; cbn.
    + split; [constructor; assumption |]. constructor; [exact Hk0 | exact Hk'].
    + destruct (IH (conj Hnd' Hk')) as (Hnd2 & Hk2).
      split; [| constructor; assumption].
      constructor; [| exact Hnd2].
      rewrite mergeMonth_keys. intros [H | H]; [congruence | contradiction].
Qed.

Lemma mergeAll_spec (l : list MonthlyBurnRate) :
  forall m,
    monthMap m ->
    monthMap (fold_left (fun m' mbr => mergeMonth mbr m') l m) /\
    forall k, In k (map fst (fold_left (fun m' mbr => mergeMonth mbr m') l m))
              <-> In k (map month l) \/ In k (map fst m).
Proof.
  induction l as [| x r IH]; intros m Hm; cbn.
  - split; [exact Hm | intuition].
  - destruct (IH _ (mergeMonth_monthMap x m Hm)) as (H1 & H2).
    split; [exact H1 |]. intros k. rewrite H2, mergeMonth_keys. intuition.
Qed.

Lemma mergeFleets_spec (fleets : list ForecastResult) :
  forall m,
    monthMap m ->
    let m' := fold_left
                (fun m fleet =>
                   fold_left (fun m' mbr => mergeMonth mbr m') (monthlyBurnRates fleet) m)
                fleets m in
    monthMap m' /\
    forall k, In k (map fst m')
              <-> (exists fleet, In fleet fleets /\ In k (map month (monthlyBurnRates fleet)))
                  \/ In k (map fst m).
Proof.
  induction fleets as [| f r IH]; intros m Hm; cbn.
  - split; [exact Hm |]. intros k. split; [auto | intros [(f & [] & _) | H]; exact H].
  - destruct (mergeAll_spec (monthlyBurnRates f) m Hm) as (H1 & H2).
    destruct (IH _ H1) as (H3 & H4). cbv zeta in H3, H4.
    split; [exact H3 |]. intros k. rewrite H4, H2. split.
    + intros [(f' & Hin & Hk) | [Hk | Hk]]; [left; exists f'; auto | left; exists f; auto | auto].
    + intros [(f' & [<- | Hin] & Hk) | Hk]; [auto | left; exists f'; auto | auto].
Qed.

(** A month key as [getMonthKey] writes it: digits and hyphens.  On such
    texts [localeCompare] orders as the character codes do. *)
Fixpoint monthKeyText (s : string) : bool :=
  match s with
  | EmptyString => true
  | String c r => (isDigit c || (codeOf c =? 45)) && monthKeyText r
  end.

Definition monthKeys (fleet : ForecastResult) : Prop :=
  Forall (fun mbr => monthKeyText (month mbr) = true) (monthlyBurnRates fleet).

(** X24: the monthly rows of an aggregate over at least one sub-fleet,
    all rows being keyed by month keys, are in strictly ascending order of
    their keys, hence one row per month, and the months present are exactly
    the months of the main fleet and of the sub-fleets. *)
Theorem aggregate_months_sorted_and_complete
    (today now1 now2 : Date) (mainFleet : ForecastResult) (subFleets_ : list ForecastResult) :
  subFleets_ <> [] ->
  Forall monthKeys (mainFleet :: subFleets_) ->
  let rows := monthlyBurnRates (aggregateFleetData today now1 now2 mainFleet subFleets_) in
  StronglySorted monthLt rows /\
  forall k, In k (map month rows)
            <-> exists fleet, In fleet (mainFleet :: subFleets_) /\
                              In k (map month (monthlyBurnRates fleet)).
Proof.
  intros Hne _ rows. subst rows.
  destruct subFleets_ as [| s ss]; [contradiction |].
  cbn [aggregateFleetData monthlyBurnRates].
  match goal with
  | |- context [sortByMonth (map snd ?m)] => set (themap := m)
  end.
  destruct (mergeFleets_spec (mainFleet :: s :: ss) [] ltac:(split; constructor))
    as ((Hnd & Hk) & Hkeys).
  fold themap in Hnd, Hk, Hkeys.
  destruct (sortByMonth_spec (map snd themap)) as (Hs & Hp).
  assert (Hmonths : map month (map snd themap) = map fst themap).
  { clear - Hk. induction Hk as [| [k v] r Hkv _ IH]; cbn; [reflexivity |].
    cbn in Hkv. rewrite IH, Hkv. reflexivity. }
  assert (Hkeys_main :
            forall k, In k (map fst themap)
                      <-> exists fleet, In fleet (mainFleet :: s :: ss) /\
                                        In k (map month (monthlyBurnRates fleet))).
  { intros k. rewrite Hkeys. cbn. tauto. }
  split.
  - apply sorted_distinct_strict; [exact Hs |].
    apply (Permutation_NoDup (l := map month (map snd themap)));
      [apply Permutation_map; symmetry; exact Hp | rewrite Hmonths; exact Hnd].
  - intros k. rewrite <- Hkeys_main, <- Hmonths. split.
    + apply Permutation_in, Permutation_map, Hp.
    + apply Permutation_in, Permutation_map. symmetry. exact Hp.
Qed.

(** A main fleet with rows for February and January, in that order, and a
    sub-fleet with rows for January and March. *)
Definition fleetWithRows (id : string) (rows : list MonthlyBurnRate) : ForecastResult :=
  mkForecast id id 1000 100 0 rows 200 (-800) (-80) false
             (mkDate 2026 0 1 0) (mkDate 2026 11 31 86399999) 365 182 None.
Definition rowOf (key name : string) (spend : float) (days : Z) : MonthlyBurnRate :=
  mkMBR key name spend days (spend / Z2float days)%float.
Definition mainWithRows : ForecastResult :=
  fleetWithRows "A" [rowOf "2026-02" "February 2026" 280 28;
                     rowOf "2026-01" "January 2026" 310 31].
Definition subWithRows : ForecastResult :=
  fleetWithRows "B" [rowOf "2026-01" "January 2026" 620 31;
                     rowOf "2026-03" "March 2026" 31 31].

Lemma aggregate_months_sorted_and_complete_witness :
  map month (monthlyBurnRates
               (aggregateFleetData dec31 dec31 dec31 mainWithRows [subWithRows]))
  = ["2026-01"; "2026-02"; "2026-03"] /\
  StronglySorted monthLt
    (monthlyBurnRates (aggregateFleetData dec31 dec31 dec31 mainWithRows [subWithRows])).
Proof.
  split; [vm_compute; reflexivity |].
  apply (aggregate_months_sorted_and_complete dec31 dec31 dec31 mainWithRows [subWithRows]).
  - discriminate.
  - repeat constructor.
Defined.
